(** * Order, invoice and payment reconciliation of the Telegram crypto store

    A shallow embedding of the money-moving path of the store:
    - [database/db.js]: the query objects over the PostgreSQL schema
      ([schema.sql]: users, products, orders, order_items, invoices,
      purchased_products);
    - [services/plisio.js]: webhook signature verification and payload mapping;
    - [bot/telegram-bot.js]: the registration middleware, the commands and
      actions that are answered before it, and [notifyPaymentReceived];
    - [server.js]: the routes POST /api/orders, POST /api/webhook/plisio and
      the administrative product routes.

    Conventions of the model.
    - Money is counted in whole cents and crypto amounts in whole base units
      (type [Z]); the JavaScript code computes with doubles and the database
      stores DECIMAL columns, whose rounding is outside the model.
    - Integer columns are unbounded [Z] and timestamps are clock readings in
      [Z]. The columns that a later statement rewrites are modelled, among
      them [orders.updated_at] (DEFAULT at insert, then the
      [update_updated_at_column] trigger BEFORE UPDATE) and
      [users.last_active]. Left out are the timestamps written once at insert
      and never again (created_at, joined_at), the descriptive columns of
      users and products (username, first_name, last_name, is_admin,
      description, image_url, mega_link), and [products.updated_at]: what
      is stated of a product row is stated of its id, name, price, stock and
      [is_active].
    - The database has a clock of its own ([current_timestamp]); the server
      reads its clock with [new Date()], the [now] of a route. The two are
      not assumed to agree.
    - A table with a primary or unique key that the code selects by is a finite
      map from that key to the row.
    - Every request is served to completion before the next one starts, and
      the database clock does not move while a request is served.
    - Any statement sent to the database may be refused (connection loss,
      constraint or range violation ...): the world carries the schedule of
      refusals, one boolean per coming statement. *)

From Stdlib Require Import ZArith String Ascii List Lia.
From stdpp Require Import gmap strings list fin_maps sorting.
Import ListNotations.

Open Scope string_scope.
Open Scope list_scope.
Open Scope Z_scope.

(** ** JavaScript values of a parsed request body

    [bodyParser.json] and [bodyParser.urlencoded({extended: true})] deliver
    strings, arrays, booleans and null (numbers and nested objects are not
    modelled). *)

#[warnings="-register-all"]
Inductive jsval : Type :=
| JNull
| JBool (b : bool)
| JStr (s : string)
| JArr (l : list jsval).

(** [ToString], as applied by a template literal [`${v}`] or by a property
    access [table[v]]. An array is rendered as its elements joined by commas,
    a null element as the empty string. *)
Fixpoint js_to_string (v : jsval) : string :=
  match v with
  | JNull => "null"
  | JBool true => "true"
  | JBool false => "false"
  | JStr s => s
  | JArr l =>
      (fix join (l : list jsval) : string :=
         match l with
         | [] => ""
         | x :: r =>
             let e := match x with JNull => "" | _ => js_to_string x end in
             match r with
             | [] => e
             | _ :: _ => e +:+ "," +:+ join r
             end
         end) l
  end.

(** A request body is an object: a finite map from property names to values. *)
Abbreviation jsobj := (gmap string jsval).

(** ** The services outside the repository

    - [crypto.createHmac('sha1', key).update(msg).digest('hex')];
    - the text that the [pg] driver sends for a JavaScript value bound to a
      statement parameter ([None] is SQL NULL); a string is sent as it is;
    - the text that the driver sends for a member that an object literal
      inherits from [Object.prototype], given by its name (for a function its
      source text, [function Object() { [native code] }] for
      [constructor]). *)
Class Runtime := {
  hmac_sha1_hex : string -> string -> string;
  pg_text : jsval -> option string;
  pg_text_string : forall s, pg_text (JStr s) = Some s;
  pg_text_inherited : string -> string
}.

(** ** The schema ([schema.sql]) *)

Record user := {
  u_id : Z;
  u_telegram_id : Z;
  u_last_active : Z
}.

Record product := {
  p_id : Z;
  p_name : string;
  p_price_usd : Z;
  p_stock : Z;
  p_is_active : bool
}.

Record order := {
  o_id : Z;
  o_user_id : Z;
  o_total_price : Z;
  o_status : string;
  o_updated_at : Z
}.

Record order_item := {
  oi_id : Z;
  oi_order_id : Z;
  oi_product_id : Z;
  oi_quantity : Z;
  oi_price_per_item : Z;
  oi_total_price : Z
}.

Record invoice := {
  i_id : Z;
  i_order_id : Z;
  i_plisio_invoice_id : string;
  i_currency : string;
  i_amount : Z;
  i_amount_usd : Z;
  i_status : string;
  i_invoice_url : string;
  i_qr_code_url : string;
  i_wallet_hash : string;
  i_paid_at : option Z;
  i_expires_at : Z
}.

Record purchased_product := {
  pp_user_id : Z;
  pp_product_id : Z;
  pp_order_id : Z
}.

(** The tables, the SERIAL sequences behind the id columns, and the clock
    that CURRENT_TIMESTAMP reads. [products] and [orders] are keyed by [id],
    [invoices] by [plisio_invoice_id] (UNIQUE NOT NULL). *)
Record database := {
  users : list user;
  products : gmap Z product;
  orders : gmap Z order;
  order_items : list order_item;
  invoices : gmap string invoice;
  purchased_products : list purchased_product;
  users_id_seq : Z;
  products_id_seq : Z;
  orders_id_seq : Z;
  order_items_id_seq : Z;
  invoices_id_seq : Z;
  current_timestamp : Z
}.

Definition set_users (f : list user -> list user) (d : database) : database :=
  {| users := f (users d); products := products d; orders := orders d;
     order_items := order_items d; invoices := invoices d;
     purchased_products := purchased_products d;
     users_id_seq := users_id_seq d; products_id_seq := products_id_seq d;
     orders_id_seq := orders_id_seq d; order_items_id_seq := order_items_id_seq d;
     invoices_id_seq := invoices_id_seq d;
     current_timestamp := current_timestamp d |}.

Definition set_products (f : gmap Z product -> gmap Z product) (d : database) : database :=
  {| users := users d; products := f (products d); orders := orders d;
     order_items := order_items d; invoices := invoices d;
     purchased_products := purchased_products d;
     users_id_seq := users_id_seq d; products_id_seq := products_id_seq d;
     orders_id_seq := orders_id_seq d; order_items_id_seq := order_items_id_seq d;
     invoices_id_seq := invoices_id_seq d;
     current_timestamp := current_timestamp d |}.

Definition set_orders (f : gmap Z order -> gmap Z order) (d : database) : database :=
  {| users := users d; products := products d; orders := f (orders d);
     order_items := order_items d; invoices := invoices d;
     purchased_products := purchased_products d;
     users_id_seq := users_id_seq d; products_id_seq := products_id_seq d;
     orders_id_seq := orders_id_seq d; order_items_id_seq := order_items_id_seq d;
     invoices_id_seq := invoices_id_seq d;
     current_timestamp := current_timestamp d |}.

Definition set_order_items (f : list order_item -> list order_item) (d : database) : database :=
  {| users := users d; products := products d; orders := orders d;
     order_items := f (order_items d); invoices := invoices d;
     purchased_products := purchased_products d;
     users_id_seq := users_id_seq d; products_id_seq := products_id_seq d;
     orders_id_seq := orders_id_seq d; order_items_id_seq := order_items_id_seq d;
     invoices_id_seq := invoices_id_seq d;
     current_timestamp := current_timestamp d |}.

Definition set_invoices (f : gmap string invoice -> gmap string invoice) (d : database) : database :=
  {| users := users d; products := products d; orders := orders d;
     order_items := order_items d; invoices := f (invoices d);
     purchased_products := purchased_products d;
     users_id_seq := users_id_seq d; products_id_seq := products_id_seq d;
     orders_id_seq := orders_id_seq d; order_items_id_seq := order_items_id_seq d;
     invoices_id_seq := invoices_id_seq d;
     current_timestamp := current_timestamp d |}.

(** [nextval] of a sequence: the value is consumed whether or not the
    surrounding transaction commits. *)
Definition bump_users_seq (d : database) : database :=
  {| users := users d; products := products d; orders := orders d;
     order_items := order_items d; invoices := invoices d;
     purchased_products := purchased_products d;
     users_id_seq := users_id_seq d + 1; products_id_seq := products_id_seq d;
     orders_id_seq := orders_id_seq d; order_items_id_seq := order_items_id_seq d;
     invoices_id_seq := invoices_id_seq d;
     current_timestamp := current_timestamp d |}.

Definition bump_products_seq (d : database) : database :=
  {| users := users d; products := products d; orders := orders d;
     order_items := order_items d; invoices := invoices d;
     purchased_products := purchased_products d;
     users_id_seq := users_id_seq d; products_id_seq := products_id_seq d + 1;
     orders_id_seq := orders_id_seq d; order_items_id_seq := order_items_id_seq d;
     invoices_id_seq := invoices_id_seq d;
     current_timestamp := current_timestamp d |}.

Definition bump_orders_seq (d : database) : database :=
  {| users := users d; products := products d; orders := orders d;
     order_items := order_items d; invoices := invoices d;
     purchased_products := purchased_products d;
     users_id_seq := users_id_seq d; products_id_seq := products_id_seq d;
     orders_id_seq := orders_id_seq d + 1; order_items_id_seq := order_items_id_seq d;
     invoices_id_seq := invoices_id_seq d;
     current_timestamp := current_timestamp d |}.

Definition bump_order_items_seq (d : database) : database :=
  {| users := users d; products := products d; orders := orders d;
     order_items := order_items d; invoices := invoices d;
     purchased_products := purchased_products d;
     users_id_seq := users_id_seq d; products_id_seq := products_id_seq d;
     orders_id_seq := orders_id_seq d; order_items_id_seq := order_items_id_seq d + 1;
     invoices_id_seq := invoices_id_seq d;
     current_timestamp := current_timestamp d |}.

Definition bump_invoices_seq (d : database) : database :=
  {| users := users d; products := products d; orders := orders d;
     order_items := order_items d; invoices := invoices d;
     purchased_products := purchased_products d;
     users_id_seq := users_id_seq d; products_id_seq := products_id_seq d;
     orders_id_seq := orders_id_seq d; order_items_id_seq := order_items_id_seq d;
     invoices_id_seq := invoices_id_seq d + 1;
     current_timestamp := current_timestamp d |}.

(** The clock of the database reaches [t]. *)
Definition set_current_timestamp (t : Z) (d : database) : database :=
  {| users := users d; products := products d; orders := orders d;
     order_items := order_items d; invoices := invoices d;
     purchased_products := purchased_products d;
     users_id_seq := users_id_seq d; products_id_seq := products_id_seq d;
     orders_id_seq := orders_id_seq d; order_items_id_seq := order_items_id_seq d;
     invoices_id_seq := invoices_id_seq d; current_timestamp := t |}.

(** ROLLBACK: the rows go back to the snapshot taken at BEGIN, the sequences
    keep the values they reached. *)
Definition rollback (snapshot d : database) : database :=
  {| users := users snapshot; products := products snapshot;
     orders := orders snapshot; order_items := order_items snapshot;
     invoices := invoices snapshot;
     purchased_products := purchased_products snapshot;
     users_id_seq := users_id_seq d; products_id_seq := products_id_seq d;
     orders_id_seq := orders_id_seq d; order_items_id_seq := order_items_id_seq d;
     invoices_id_seq := invoices_id_seq d;
     current_timestamp := current_timestamp d |}.

(** ** Requests as computations over the world

    The world of a request handler: the database, the payment notifications
    handed to the Telegram API (the replies of the bot to the updates it
    receives are not recorded), the ledger of stock reservations that
    reported success, and the schedule of refusals of the coming
    statements. *)

Inductive exn : Type :=
| DbError          (* the statement was refused by the database *)
| UniqueViolation  (* duplicate key value violates unique constraint *)
| TypeError        (* Cannot read properties of undefined *)
| GatewayError.    (* Failed to create Plisio invoice *)

Inductive outcome (A : Type) : Type :=
| Ok (a : A)
| Throw (e : exn).
Arguments Ok {A} a.
Arguments Throw {A} e.

Record telegram_message := {
  tm_chat : Z;
  tm_order : Z
}.

Record world := {
  w_db : database;
  w_sent : list telegram_message;
  w_reserved : list (Z * Z);
  w_refusals : list bool
}.

Definition M (A : Type) : Type := world -> outcome A * world.

Definition ret {A} (a : A) : M A := fun w => (Ok a, w).

Definition throw {A} (e : exn) : M A := fun w => (Throw e, w).

Definition bind {A B} (m : M A) (k : A -> M B) : M B :=
  fun w => match m w with
           | (Ok a, w') => k a w'
           | (Throw e, w') => (Throw e, w')
           end.

(** [try { m } catch (error) { h }] *)
Definition try_catch {A} (m : M A) (h : exn -> M A) : M A :=
  fun w => match m w with
           | (Ok a, w') => (Ok a, w')
           | (Throw e, w') => h e w'
           end.

Declare Scope m_scope.
Delimit Scope m_scope with M.
Notation "x <- m ;; k" := (bind m (fun x => k))
  (at level 100, m at next level, right associativity) : m_scope.
Notation "m ;;; k" := (bind m (fun _ => k))
  (at level 100, right associativity) : m_scope.
Open Scope m_scope.

(** [for (const x of l) { await body(x) }] *)
Fixpoint for_of {A} (l : list A) (body : A -> M unit) : M unit :=
  match l with
  | [] => ret tt
  | x :: r => body x ;;; for_of r body
  end.

Definition with_db (d : database) (w : world) : world :=
  {| w_db := d; w_sent := w_sent w; w_reserved := w_reserved w;
     w_refusals := w_refusals w |}.

Definition with_refusals (fs : list bool) (w : world) : world :=
  {| w_db := w_db w; w_sent := w_sent w; w_reserved := w_reserved w;
     w_refusals := fs |}.

(** The next statement is one the database refuses. *)
Definition refused (w : world) : bool :=
  match w_refusals w with
  | true :: _ => true
  | _ => false
  end.

(** The world once a statement has been answered, with [d] the tables it
    left. *)
Definition advance (d : database) (w : world) : world :=
  with_db d (with_refusals (tail (w_refusals w)) w).
Arguments advance : simpl never.

(** One statement sent to the database: refused if the schedule says so,
    otherwise run on the tables. *)
Definition sql {A} (stmt : database -> outcome A * database) : M A :=
  fun w =>
    if refused w then (Throw DbError, advance (w_db w) w)
    else let '(r, d) := stmt (w_db w) in (r, advance d w).

Definition sendMessage (chat order_id : Z) : M unit :=
  fun w => (Ok tt,
            {| w_db := w_db w;
               w_sent := w_sent w ++ [{| tm_chat := chat; tm_order := order_id |}];
               w_reserved := w_reserved w; w_refusals := w_refusals w |}).

Definition note_reserved (id quantity : Z) : M unit :=
  fun w => (Ok tt,
            {| w_db := w_db w; w_sent := w_sent w;
               w_reserved := w_reserved w ++ [(id, quantity)];
               w_refusals := w_refusals w |}).

(** ** [database/db.js] *)

(** *** userQueries *)

Definition userQueries_findByTelegramId (telegramId : Z) : M (option user) :=
  sql (fun d =>
         (Ok (List.find (fun u => u_telegram_id u =? telegramId) (users d)), d)).

(** [telegram_id] is UNIQUE; [last_active] DEFAULT CURRENT_TIMESTAMP. *)
Definition userQueries_create (telegram_id : Z) : M user :=
  sql (fun d =>
         let d1 := bump_users_seq d in
         if existsb (fun u => u_telegram_id u =? telegram_id) (users d)
            || existsb (fun u => u_id u =? users_id_seq d) (users d)
         then (Throw UniqueViolation, d1)
         else
           let u := {| u_id := users_id_seq d; u_telegram_id := telegram_id;
                       u_last_active := current_timestamp d |} in
           (Ok u, set_users (fun us => us ++ [u]) d1)).

Definition with_last_active (t : Z) (u : user) : user :=
  {| u_id := u_id u; u_telegram_id := u_telegram_id u; u_last_active := t |}.

(** UPDATE users SET last_active = CURRENT_TIMESTAMP WHERE telegram_id = $1 *)
Definition touch (telegramId t : Z) (us : list user) : list user :=
  map (fun u => if u_telegram_id u =? telegramId then with_last_active t u else u) us.

Definition userQueries_updateLastActive (telegramId : Z) : M unit :=
  sql (fun d => (Ok tt, set_users (touch telegramId (current_timestamp d)) d)).

(** *** productQueries *)

(** WHERE id = $1 AND is_active = true *)
Definition productQueries_getById (id : Z) : M (option product) :=
  sql (fun d =>
         (Ok (match products d !! id with
              | Some p => if p_is_active p then Some p else None
              | None => None
              end), d)).

Record productData := {
  pd_name : option string;   (* [None]: undefined, which a NOT NULL column refuses *)
  pd_price_usd : Z;
  pd_stock : option Z        (* [None]: NaN, which an INTEGER column refuses *)
}.

Definition productQueries_create (productData : productData) : M product :=
  sql (fun d =>
         let d1 := bump_products_seq d in
         match pd_name productData, pd_stock productData with
         | Some name, Some stock =>
             match products d !! products_id_seq d with
             | None =>
                 let p := {| p_id := products_id_seq d; p_name := name;
                             p_price_usd := pd_price_usd productData;
                             p_stock := stock; p_is_active := true |} in
                 (Ok p, set_products (insert (products_id_seq d) p) d1)
             | Some _ => (Throw UniqueViolation, d1)
             end
         | _, _ => (Throw DbError, d)
         end).

Definition updated_product (name : string) (price_usd stock : Z) (p : product) : product :=
  {| p_id := p_id p; p_name := name; p_price_usd := price_usd;
     p_stock := stock; p_is_active := p_is_active p |}.

(** UPDATE products SET name, description, price_usd, image_url, stock
    WHERE id = $6 RETURNING *. A stock that is NaN is refused when the
    parameters are read, whatever the id; a missing name violates NOT NULL
    only if a row is updated; an id that is not on file updates no row. *)
Definition productQueries_update (id : Z) (productData : productData) : M (option product) :=
  sql (fun d =>
         match pd_stock productData with
         | Some stock =>
             match products d !! id with
             | Some p =>
                 match pd_name productData with
                 | Some name =>
                     let p' := updated_product name (pd_price_usd productData) stock p in
                     (Ok (Some p'), set_products (insert id p') d)
                 | None => (Throw DbError, d)
                 end
             | None => (Ok None, d)
             end
         | None => (Throw DbError, d)
         end).

Definition deactivated (p : product) : product :=
  {| p_id := p_id p; p_name := p_name p; p_price_usd := p_price_usd p;
     p_stock := p_stock p; p_is_active := false |}.

Definition productQueries_delete (id : Z) : M unit :=
  sql (fun d => (Ok tt, set_products (alter deactivated id) d)).

Definition with_stock (stock : Z) (p : product) : product :=
  {| p_id := p_id p; p_name := p_name p; p_price_usd := p_price_usd p;
     p_stock := stock; p_is_active := p_is_active p |}.

(** UPDATE products SET stock = stock - $1 WHERE id = $2 AND stock >= $1;
    the result is [rowCount > 0]. The model notes in the ledger every call
    that reported success; the code keeps no such record. *)
Definition update_stock_stmt (id quantity : Z) (d : database) : outcome bool * database :=
  match products d !! id with
  | Some p =>
      if quantity <=? p_stock p
      then (Ok true, set_products (insert id (with_stock (p_stock p - quantity) p)) d)
      else (Ok false, d)
  | None => (Ok false, d)
  end.

Definition productQueries_updateStock (id quantity : Z) : M bool :=
  ok <- sql (update_stock_stmt id quantity) ;;
  (if ok : bool then note_reserved id quantity else ret tt) ;;;
  ret ok.

(** *** orderQueries *)

Record orderItem := {
  product_id : Z;
  quantity : Z;
  price_per_item : Z;
  total_price : Z
}.

(** INSERT INTO orders (user_id, total_price): status DEFAULT 'pending',
    updated_at DEFAULT CURRENT_TIMESTAMP. *)
Definition insert_order_stmt (userId totalPrice : Z) (d : database) : outcome order * database :=
  let d1 := bump_orders_seq d in
  match orders d !! orders_id_seq d with
  | None =>
      let o := {| o_id := orders_id_seq d; o_user_id := userId;
                  o_total_price := totalPrice; o_status := "pending";
                  o_updated_at := current_timestamp d |} in
      (Ok o, set_orders (insert (orders_id_seq d) o) d1)
  | Some _ => (Throw UniqueViolation, d1)
  end.

Definition insert_order_item_stmt (order_id : Z) (item : orderItem) (d : database)
  : outcome unit * database :=
  let row := {| oi_id := order_items_id_seq d; oi_order_id := order_id;
                oi_product_id := product_id item; oi_quantity := quantity item;
                oi_price_per_item := price_per_item item;
                oi_total_price := total_price item |} in
  (Ok tt, set_order_items (fun rows => rows ++ [row]) (bump_order_items_seq d)).

Definition nop_stmt (d : database) : outcome unit * database := (Ok tt, d).

(** The statements between [try {] and [}]: BEGIN, the order, its items,
    COMMIT. *)
Definition insert_order_rows (userId : Z) (items : list orderItem) (totalPrice : Z) : M order :=
  sql nop_stmt ;;;
  order <- sql (insert_order_stmt userId totalPrice) ;;
  for_of items (fun item => sql (insert_order_item_stmt (o_id order) item)) ;;;
  sql nop_stmt ;;;
  ret order.

(** [pool.connect()], then the statements above inside [try], ROLLBACK and
    rethrow in [catch]. *)
Definition orderQueries_create (userId : Z) (items : list orderItem) (totalPrice : Z) : M order :=
  sql nop_stmt ;;;
  fun w =>
    try_catch (insert_order_rows userId items totalPrice)
      (fun error w' => (Throw error, with_db (rollback (w_db w) (w_db w')) w'))
      w.

(** One element of the [json_agg] over the LEFT JOINs of [getById]: all fields
    are null when the order has no item row. *)
Record item_view := {
  iv_product_id : option Z;
  iv_product_name : option string;
  iv_quantity : option Z;
  iv_price_per_item : option Z;
  iv_total_price : option Z
}.

Record order_view := {
  ov_order : order;
  ov_telegram_id : Z;
  ov_items : list item_view
}.

Definition view_of_item (d : database) (row : order_item) : item_view :=
  {| iv_product_id := Some (oi_product_id row);
     iv_product_name := p_name <$> products d !! oi_product_id row;
     iv_quantity := Some (oi_quantity row);
     iv_price_per_item := Some (oi_price_per_item row);
     iv_total_price := Some (oi_total_price row) |}.

Definition null_item : item_view :=
  {| iv_product_id := None; iv_product_name := None; iv_quantity := None;
     iv_price_per_item := None; iv_total_price := None |}.

Definition items_of_order (d : database) (id : Z) : list item_view :=
  match List.filter (fun row => oi_order_id row =? id) (order_items d) with
  | [] => [null_item]
  | rows => map (view_of_item d) rows
  end.

Definition get_order (d : database) (id : Z) : option order_view :=
  match orders d !! id with
  | Some o =>
      match List.find (fun u => u_id u =? o_user_id o) (users d) with
      | Some u => Some {| ov_order := o; ov_telegram_id := u_telegram_id u;
                          ov_items := items_of_order d id |}
      | None => None
      end
  | None => None
  end.

Definition orderQueries_getById (id : Z) : M (option order_view) :=
  sql (fun d => (Ok (get_order d id), d)).

Definition with_order_status (status : string) (updated_at : Z) (o : order) : order :=
  {| o_id := o_id o; o_user_id := o_user_id o; o_total_price := o_total_price o;
     o_status := status; o_updated_at := updated_at |}.

(** UPDATE orders SET status = $1 WHERE id = $2 RETURNING *, with the trigger
    [update_orders_updated_at] BEFORE UPDATE setting
    [NEW.updated_at = CURRENT_TIMESTAMP] on the row. *)
Definition orderQueries_updateStatus (id : Z) (status : string) : M (option order) :=
  sql (fun d =>
         let f := with_order_status status (current_timestamp d) in
         (Ok (f <$> orders d !! id), set_orders (alter f id) d)).

(** *** invoiceQueries *)

Record invoiceData := {
  id_order_id : Z;
  id_plisio_invoice_id : string;
  id_currency : string;
  id_amount : Z;
  id_amount_usd : Z;
  id_invoice_url : string;
  id_qr_code_url : string;
  id_wallet_hash : string;
  id_expires_at : Z
}.

Definition invoiceQueries_create (invoiceData : invoiceData) : M invoice :=
  sql (fun d =>
         let d1 := bump_invoices_seq d in
         match invoices d !! id_plisio_invoice_id invoiceData with
         | None =>
             let inv := {| i_id := invoices_id_seq d;
                           i_order_id := id_order_id invoiceData;
                           i_plisio_invoice_id := id_plisio_invoice_id invoiceData;
                           i_currency := id_currency invoiceData;
                           i_amount := id_amount invoiceData;
                           i_amount_usd := id_amount_usd invoiceData;
                           i_status := "new";
                           i_invoice_url := id_invoice_url invoiceData;
                           i_qr_code_url := id_qr_code_url invoiceData;
                           i_wallet_hash := id_wallet_hash invoiceData;
                           i_paid_at := None;
                           i_expires_at := id_expires_at invoiceData |} in
             (Ok inv, set_invoices (insert (id_plisio_invoice_id invoiceData) inv) d1)
         | Some _ => (Throw UniqueViolation, d1)
         end).

Definition with_invoice_status (status : string) (paidAt : option Z) (inv : invoice) : invoice :=
  {| i_id := i_id inv; i_order_id := i_order_id inv;
     i_plisio_invoice_id := i_plisio_invoice_id inv;
     i_currency := i_currency inv; i_amount := i_amount inv;
     i_amount_usd := i_amount_usd inv; i_status := status;
     i_invoice_url := i_invoice_url inv; i_qr_code_url := i_qr_code_url inv;
     i_wallet_hash := i_wallet_hash inv; i_paid_at := paidAt;
     i_expires_at := i_expires_at inv |}.

(** UPDATE invoices SET status = $1, paid_at = $2 WHERE plisio_invoice_id = $3
    RETURNING *. The parameter is the text the driver sent for the JavaScript
    value, NULL matching no row. *)
Definition invoiceQueries_updateStatus (plisioInvoiceId : option string) (status : string)
    (paidAt : option Z) : M (option invoice) :=
  sql (fun d =>
         match plisioInvoiceId with
         | Some key =>
             (Ok (with_invoice_status status paidAt <$> invoices d !! key),
              set_invoices (alter (with_invoice_status status paidAt) key) d)
         | None => (Ok None, d)
         end).

Definition invoiceQueries_getByPlisioId (plisioInvoiceId : option string) : M (option invoice) :=
  sql (fun d => (Ok (plisioInvoiceId ≫= fun key => invoices d !! key), d)).

(** *** module.exports

    The module exports [pool], [userQueries], [productQueries], [orderQueries],
    [invoiceQueries] and [statsQueries]. The name [purchasedProductQueries],
    which [server.js] and [telegram-bot.js] destructure from it, is not among
    them: in both files it is bound to [undefined]. *)
Definition purchasedProductQueries : option (Z -> option Z -> Z -> M unit) := None.

(** [await purchasedProductQueries.create(user, product, order)] *)
Definition purchasedProductQueries_create (user_id : Z) (product : option Z) (order_id : Z) : M unit :=
  match purchasedProductQueries with
  | Some create => create user_id product order_id
  | None => throw TypeError
  end.

(** ** [services/plisio.js] *)

Record PlisioService := {
  secretKey : string
}.

(** The constructor throws when PLISIO_SECRET_KEY is missing or empty. *)
Definition PlisioService_new (PLISIO_SECRET_KEY : option string) : option PlisioService :=
  match PLISIO_SECRET_KEY with
  | Some key => if String.eqb key "" then None else Some {| secretKey := key |}
  | None => None
  end.

(** [Object.keys(data)] *)
Definition Object_keys (data : jsobj) : list string := map fst (map_to_list data).

(** [`${data[key]}`] *)
Definition template_of (data : jsobj) (key : string) : string :=
  from_option js_to_string "undefined" (data !! key).

(** The string that is signed: the fields other than [verify_hash], sorted by
    key ([Array.prototype.sort()], here the byte-wise order of strings), each
    rendered as [key=value], joined by [&]. *)
Definition sortedParams (data : jsobj) : string :=
  String.concat "&"
    (map (fun key => key +:+ "=" +:+ template_of data key)
       (merge_sort String.le
          (List.filter (fun key => negb (String.eqb key "verify_hash"))
             (Object_keys data)))).

(** [expectedSignature === receivedSignature] *)
Definition strict_eq_string (expected : string) (received : option jsval) : bool :=
  match received with
  | Some (JStr s) => String.eqb expected s
  | _ => false
  end.

Definition verifyWebhookSignature `{Runtime} (this : PlisioService) (data : jsobj)
    (receivedSignature : option jsval) : bool :=
  if String.eqb (secretKey this) "" then true
  else
    let expectedSignature := hmac_sha1_hex (secretKey this) (sortedParams data) in
    strict_eq_string expectedSignature receivedSignature.

(** The names of the properties of [Object.prototype], which every object
    literal inherits: those of the language standard and of its Annex B. *)
Definition Object_prototype : list string :=
  ["constructor"; "hasOwnProperty"; "isPrototypeOf"; "propertyIsEnumerable";
   "toLocaleString"; "toString"; "valueOf"; "__proto__"; "__defineGetter__";
   "__defineSetter__"; "__lookupGetter__"; "__lookupSetter__"].

(** What a lookup in [statusMap] can give: a string of the table, or a member
    inherited from [Object.prototype] (a function, or for [__proto__] the
    prototype itself), which is truthy. *)
Inductive statusValue : Type :=
| StatusText (s : string)
| Inherited (name : string).

(** [statusMap[plisioStatus] || 'unknown'] *)
Definition mapPlisioStatus (plisioStatus : option jsval) : statusValue :=
  let key := from_option js_to_string "undefined" plisioStatus in
  if String.eqb key "new" then StatusText "pending"
  else if String.eqb key "pending" then StatusText "pending"
  else if String.eqb key "completed" then StatusText "paid"
  else if String.eqb key "expired" then StatusText "expired"
  else if String.eqb key "cancelled" then StatusText "cancelled"
  else if String.eqb key "error" then StatusText "failed"
  else if existsb (String.eqb key) Object_prototype then Inherited key
  else StatusText "unknown".

(** The text the driver sends for a status bound to a statement parameter. *)
Definition pg_status `{Runtime} (status : statusValue) : string :=
  match status with
  | StatusText s => s
  | Inherited name => pg_text_inherited name
  end.

(** The fields of the processed webhook that the route reads (the amounts and
    confirmation counts are parsed but not used by it). *)
Record webhookData := {
  invoiceId : option jsval;
  status : statusValue;
  isPaid : bool
}.

Definition processWebhook (data : jsobj) : webhookData :=
  {| invoiceId := data !! "txn_id";
     status := mapPlisioStatus (data !! "status");
     isPaid := match data !! "status" with
               | Some (JStr s) => String.eqb s "completed"
               | _ => false
               end |}.

(** The reply of the gateway to [createInvoice]; [None] when the call fails
    (timeout, HTTP error, or a reply with status [error]). *)
Record plisioInvoice := {
  txn_id : string;
  pi_currency : string;
  pi_amount : Z;
  pi_invoice_url : string;
  pi_qr_code : string;
  pi_wallet_hash : string
}.

Definition createInvoice (reply : option plisioInvoice) : M plisioInvoice :=
  match reply with
  | Some data => ret data
  | None => throw GatewayError
  end.

(** ** [bot/telegram-bot.js] *)

Definition notifyPaymentReceived (orderId : Z) : M unit :=
  try_catch
    (order <- orderQueries_getById orderId ;;
     match order with
     | None => ret tt
     | Some order =>
         user <- userQueries_findByTelegramId (ov_telegram_id order) ;;
         match user with
         | None => ret tt
         | Some user =>
             for_of (ov_items order)
               (fun item => purchasedProductQueries_create (u_id user) (iv_product_id item) orderId) ;;;
             sendMessage (ov_telegram_id order) orderId
         end
     end)
    (fun _ => ret tt).

(** An update that the bot receives: who it is from ([ctx.from], absent for
    a channel post), and what it is. *)
Inductive update_kind : Type :=
| Command (name : string)        (* a message that starts with the command /name *)
| CallbackQuery (data : string)  (* an inline button was pressed *)
| OtherUpdate.                   (* any other message or update *)

Record update := {
  upd_from : option Z;
  upd_kind : update_kind
}.

(** [setupCommands]: the commands and the callback data that have a handler.
    The data of three of them must match [/^order_(\d+)$/],
    [/^resend_invoice_(\d+)$/] or [/^download_(\d+)$/]. *)
Definition commands : list string :=
  ["start"; "shop"; "admin"; "help"; "orders"; "downloads"; "addproduct"; "products"].

Fixpoint all_digits (s : string) : bool :=
  match s with
  | EmptyString => true
  | String c rest => match Ascii.is_nat c with Some _ => all_digits rest | None => false end
  end.

(** [data] is [prefix] followed by one or more decimal digits. *)
Fixpoint numbered (prefix data : string) : bool :=
  match prefix, data with
  | EmptyString, String _ _ => all_digits data
  | String a prefix', String b data' => Ascii.eqb a b && numbered prefix' data'
  | _, EmptyString => false
  end.

Definition has_action (data : string) : bool :=
  String.eqb data "my_orders" || String.eqb data "admin_panel"
  || numbered "order_" data || numbered "resend_invoice_" data
  || String.eqb data "my_downloads" || numbered "download_" data.

Definition has_handler (u : update) : bool :=
  match upd_kind u with
  | Command name => existsb (String.eqb name) commands
  | CallbackQuery data => has_action data
  | OtherUpdate => false
  end.

(** [setupMiddleware]: the user registration middleware ([mockMode] is
    [config.database.mockMode]); the administrator check that follows it
    sends no statement. *)
Definition bot_middleware (mockMode : bool) (from : option Z) : M unit :=
  match from with
  | Some from_id =>
      if mockMode then ret tt
      else
        try_catch
          (user <- userQueries_findByTelegramId from_id ;;
           match user with
           | None => userQueries_create from_id ;;; ret tt
           | Some _ => userQueries_updateLastActive from_id
           end)
          (fun _ => ret tt)
  | None => ret tt
  end.

(** The constructor calls [setupCommands] before [setupMiddleware], and
    Telegraf runs the handlers in the order of their registration: an update
    that a command or action handler matches ends in that handler, none of
    which calls [next], and never reaches the registration middleware. With
    [ctx.user] and [ctx.isAdmin] unset, each of these handlers replies before
    it comes to a statement. *)
Definition bot_update (mockMode : bool) (u : update) : M unit :=
  if has_handler u then ret tt else bot_middleware mockMode (upd_from u).

(** ** [server.js] *)

Inductive res_body : Type :=
| Error (message : string)
| ProductNotFound (id : Z)
| InsufficientStock (name : string)
| Success
| ProductJson (p : product)
| OrderCreated (o : order) (inv : invoice).

Record response := {
  res_status : Z;
  res_json : res_body
}.

Definition json (status : Z) (body : res_body) : response :=
  {| res_status := status; res_json := body |}.

Record Server := {
  plisio : PlisioService;
  adminIds : list Z;
  mockMode : bool
}.

(** *** POST /api/orders *)

Record requestItem := {
  item_product_id : Z;
  item_quantity : Z
}.

Record orderRequest := {
  telegram_id : option Z;
  items : option (list requestItem);   (* [None]: missing or not an array *)
  currency : option string
}.

(** The loop that validates the items and computes the total; it leaves the
    route at the first item whose product is missing, inactive or short of
    stock. *)
Fixpoint validate_items (items : list requestItem) (totalPrice : Z)
    (orderItems : list orderItem) : M (response + Z * list orderItem) :=
  match items with
  | [] => ret (inr (totalPrice, orderItems))
  | item :: rest =>
      product <- productQueries_getById (item_product_id item) ;;
      match product with
      | None => ret (inl (json 400 (ProductNotFound (item_product_id item))))
      | Some product =>
          if p_stock product <? item_quantity item
          then ret (inl (json 400 (InsufficientStock (p_name product))))
          else
            let itemTotal := p_price_usd product * item_quantity item in
            validate_items rest (totalPrice + itemTotal)
              (orderItems ++ [{| product_id := p_id product;
                                 quantity := item_quantity item;
                                 price_per_item := p_price_usd product;
                                 total_price := itemTotal |}])
      end
  end.

Definition post_api_orders (reply : option plisioInvoice) (now : Z) (body : orderRequest)
  : M response :=
  try_catch
    (match telegram_id body, items body with
     | None, _ | Some 0, _ | _, None | _, Some [] =>
         ret (json 400 (Error "Telegram ID and items are required"))
     | Some telegram_id, Some items =>
         user <- userQueries_findByTelegramId telegram_id ;;
         match user with
         | None => ret (json 404 (Error "User not found"))
         | Some user =>
             checked <- validate_items items 0 [] ;;
             match checked with
             | inl rejected => ret rejected
             | inr (totalPrice, orderItems) =>
                 order <- orderQueries_create (u_id user) orderItems totalPrice ;;
                 plisioInvoice <- createInvoice reply ;;
                 invoice <- invoiceQueries_create
                   {| id_order_id := o_id order;
                      id_plisio_invoice_id := txn_id plisioInvoice;
                      id_currency := pi_currency plisioInvoice;
                      id_amount := pi_amount plisioInvoice;
                      id_amount_usd := totalPrice;
                      id_invoice_url := pi_invoice_url plisioInvoice;
                      id_qr_code_url := pi_qr_code plisioInvoice;
                      id_wallet_hash := pi_wallet_hash plisioInvoice;
                      id_expires_at := now + 24 * 60 * 60 * 1000 |} ;;
                 for_of orderItems
                   (fun item => productQueries_updateStock (product_id item) (quantity item) ;;; ret tt) ;;;
                 ret (json 201 (OrderCreated order invoice))
             end
         end
     end)
    (fun _ => ret (json 500 (Error "Failed to create order"))).

(** *** POST /api/webhook/plisio *)

Record webhookRequest := {
  x_plisio_signature : option string;
  wr_body : jsobj
}.

(** [req.headers['x-plisio-signature'] || req.body.verify_hash] *)
Definition signature_of (req : webhookRequest) : option jsval :=
  match x_plisio_signature req with
  | Some h => if String.eqb h "" then wr_body req !! "verify_hash" else Some (JStr h)
  | None => wr_body req !! "verify_hash"
  end.

Definition post_api_webhook_plisio `{Runtime} (this : Server) (now : Z) (req : webhookRequest)
  : M response :=
  try_catch
    (if negb (verifyWebhookSignature (plisio this) (wr_body req) (signature_of req))
     then ret (json 401 (Error "Invalid signature"))
     else
       let webhookData := processWebhook (wr_body req) in
       let key := invoiceId webhookData ≫= pg_text in
       invoice <- invoiceQueries_getByPlisioId key ;;
       match invoice with
       | None => ret (json 404 (Error "Invoice not found"))
       | Some invoice =>
           invoiceQueries_updateStatus key (pg_status (status webhookData))
             (if isPaid webhookData then Some now else None) ;;;
           (if isPaid webhookData
            then
              orderQueries_updateStatus (i_order_id invoice) "paid" ;;;
              order <- orderQueries_getById (i_order_id invoice) ;;
              match order with
              | Some order =>
                  for_of (ov_items order)
                    (fun item =>
                       purchasedProductQueries_create (o_user_id (ov_order order))
                         (iv_product_id item) (i_order_id invoice))
              | None => ret tt
              end ;;;
              notifyPaymentReceived (i_order_id invoice)
            else ret tt) ;;;
           ret (json 200 Success)
       end)
    (fun _ => ret (json 500 (Error "Webhook processing failed"))).

(** *** The administrative product routes *)

Definition adminAuth (this : Server) (x_telegram_id : option Z) (next : M response) : M response :=
  match x_telegram_id with
  | Some telegramId =>
      if existsb (Z.eqb telegramId) (adminIds this) then next
      else ret (json 403 (Error "Admin access required"))
  | None => ret (json 403 (Error "Admin access required"))
  end.

(** The parsed body of a product request: [price_usd] after [parseFloat]
    (bodies whose price is not a number are outside the model), and whether
    it was sent as a string that is not empty, which is truthy even when it
    reads as 0; [stock] after [parseInt] ([None]: NaN). *)
Record productBody := {
  pb_name : option string;
  pb_price_usd : Z;
  pb_price_is_string : bool;
  pb_mega_link : option string;
  pb_stock : option Z
}.

(** [price_usd] is truthy: a string that is not empty, or a number other
    than 0. *)
Definition truthy_price (body : productBody) : bool :=
  pb_price_is_string body || negb (pb_price_usd body =? 0).

Definition truthy_string (s : option string) : bool :=
  match s with
  | Some s => negb (String.eqb s "")
  | None => false
  end.

Definition post_api_products (this : Server) (x_telegram_id : option Z) (body : productBody)
  : M response :=
  adminAuth this x_telegram_id
    (try_catch
       (if truthy_string (pb_name body) && truthy_price body
           && truthy_string (pb_mega_link body)
        then
          product <- productQueries_create
            {| pd_name := pb_name body; pd_price_usd := pb_price_usd body;
               pd_stock := Some (default 0 (pb_stock body)) |} ;;
          ret (json 201 (ProductJson product))
        else ret (json 400 (Error "Name, price, and mega link are required")))
       (fun _ => ret (json 500 (Error "Failed to create product")))).

Definition put_api_products (this : Server) (x_telegram_id : option Z) (id : Z)
    (body : productBody) : M response :=
  adminAuth this x_telegram_id
    (try_catch
       (product <- productQueries_update id
          {| pd_name := pb_name body; pd_price_usd := pb_price_usd body;
             pd_stock := pb_stock body |} ;;
        match product with
        | None => ret (json 404 (Error "Product not found"))
        | Some product => ret (json 200 (ProductJson product))
        end)
       (fun _ => ret (json 500 (Error "Failed to update product")))).

Definition delete_api_products (this : Server) (x_telegram_id : option Z) (id : Z)
  : M response :=
  adminAuth this x_telegram_id
    (try_catch
       (productQueries_delete id ;;; ret (json 200 Success))
       (fun _ => ret (json 500 (Error "Failed to delete product")))).

(** ** The system: requests served one after the other *)

Inductive event : Type :=
| PostOrders (reply : option plisioInvoice) (now : Z) (body : orderRequest)
| PostWebhook (now : Z) (req : webhookRequest)
| PostProducts (x_telegram_id : option Z) (body : productBody)
| PutProducts (x_telegram_id : option Z) (id : Z) (body : productBody)
| DeleteProducts (x_telegram_id : option Z) (id : Z)
| BotUpdate (u : update)
| Clock (t : Z).   (* the clock of the database reaches [t] *)

Definition clock_reads (t : Z) : M unit :=
  fun w => (Ok tt, with_db (set_current_timestamp t (w_db w)) w).

Definition handle `{Runtime} (this : Server) (e : event) : M (option response) :=
  match e with
  | PostOrders reply now body => r <- post_api_orders reply now body ;; ret (Some r)
  | PostWebhook now req => r <- post_api_webhook_plisio this now req ;; ret (Some r)
  | PostProducts admin body => r <- post_api_products this admin body ;; ret (Some r)
  | PutProducts admin id body => r <- put_api_products this admin id body ;; ret (Some r)
  | DeleteProducts admin id => r <- delete_api_products this admin id ;; ret (Some r)
  | BotUpdate u => bot_update (mockMode this) u ;;; ret None
  | Clock t => clock_reads t ;;; ret None
  end.

Fixpoint run `{Runtime} (this : Server) (events : list event) (w : world) : world :=
  match events with
  | [] => w
  | e :: rest => run this rest (snd (handle this e w))
  end.

(** The same webhook delivered once per element of [stamps]: for each
    delivery the reading of the server's clock and that of the database's. *)
Definition deliveries (req : webhookRequest) (stamps : list (Z * Z)) : list event :=
  flat_map (fun stamp => [Clock (snd stamp); PostWebhook (fst stamp) req]) stamps.

Definition replay `{Runtime} (this : Server) (req : webhookRequest) (stamps : list (Z * Z))
    (w : world) : world :=
  run this (deliveries req stamps) w.

(** ** Properties of states and runs *)

(** No statement of the coming [n] is refused. *)
Definition accepted (n : nat) (w : world) : Prop :=
  forall i, (i < n)%nat -> w_refusals w !! i <> Some true.

Definition stock_nonneg (d : database) : Prop :=
  forall id p, products d !! id = Some p -> 0 <= p_stock p.

(** The quantity the ledger records for a product. *)
Definition reserved_of (id : Z) (ledger : list (Z * Z)) : Z :=
  foldr (fun entry acc => if fst entry =? id then snd entry + acc else acc) 0 ledger.

(** The rows of two databases agree (the sequences may differ). *)
Definition same_rows (d d' : database) : Prop :=
  users d' = users d /\ products d' = products d /\ orders d' = orders d /\
  order_items d' = order_items d /\ invoices d' = invoices d /\
  purchased_products d' = purchased_products d.

(** An item passes the validation loop of POST /api/orders on [d]. *)
Definition item_passes (d : database) (item : requestItem) : Prop :=
  exists p, products d !! item_product_id item = Some p /\
            p_is_active p = true /\ item_quantity item <= p_stock p.

(** The order item computed for a request item from its product. *)
Definition priced (d : database) (item : requestItem) (line : orderItem) : Prop :=
  exists p, products d !! item_product_id item = Some p /\
            p_is_active p = true /\ item_quantity item <= p_stock p /\
            line = {| product_id := p_id p; quantity := item_quantity item;
                      price_per_item := p_price_usd p;
                      total_price := p_price_usd p * item_quantity item |}.

(** The row stored for an order item of order [order_id]. *)
Definition row_of (order_id : Z) (row : order_item) (line : orderItem) : Prop :=
  oi_order_id row = order_id /\ oi_product_id row = product_id line /\
  oi_quantity row = quantity line /\ oi_price_per_item row = price_per_item line /\
  oi_total_price row = total_price line.

Definition sum_total (lines : list orderItem) : Z :=
  foldr (fun line acc => total_price line + acc) 0 lines.

(** The number of grants recorded for an order item. *)
Definition grants_for (d : database) (user_id product order_id : Z) : nat :=
  length (List.filter
            (fun g => (pp_user_id g =? user_id) && (pp_product_id g =? product)
                      && (pp_order_id g =? order_id))
            (purchased_products d)).

(** ** A concrete shop, for the examples

    The stand-ins for the services outside the repository: the examples only
    need that equal messages have equal digests and that the digests below
    differ, so the digest is replaced by the key followed by the message. *)

Definition stub_hmac (key msg : string) : string := key +:+ ":" +:+ msg.

Definition stub_pg_text (v : jsval) : option string :=
  match v with
  | JNull => None
  | JStr s => Some s
  | JBool _ => Some (js_to_string v)
  | JArr _ => Some ("{" +:+ js_to_string v +:+ "}")
  end.

(** The source text of a built-in function, and [{}] for the prototype
    object itself, which the driver sends as JSON. *)
Definition stub_pg_text_inherited (name : string) : string :=
  if String.eqb name "__proto__" then "{}"
  else "function " +:+ (if String.eqb name "constructor" then "Object" else name)
       +:+ "() { [native code] }".

Definition stub_runtime : Runtime :=
  {| hmac_sha1_hex := stub_hmac; pg_text := stub_pg_text;
     pg_text_string := fun s => eq_refl;
     pg_text_inherited := stub_pg_text_inherited |}.

Definition shop : Server :=
  {| plisio := {| secretKey := "secret" |}; adminIds := [42]; mockMode := false |}.

Definition course : product :=
  {| p_id := 1; p_name := "Premium Digital Course"; p_price_usd := 9999;
     p_stock := 5; p_is_active := true |}.

Definition ebooks : product :=
  {| p_id := 2; p_name := "E-book Bundle"; p_price_usd := 2999;
     p_stock := 50; p_is_active := true |}.

Definition alice : user := {| u_id := 1; u_telegram_id := 1001; u_last_active := 0 |}.

(** A shop with two products and one registered customer, nothing sold yet. *)
Definition fresh_db : database :=
  {| users := [alice];
     products := <[1 := course]> (<[2 := ebooks]> ∅);
     orders := ∅; order_items := []; invoices := ∅; purchased_products := [];
     users_id_seq := 2; products_id_seq := 3; orders_id_seq := 1;
     order_items_id_seq := 1; invoices_id_seq := 1; current_timestamp := 0 |}.

Definition world_of (d : database) (refusals : list bool) : world :=
  {| w_db := d; w_sent := []; w_reserved := []; w_refusals := refusals |}.

Definition gateway_reply : plisioInvoice :=
  {| txn_id := "inv1"; pi_currency := "BTC"; pi_amount := 150000;
     pi_invoice_url := "https://plisio.net/invoice/inv1";
     pi_qr_code := "qr"; pi_wallet_hash := "wallet" |}.

(** Alice orders one course at time 0. *)
Definition one_course : orderRequest :=
  {| telegram_id := Some 1001;
     items := Some [{| item_product_id := 1; item_quantity := 1 |}];
     currency := None |}.

(** The shop after that order: order 1 pending, invoice inv1 new. *)
Definition ordered_db : database :=
  w_db (snd (post_api_orders (Some gateway_reply) 0 one_course (world_of fresh_db []))).

(** The world after the requests of the examples: that order was the only
    request, and nothing was refused. *)
Definition ordered_world : world :=
  @run stub_runtime shop [PostOrders (Some gateway_reply) 0 one_course] (world_of fresh_db []).

(** A webhook for inv1 with the given status, signed by the gateway. *)
Definition fields_of (status : jsval) : jsobj :=
  <["txn_id" := JStr "inv1"]> (<["status" := status]> (<["amount" := JStr "99.99"]> ∅)).

Definition signed (fields : jsobj) : webhookRequest :=
  {| x_plisio_signature := None;
     wr_body := <["verify_hash" := JStr (stub_hmac "secret" (sortedParams fields))]> fields |}.

Definition completed_webhook : webhookRequest := signed (fields_of (JStr "completed")).

Definition expired_webhook : webhookRequest := signed (fields_of (JStr "expired")).

(** The completed webhook with its status field replaced by the one-element
    array [["completed"]], the signature left as it was. *)
Definition altered_webhook : webhookRequest :=
  {| x_plisio_signature := None;
     wr_body := <["status" := JArr [JStr "completed"]]> (wr_body completed_webhook) |}.

(** ** Relations between the world before and after a computation *)

(** Whatever [m] returns or throws, the worlds before and after are related
    by [R]. *)
Definition keeps (R : world -> world -> Prop) {A} (m : M A) : Prop :=
  forall w r w', m w = (r, w') -> R w w'.

(** Whatever [m] returns satisfies [P]. *)
Definition returns {A} (P : A -> Prop) (m : M A) : Prop :=
  forall w a w', m w = (Ok a, w') -> P a.

(** Nothing but the schedule of refusals moved. *)
Definition untouched (w w' : world) : Prop :=
  w_db w' = w_db w /\ w_sent w' = w_sent w /\ w_reserved w' = w_reserved w.

(** The products and the ledger of reservations are as before. *)
Definition same_stock (w w' : world) : Prop :=
  products (w_db w') = products (w_db w) /\ w_reserved w' = w_reserved w.

(** The orders and their items are as before. *)
Definition same_orders (w w' : world) : Prop :=
  orders (w_db w') = orders (w_db w) /\ order_items (w_db w') = order_items (w_db w).

(** Everything but the orders, their items and the sequences is as before. *)
Definition only_orders (w w' : world) : Prop :=
  users (w_db w') = users (w_db w) /\ products (w_db w') = products (w_db w) /\
  invoices (w_db w') = invoices (w_db w) /\
  purchased_products (w_db w') = purchased_products (w_db w) /\
  w_sent w' = w_sent w /\ w_reserved w' = w_reserved w.

(** Everything but the products and the ledger of reservations is as
    before. *)
Definition only_stock (w w' : world) : Prop :=
  users (w_db w') = users (w_db w) /\ orders (w_db w') = orders (w_db w) /\
  order_items (w_db w') = order_items (w_db w) /\
  invoices (w_db w') = invoices (w_db w) /\
  purchased_products (w_db w') = purchased_products (w_db w) /\
  w_sent w' = w_sent w.

(** Between [w] and [w'] an order was committed and an invoice stored for
    it. *)
Definition order_committed (w w' : world) : Prop :=
  exists o inv,
    orders (w_db w) !! o_id o = None /\ orders (w_db w') !! o_id o = Some o /\
    invoices (w_db w) !! i_plisio_invoice_id inv = None /\
    invoices (w_db w') !! i_plisio_invoice_id inv = Some inv /\
    i_order_id inv = o_id o.

(** The invoices are as before. *)
Definition same_invoices (w w' : world) : Prop :=
  invoices (w_db w') = invoices (w_db w).

(** No grant was recorded and no message was sent. *)
Definition same_grants (w w' : world) : Prop :=
  purchased_products (w_db w') = purchased_products (w_db w) /\ w_sent w' = w_sent w.

(** Stock and ledger of product [id] account for an initial stock [S]. *)
Definition accounts_for (S id : Z) (w : world) : Prop :=
  exists p, products (w_db w) !! id = Some p /\ 0 <= p_stock p /\
            reserved_of id (w_reserved w) + p_stock p = S.

(** The tables after the invoice under [key] was marked paid at [now] and the
    order [order_id] was marked paid. *)
Definition reconciled (key : string) (order_id now : Z) (d : database) : database :=
  set_orders (alter (with_order_status "paid" (current_timestamp d)) order_id)
    (set_invoices (alter (with_invoice_status "paid" (Some now)) key) d).

(** If no stock was negative before, none is after. *)
Definition stays_nonneg (w w' : world) : Prop :=
  stock_nonneg (w_db w) -> stock_nonneg (w_db w').

(** If stock and ledger of [id] accounted for [S] before, they do after. *)
Definition stays_accounted (S id : Z) (w w' : world) : Prop :=
  accounts_for S id w -> accounts_for S id w'.

(** The foreign keys of [schema.sql], as far as the webhook route follows
    them: every invoice on file belongs to an order on file whose customer is
    on file. *)
Definition linked (d : database) : Prop :=
  forall key inv, invoices d !! key = Some inv ->
    exists o u, orders d !! i_order_id inv = Some o /\
                List.find (fun u => u_id u =? o_user_id o) (users d) = Some u.

(** If the references resolved before, they do after. *)
Definition stays_linked (w w' : world) : Prop :=
  linked (w_db w) -> linked (w_db w').

(** No customer left, and every invoice and every order kept its
    reference. *)
Definition relinked (w w' : world) : Prop :=
  (forall id, is_Some (List.find (fun u => u_id u =? id) (users (w_db w))) ->
              is_Some (List.find (fun u => u_id u =? id) (users (w_db w')))) /\
  (forall key, i_order_id <$> invoices (w_db w') !! key
               = i_order_id <$> invoices (w_db w) !! key) /\
  (forall id, o_user_id <$> orders (w_db w') !! id = o_user_id <$> orders (w_db w) !! id).

(** An administrative write that carries no negative stock. *)
Definition benign (e : event) : Prop :=
  match e with
  | PostProducts _ body | PutProducts _ _ body =>
      forall stock, pb_stock body = Some stock -> 0 <= stock
  | _ => True
  end.

(** ** Renderings and joined strings *)

(** A value with its type forgotten: the string it renders to. *)
Definition render (v : jsval) : jsval := JStr (js_to_string v).

(** No two messages have the same digest under [key]. *)
Definition collision_free `{Runtime} (key : string) : Prop :=
  forall m1 m2, hmac_sha1_hex key m1 = hmac_sha1_hex key m2 -> m1 = m2.

(** What [String.concat sep (before ++ x :: after)] puts before and after
    [x]. *)
Fixpoint joined_before (sep : string) (before : list string) : string :=
  match before with
  | [] => ""
  | x :: rest => x +:+ sep +:+ joined_before sep rest
  end.

Definition joined_after (sep : string) (after : list string) : string :=
  match after with
  | [] => ""
  | _ :: _ => sep +:+ String.concat sep after
  end.

(** ** The properties under examination, as predicates on one run *)

(** What an order view shows of the prices: the total of the order and, per
    item, product, quantity, unit price and line total. *)
Definition prices_of (view : order_view)
  : Z * list (option Z * option Z * option Z * option Z) :=
  (o_total_price (ov_order view),
   map (fun item => (iv_product_id item, iv_quantity item,
                     iv_price_per_item item, iv_total_price item))
     (ov_items view)).



(** A webhook leaves an invoice that is already paid as it is. *)
Definition forward_only `{Runtime} (this : Server) (now : Z)
    (req : webhookRequest) (w : world) : Prop :=
  forall key inv, invoices (w_db w) !! key = Some inv -> i_status inv = "paid" ->
    invoices (w_db (snd (post_api_webhook_plisio this now req w))) !! key = Some inv.

(** [altered] is [original] with one field other than the signature given
    another value. *)
Definition one_field_altered (original altered : webhookRequest) : Prop :=
  x_plisio_signature altered = x_plisio_signature original /\
  exists field value,
    field <> "verify_hash" /\ wr_body original !! field <> Some value /\
    wr_body altered = <[field := value]> (wr_body original).

(** Either every requested item was reserved, or no row was persisted. *)
Definition reservation_atomic (reply : option plisioInvoice) (now : Z)
    (body : orderRequest) (w : world) : Prop :=
  forall its r w', items body = Some its ->
    post_api_orders reply now body w = (r, w') ->
    w_reserved w'
    = w_reserved w ++ map (fun item => (item_product_id item, item_quantity item)) its \/
    same_rows (w_db w) (w_db w').

(** A request with an item of zero or negative quantity is answered 400
    and persists nothing. *)
Definition quantity_validated (reply : option plisioInvoice) (now : Z)
    (body : orderRequest) (w : world) : Prop :=
  forall its, items body = Some its ->
    Exists (fun item => item_quantity item <= 0) its ->
    forall r w', post_api_orders reply now body w = (r, w') ->
      (exists rejected, r = Ok rejected /\ res_status rejected = 400) /\
      same_rows (w_db w) (w_db w').

(** ** More of the concrete shop *)

Definition order1 : order :=
  {| o_id := 1; o_user_id := 1; o_total_price := 9999; o_status := "pending";
     o_updated_at := 0 |}.

Definition invoice1 : invoice :=
  {| i_id := 1; i_order_id := 1; i_plisio_invoice_id := "inv1"; i_currency := "BTC";
     i_amount := 150000; i_amount_usd := 9999; i_status := "new";
     i_invoice_url := "https://plisio.net/invoice/inv1"; i_qr_code_url := "qr";
     i_wallet_hash := "wallet"; i_paid_at := None; i_expires_at := 86400000 |}.

(** The world after the completed webhook was delivered at time 7. *)
Definition paid_world : world :=
  snd (@post_api_webhook_plisio stub_runtime shop 7 completed_webhook
         (world_of ordered_db [])).

(** Alice orders the course twice in one request, three copies each time,
    with five in stock. *)
Definition three_and_three : orderRequest :=
  {| telegram_id := Some 1001;
     items := Some [{| item_product_id := 1; item_quantity := 3 |};
                    {| item_product_id := 1; item_quantity := 3 |}];
     currency := None |}.

(** Alice orders zero copies of the course. *)
Definition zero_courses : orderRequest :=
  {| telegram_id := Some 1001;
     items := Some [{| item_product_id := 1; item_quantity := 0 |}];
     currency := None |}.

(** Alice orders four e-book bundles and minus one course. *)
Definition minus_one_course : orderRequest :=
  {| telegram_id := Some 1001;
     items := Some [{| item_product_id := 2; item_quantity := 4 |};
                    {| item_product_id := 1; item_quantity := -1 |}];
     currency := None |}.

(** Alice orders one course and one copy of a product that does not exist. *)
Definition course_and_unknown : orderRequest :=
  {| telegram_id := Some 1001;
     items := Some [{| item_product_id := 1; item_quantity := 1 |};
                    {| item_product_id := 99; item_quantity := 1 |}];
     currency := None |}.

(** The administrator (id 42) sets the stock of the course to -5, and doubles
    its price. *)
Definition negative_stock : productBody :=
  {| pb_name := Some "Premium Digital Course"; pb_price_usd := 9999;
     pb_price_is_string := false; pb_mega_link := None; pb_stock := Some (-5) |}.

Definition doubled_price : productBody :=
  {| pb_name := Some "Premium Digital Course"; pb_price_usd := 19998;
     pb_price_is_string := false; pb_mega_link := None; pb_stock := Some 4 |}.

(** ** More of [database/db.js] *)

(** The element of [items] that [orderQueries.getById] reads back for an item
    handed to [orderQueries.create]: the product name comes from the products
    on file. *)
Definition view_of_line (d : database) (line : orderItem) : item_view :=
  {| iv_product_id := Some (product_id line);
     iv_product_name := p_name <$> products d !! product_id line;
     iv_quantity := Some (quantity line);
     iv_price_per_item := Some (price_per_item line);
     iv_total_price := Some (total_price line) |}.

(** *** statsQueries

    [getTotalStats]: one row over all orders,
    COUNT(CASE WHEN status = 'paid' THEN 1 END),
    COUNT(CASE WHEN status = 'pending' THEN 1 END),
    COALESCE(SUM(CASE WHEN status = 'paid' THEN total_price END), 0),
    COUNT(DISTINCT user_id). ([getDailyEarnings] groups by [created_at],
    which the model leaves out.) *)
Record totalStats := {
  total_paid_orders : nat;
  pending_orders : nat;
  total_revenue : Z;
  unique_customers : nat
}.

Definition all_orders (d : database) : list order := map snd (map_to_list (orders d)).

Definition count_status (status : string) (os : list order) : nat :=
  length (List.filter (fun o => String.eqb (o_status o) status) os).

Definition sum_paid (os : list order) : Z :=
  foldr (fun o acc => if String.eqb (o_status o) "paid" then o_total_price o + acc else acc)
    0 os.

Definition count_distinct (ids : list Z) : nat := size (list_to_set ids : gset Z).

Definition total_stats (d : database) : totalStats :=
  {| total_paid_orders := count_status "paid" (all_orders d);
     pending_orders := count_status "pending" (all_orders d);
     total_revenue := sum_paid (all_orders d);
     unique_customers := count_distinct (map o_user_id (all_orders d)) |}.

Definition statsQueries_getTotalStats : M totalStats :=
  sql (fun d => (Ok (total_stats d), d)).

(** *** GET /api/products/:id *)

Definition get_api_product (id : Z) : M response :=
  try_catch
    (product <- productQueries_getById id ;;
     match product with
     | None => ret (json 404 (Error "Product not found"))
     | Some product => ret (json 200 (ProductJson product))
     end)
    (fun _ => ret (json 500 (Error "Failed to fetch product"))).

(** The administrator adds a third product, without saying how many are in
    stock. *)
Definition software_license : productBody :=
  {| pb_name := Some "Software License"; pb_price_usd := 19999;
     pb_price_is_string := false;
     pb_mega_link := Some "https://mega.nz/file/example3"; pb_stock := None |}.

(** The completed webhook with its amount lowered, the signature left as it
    was. *)
Definition cheaper_webhook : webhookRequest :=
  {| x_plisio_signature := x_plisio_signature completed_webhook;
     wr_body := <["amount" := JStr "0.01"]> (wr_body completed_webhook) |}.

(** *** The administrator check on the raw request

    [adminAuth] reads the header [x-telegram-id] as a string and parses
    ADMIN_TELEGRAM_IDS on every request:
    [process.env.ADMIN_TELEGRAM_IDS?.split(',').map(id => parseInt(id)) || []],
    then [!telegramId || !adminIds.includes(parseInt(telegramId))].
    [parseInt] is the built-in; its result is an integer or NaN, here [None]
    (integers beyond 2^53, which it rounds, are outside the model).
    [Array.prototype.includes] compares with SameValueZero, under which NaN
    is equal to NaN. *)

(** [s.split(',')] *)
Fixpoint split_commas (s : string) : list string :=
  match s with
  | EmptyString => [""]
  | String c rest =>
      if Ascii.eqb c "," then "" :: split_commas rest
      else match split_commas rest with
           | first :: others => String c first :: others
           | [] => [String c ""]
           end
  end.

Definition adminIds_of (parseInt : string -> option Z) (ADMIN_TELEGRAM_IDS : option string)
  : list (option Z) :=
  match ADMIN_TELEGRAM_IDS with
  | Some ids => map parseInt (split_commas ids)
  | None => []
  end.

(** [l.includes(x)] on numbers *)
Definition includes (l : list (option Z)) (x : option Z) : bool :=
  existsb (fun y => bool_decide (y = x)) l.

Definition adminAuth_request (parseInt : string -> option Z)
    (ADMIN_TELEGRAM_IDS : option string) (x_telegram_id : option string)
    (next : M response) : M response :=
  match x_telegram_id with
  | Some telegramId =>
      if String.eqb telegramId ""
         || negb (includes (adminIds_of parseInt ADMIN_TELEGRAM_IDS) (parseInt telegramId))
      then ret (json 403 (Error "Admin access required"))
      else next
  | None => ret (json 403 (Error "Admin access required"))
  end.

(** A stand-in for [parseInt] in the examples: the number written by the
    leading decimal digits, NaN when there is none. *)
Fixpoint leading_digits (s : string) (acc : option Z) : option Z :=
  match s with
  | String c rest =>
      match Ascii.is_nat c with
      | Some d => leading_digits rest (Some (10 * default 0 acc + Z.of_nat d))
      | None => acc
      end
  | EmptyString => acc
  end.

Definition stub_parseInt (s : string) : option Z := leading_digits s None.

(** ** What no request undoes *)

(** The same user rows, but for [last_active]. *)
Definition same_users (us us' : list user) : Prop :=
  Forall2 (fun u u' => u_id u' = u_id u /\ u_telegram_id u' = u_telegram_id u) us us'.

(** Between [w] and [w']: the users were at most extended, and those on file
    changed in [last_active] at most; the order items were at most extended;
    every order on file is still on file with its id, customer and total,
    its status the same or turned to paid; every invoice on file is still on
    file with every column but [status] and [paid_at]; and no product row
    was removed. *)
Definition kept (w w' : world) : Prop :=
  (exists old more, users (w_db w') = old ++ more /\ same_users (users (w_db w)) old) /\
  (exists more, order_items (w_db w') = order_items (w_db w) ++ more) /\
  (forall id o, orders (w_db w) !! id = Some o ->
     exists o', orders (w_db w') !! id = Some o' /\
                o_id o' = o_id o /\ o_user_id o' = o_user_id o /\
                o_total_price o' = o_total_price o /\
                (o_status o' = o_status o \/ o_status o' = "paid")) /\
  (forall key inv, invoices (w_db w) !! key = Some inv ->
     exists inv', invoices (w_db w') !! key = Some inv' /\
                  with_invoice_status (i_status inv) (i_paid_at inv) inv' = inv) /\
  (forall id, is_Some (products (w_db w) !! id) -> is_Some (products (w_db w') !! id)).

(** A request that reaches neither the order route nor a product route. *)
Definition moves_no_stock (e : event) : Prop :=
  match e with
  | PostWebhook _ _ | BotUpdate _ | Clock _ => True
  | _ => False
  end.

(** Everything but the invoices (and the sequences) is as before. *)
Definition only_invoices (w w' : world) : Prop :=
  users (w_db w') = users (w_db w) /\ products (w_db w') = products (w_db w) /\
  orders (w_db w') = orders (w_db w) /\ order_items (w_db w') = order_items (w_db w) /\
  purchased_products (w_db w') = purchased_products (w_db w) /\
  w_sent w' = w_sent w /\ w_reserved w' = w_reserved w.


(** A product row is stored under its own id. *)
Definition keyed (d : database) : Prop :=
  forall id p, products d !! id = Some p -> p_id p = id.

(** ** Ids and sequences *)

(** Every id on file is below the next value of its sequence: order ids (also
    where order items refer to them), product ids and user ids. *)
Definition ahead (d : database) : Prop :=
  (forall id o, orders d !! id = Some o -> id < orders_id_seq d) /\
  (forall id p, products d !! id = Some p -> id < products_id_seq d) /\
  Forall (fun u => u_id u < users_id_seq d) (users d) /\
  Forall (fun row => oi_order_id row < orders_id_seq d) (order_items d).

(** No sequence went back. *)
Definition seqs_le (d d' : database) : Prop :=
  orders_id_seq d <= orders_id_seq d' /\ products_id_seq d <= products_id_seq d' /\
  users_id_seq d <= users_id_seq d'.

Definition stays_ahead (w w' : world) : Prop :=
  seqs_le (w_db w) (w_db w') /\ (ahead (w_db w) -> ahead (w_db w')).

(** Every row of a keyed table is stored under its own key. *)
Definition keyed_rows (d : database) : Prop :=
  keyed d /\
  (forall id o, orders d !! id = Some o -> o_id o = id) /\
  (forall key inv, invoices d !! key = Some inv -> i_plisio_invoice_id inv = key).

Definition stays_keyed (w w' : world) : Prop :=
  keyed_rows (w_db w) -> keyed_rows (w_db w').

(** ** Schedules, ledger and further examples *)

(** One of the coming [n] statements is refused. *)
Definition refused_within (n : nat) (w : world) : bool :=
  existsb (fun refusal => refusal) (take n (w_refusals w)).

(** The world of the examples after the order, the database clock reading
    5. *)
Definition ordered_world_at_5 : world :=
  @run stub_runtime shop [PostOrders (Some gateway_reply) 0 one_course; Clock 5]
    (world_of fresh_db []).

(** A request other than an administrative product update. *)
Definition no_product_update (e : event) : Prop :=
  match e with
  | PutProducts _ _ _ => False
  | _ => True
  end.

(** No order request asks for a negative quantity. *)
Definition nonneg_quantities (e : event) : Prop :=
  match e with
  | PostOrders _ _ body =>
      forall its, items body = Some its -> Forall (fun item => 0 <= item_quantity item) its
  | _ => True
  end.

(** The quantities of an order request satisfy [P]. *)
Definition quantities (P : Z -> Prop) (e : event) : Prop :=
  match e with
  | PostOrders _ _ body =>
      forall its, items body = Some its -> Forall (fun item => P (item_quantity item)) its
  | _ => True
  end.

(** Between [w] and [w'] the ledger gained entries whose quantities satisfy
    [P], and lost none. *)
Definition ledger_grew (P : Z -> Prop) (w w' : world) : Prop :=
  exists added, w_reserved w' = w_reserved w ++ added /\
                Forall (fun entry => P (snd entry)) added.

(** The ledger is as before. *)
Definition same_ledger (w w' : world) : Prop := w_reserved w' = w_reserved w.

(** Alice orders minus five courses, and then ten. *)
Definition minus_five_courses : orderRequest :=
  {| telegram_id := Some 1001;
     items := Some [{| item_product_id := 1; item_quantity := -5 |}];
     currency := None |}.

Definition ten_courses : orderRequest :=
  {| telegram_id := Some 1001;
     items := Some [{| item_product_id := 1; item_quantity := 10 |}];
     currency := None |}.

Definition second_reply : plisioInvoice :=
  {| txn_id := "inv2"; pi_currency := "BTC"; pi_amount := 1500000;
     pi_invoice_url := "https://plisio.net/invoice/inv2";
     pi_qr_code := "qr"; pi_wallet_hash := "wallet" |}.

(** A plain text message from the given Telegram id, and the command /start
    from it. *)
Definition plain_message (from_id : Z) : update :=
  {| upd_from := Some from_id; upd_kind := OtherUpdate |}.

Definition start_command (from_id : Z) : update :=
  {| upd_from := Some from_id; upd_kind := Command "start" |}.

(** * Lemmas *)

(** ** The computations *)

Lemma accepted_S n w : accepted (S n) w -> refused w = false.
Proof.
  intros H. specialize (H 0%nat ltac:(lia)). unfold refused.
  destruct (w_refusals w) as [|[] fs]; simpl in *; congruence.
Qed.

Lemma sql_accepted {A} (stmt : database -> outcome A * database) n w :
  accepted (S n) w ->
  sql stmt w = (fst (stmt (w_db w)), advance (snd (stmt (w_db w))) w).
Proof.
  intros Hacc. unfold sql. rewrite (accepted_S n w Hacc).
  destruct (stmt (w_db w)); reflexivity.
Qed.

Lemma accepted_advance n w d : accepted (S n) w -> accepted n (advance d w).
Proof.
  intros H i Hi. unfold advance. simpl. specialize (H (S i) ltac:(lia)).
  destruct (w_refusals w); simpl in *; [rewrite lookup_nil; congruence | exact H].
Qed.

Lemma accepted_nil n w : w_refusals w = [] -> accepted n w.
Proof. intros E i _. rewrite E, lookup_nil. congruence. Qed.

Lemma w_db_advance d w : w_db (advance d w) = d.
Proof. reflexivity. Qed.

Lemma w_sent_advance d w : w_sent (advance d w) = w_sent w.
Proof. reflexivity. Qed.

Lemma w_reserved_advance d w : w_reserved (advance d w) = w_reserved w.
Proof. reflexivity. Qed.

Lemma w_refusals_advance d w : w_refusals (advance d w) = tail (w_refusals w).
Proof. reflexivity. Qed.

Lemma tail_drop {A} n (l : list A) : tail (drop n l) = drop (S n) l.
Proof.
  revert l. induction n as [|n IH]; intros [|x l]; simpl; auto.
Qed.

Lemma tail_drop_comm {A} n (l : list A) : drop n (tail l) = drop (S n) l.
Proof. destruct l; simpl; [apply drop_nil | reflexivity]. Qed.

Lemma bind_sql_run {A B} (stmt : database -> outcome A * database) (k : A -> M B) w :
  refused w = false ->
  bind (sql stmt) k w
  = match fst (stmt (w_db w)) with
    | Ok a => k a (advance (snd (stmt (w_db w))) w)
    | Throw e => (Throw e, advance (snd (stmt (w_db w))) w)
    end.
Proof.
  intros E. unfold bind, sql. rewrite E. destruct (stmt (w_db w)) as [[a|e] d]; reflexivity.
Qed.

Lemma bind_sql_refused {A B} (stmt : database -> outcome A * database) (k : A -> M B) w :
  refused w = true -> bind (sql stmt) k w = (Throw DbError, advance (w_db w) w).
Proof. intros E. unfold bind, sql. rewrite E. reflexivity. Qed.

Lemma refused_advance d w :
  refused (advance d w) = match w_refusals w !! 1%nat with Some true => true | _ => false end.
Proof. unfold refused, advance. simpl. destruct (w_refusals w) as [|? [|[] ?]]; reflexivity. Qed.

Lemma bind_assoc {A B C} (m : M A) (k : A -> M B) (k2 : B -> M C) w :
  bind (bind m k) k2 w = bind m (fun a => bind (k a) k2) w.
Proof. unfold bind. destruct (m w) as [[a|e] w1]; reflexivity. Qed.


Section Keeps.
Context (R : world -> world -> Prop).
Context (R_refl : forall w, R w w).
Context (R_trans : forall w1 w2 w3, R w1 w2 -> R w2 w3 -> R w1 w3).

Lemma keeps_ret {A} (a : A) : keeps R (ret a).
Proof. intros w r w' E. inversion E. subst. apply R_refl. Qed.

Lemma keeps_throw {A} e : keeps R (@throw A e).
Proof. intros w r w' E. inversion E. subst. apply R_refl. Qed.

Lemma keeps_bind {A B} (m : M A) (k : A -> M B) :
  keeps R m -> (forall a, keeps R (k a)) -> keeps R (bind m k).
Proof.
  intros Hm Hk w r w' E. unfold bind in E.
  destruct (m w) as [[a|e] w1] eqn:Em.
  - eapply R_trans; [eapply Hm, Em | eapply Hk, E].
  - inversion E. subst. eapply Hm, Em.
Qed.

Lemma keeps_try_catch {A} (m : M A) h :
  keeps R m -> (forall e, keeps R (h e)) -> keeps R (try_catch m h).
Proof.
  intros Hm Hh w r w' E. unfold try_catch in E.
  destruct (m w) as [[a|e] w1] eqn:Em.
  - inversion E. subst. eapply Hm, Em.
  - eapply R_trans; [eapply Hm, Em | eapply Hh, E].
Qed.

Lemma keeps_for_of {A} (l : list A) body :
  (forall x, keeps R (body x)) -> keeps R (for_of l body).
Proof.
  intros Hb. induction l as [|x l IH]; simpl.
  - apply keeps_ret.
  - apply keeps_bind; [apply Hb | intros _; apply IH].
Qed.

(** A statement keeps [R] when a refusal does and its run on the tables
    does. *)
Lemma keeps_sql {A} (stmt : database -> outcome A * database) :
  (forall w, R w (advance (w_db w) w)) ->
  (forall w, R w (advance (snd (stmt (w_db w))) w)) ->
  keeps R (sql stmt).
Proof.
  intros Href Hrun w r w' E. unfold sql in E.
  destruct (refused w).
  - inversion E. subst. apply Href.
  - specialize (Hrun w). destruct (stmt (w_db w)) as [r0 d].
    inversion E. subst. exact Hrun.
Qed.
End Keeps.

Lemma keeps_weaken (R1 R2 : world -> world -> Prop) {A} (m : M A) :
  (forall w w', R1 w w' -> R2 w w') -> keeps R1 m -> keeps R2 m.
Proof. intros H Hm w r w' E. apply H. eapply Hm, E. Qed.

Lemma keeps_bind_returns (R : world -> world -> Prop) {A B} (P : A -> Prop)
    (m : M A) (k : A -> M B) :
  (forall w1 w2 w3, R w1 w2 -> R w2 w3 -> R w1 w3) ->
  keeps R m -> returns P m -> (forall a, P a -> keeps R (k a)) -> keeps R (bind m k).
Proof.
  intros R_trans Hm HP Hk w r w' E. unfold bind in E.
  destruct (m w) as [[a|e] w1] eqn:Em.
  - eapply R_trans; [eapply Hm, Em | eapply Hk, E]. eapply HP, Em.
  - inversion E. subst. eapply Hm, Em.
Qed.

Lemma returns_sql {A} (P : A -> Prop) (stmt : database -> outcome A * database) :
  (forall d a d', stmt d = (Ok a, d') -> P a) -> returns P (sql stmt).
Proof.
  intros H w a w' E. unfold sql in E.
  destruct (refused w); try discriminate;
    destruct (stmt (w_db w)) as [r d] eqn:Es; inversion E; subst; eapply H, Es.
Qed.

(** ** The relations are preorders *)

Lemma untouched_refl w : untouched w w.
Proof. repeat split. Qed.

Lemma untouched_trans w1 w2 w3 : untouched w1 w2 -> untouched w2 w3 -> untouched w1 w3.
Proof. unfold untouched. intros (?&?&?) (?&?&?). repeat split; congruence. Qed.

Lemma same_stock_refl w : same_stock w w.
Proof. split; reflexivity. Qed.

Lemma same_stock_trans w1 w2 w3 : same_stock w1 w2 -> same_stock w2 w3 -> same_stock w1 w3.
Proof. unfold same_stock. intros [? ?] [? ?]. split; congruence. Qed.

Lemma same_orders_refl w : same_orders w w.
Proof. split; reflexivity. Qed.

Lemma same_orders_trans w1 w2 w3 : same_orders w1 w2 -> same_orders w2 w3 -> same_orders w1 w3.
Proof. unfold same_orders. intros [? ?] [? ?]. split; congruence. Qed.

Lemma same_grants_refl w : same_grants w w.
Proof. split; reflexivity. Qed.

Lemma same_grants_trans w1 w2 w3 : same_grants w1 w2 -> same_grants w2 w3 -> same_grants w1 w3.
Proof. unfold same_grants. intros [? ?] [? ?]. split; congruence. Qed.

Lemma only_orders_refl w : only_orders w w.
Proof. repeat split. Qed.

Lemma only_orders_trans w1 w2 w3 : only_orders w1 w2 -> only_orders w2 w3 -> only_orders w1 w3.
Proof.
  unfold only_orders. intros (?&?&?&?&?&?) (?&?&?&?&?&?). repeat split; congruence.
Qed.

Lemma untouched_only_orders w w' : untouched w w' -> only_orders w w'.
Proof. intros (E & ? & ?). unfold only_orders. rewrite E. auto 10. Qed.

Lemma only_stock_refl w : only_stock w w.
Proof. repeat split. Qed.

Lemma only_stock_trans w1 w2 w3 : only_stock w1 w2 -> only_stock w2 w3 -> only_stock w1 w3.
Proof.
  unfold only_stock. intros (?&?&?&?&?&?) (?&?&?&?&?&?). repeat split; congruence.
Qed.

Lemma only_orders_same_stock w w' : only_orders w w' -> same_stock w w'.
Proof. intros (_ & ? & _ & _ & _ & ?). split; auto. Qed.

Lemma same_invoices_refl w : same_invoices w w.
Proof. reflexivity. Qed.

Lemma same_invoices_trans w1 w2 w3 :
  same_invoices w1 w2 -> same_invoices w2 w3 -> same_invoices w1 w3.
Proof. unfold same_invoices. congruence. Qed.

Lemma untouched_same_invoices w w' : untouched w w' -> same_invoices w w'.
Proof. intros (E & _ & _). unfold same_invoices. rewrite E. auto. Qed.

Lemma untouched_same_stock w w' : untouched w w' -> same_stock w w'.
Proof. intros (E & _ & ?). split; [rewrite E|]; auto. Qed.

Lemma untouched_same_orders w w' : untouched w w' -> same_orders w w'.
Proof. intros (E & _ & ?). split; rewrite E; auto. Qed.

Lemma untouched_same_grants w w' : untouched w w' -> same_grants w w'.
Proof. intros (E & ? & ?). split; [rewrite E|]; auto. Qed.

(** ** Decomposing a computation along its syntax *)

Create HintDb queries.
#[local] Hint Unfold userQueries_findByTelegramId userQueries_create
  userQueries_updateLastActive productQueries_getById productQueries_create productQueries_update
  productQueries_delete orderQueries_getById orderQueries_updateStatus
  invoiceQueries_create invoiceQueries_updateStatus invoiceQueries_getByPlisioId
  createInvoice : queries.

Ltac keeps_structure refl trans :=
  repeat (intros;
          lazymatch goal with
          | |- keeps _ (ret _) => apply (keeps_ret _ refl)
          | |- keeps _ (throw _) => apply (keeps_throw _ refl)
          | |- keeps _ (purchasedProductQueries_create _ _ _) => apply (keeps_throw _ refl)
          | |- keeps _ (bind _ _) => apply (keeps_bind _ trans)
          | |- keeps _ (try_catch _ _) => apply (keeps_try_catch _ trans)
          | |- keeps _ (for_of _ _) => apply (keeps_for_of _ refl trans)
          | |- keeps _ (sql _) => apply keeps_sql
          | |- keeps _ (let _ := _ in _) => cbv zeta
          | |- keeps _ (match ?x with _ => _ end) => destruct x
          | |- _ => fail
          end).

Ltac keeps_walk refl trans :=
  repeat (progress (autounfold with queries; keeps_structure refl trans)).

Ltac rows_done :=
  intros; unfold advance; simpl;
  repeat match goal with
         | |- context [match ?x with _ => _ end] => destruct x; simpl
         end;
  repeat split; auto.

(** One accepted statement. *)
Ltac sql_step :=
  match goal with
  | Hacc : accepted (S ?n) ?w |- context [sql ?stmt ?w] =>
      rewrite (sql_accepted stmt n w Hacc);
      apply (accepted_advance n w (snd (stmt (w_db w)))) in Hacc;
      cbn beta iota delta [fst snd] in Hacc |- *;
      rewrite ?w_db_advance in Hacc |- *
  end.

(** ** What the webhook route leaves alone, whatever is refused *)

Lemma getById_items_nonempty d id ov : get_order d id = Some ov -> ov_items ov <> [].
Proof.
  unfold get_order. intros E.
  destruct (orders d !! id) as [o|]; [|discriminate].
  destruct (List.find _ (users d)); [|discriminate].
  inversion E. subst. simpl. unfold items_of_order.
  destruct (List.filter _ (order_items d)); simpl; discriminate.
Qed.

Lemma grants_loop_throws (items : list item_view) user_id order_id w :
  items <> [] ->
  for_of items (fun item => purchasedProductQueries_create user_id (iv_product_id item) order_id) w
  = (Throw TypeError, w).
Proof. destruct items; [congruence | reflexivity]. Qed.

Lemma notifyPaymentReceived_untouched orderId : keeps untouched (notifyPaymentReceived orderId).
Proof.
  unfold notifyPaymentReceived.
  apply (keeps_try_catch _ untouched_trans); [|intros; apply (keeps_ret _ untouched_refl)].
  apply (keeps_bind_returns _ (fun ov => forall o, ov = Some o -> ov_items o <> []) _ _ untouched_trans).
  - keeps_walk untouched_refl untouched_trans; unfold untouched; rows_done.
  - apply returns_sql. intros d a d' E o ->. inversion E. subst.
    eapply getById_items_nonempty; eauto.
  - intros [ov|] Hov; [|apply (keeps_ret _ untouched_refl)].
    apply (keeps_bind _ untouched_trans).
    + keeps_walk untouched_refl untouched_trans; unfold untouched; rows_done.
    + intros [u|]; [|apply (keeps_ret _ untouched_refl)].
      intros w r w' E. unfold bind in E.
      rewrite grants_loop_throws in E by auto. inversion E. apply untouched_refl.
Qed.

(** The part of the webhook route that follows the update of the order:
    reading the order back, the grants, the notification. *)
Lemma after_order_update_untouched (order_id : Z) :
  keeps untouched
    (order <- orderQueries_getById order_id ;;
     match order with
     | Some order =>
         for_of (ov_items order)
           (fun item =>
              purchasedProductQueries_create (o_user_id (ov_order order))
                (iv_product_id item) order_id)
     | None => ret tt
     end ;;;
     notifyPaymentReceived order_id).
Proof.
  keeps_walk untouched_refl untouched_trans;
    try (unfold untouched; rows_done; fail).
  all: intros; apply notifyPaymentReceived_untouched.
Qed.

Lemma refused_lookup w : refused w = true <-> w_refusals w !! 0%nat = Some true.
Proof.
  unfold refused. destruct (w_refusals w) as [|[] fs]; simpl; split; congruence.
Qed.

Lemma lookup_refusals_advance d w i :
  w_refusals (advance d w) !! i = w_refusals w !! S i.
Proof. unfold advance. simpl. destruct (w_refusals w); [rewrite lookup_nil|]; reflexivity. Qed.

Lemma isPaid_completed body :
  isPaid (processWebhook body) = true <-> body !! "status" = Some (JStr "completed").
Proof.
  unfold processWebhook. simpl. split.
  - destruct (body !! "status") as [[| |s|]|]; try discriminate.
    intros E. apply String.eqb_eq in E. congruence.
  - intros ->. reflexivity.
Qed.

Lemma mapPlisioStatus_completed :
  mapPlisioStatus (Some (JStr "completed")) = StatusText "paid".
Proof. reflexivity. Qed.

Lemma get_order_reconciled d key id now o u :
  orders d !! id = Some o ->
  List.find (fun u => u_id u =? o_user_id o) (users d) = Some u ->
  exists ov, get_order (reconciled key id now d) id = Some ov.
Proof.
  intros Ho Hu. unfold get_order, reconciled. simpl.
  rewrite lookup_alter_eq, Ho. simpl. rewrite Hu. eauto.
Qed.

Lemma tails_drop4 {A} (l : list A) : tail (tail (tail (tail l))) = drop 4 l.
Proof. destruct l as [|? [|? [|? [|? ?]]]]; reflexivity. Qed.

Lemma txn_id_resolves `{Runtime} (body : jsobj) key :
  body !! "txn_id" = Some (JStr key) -> (body !! "txn_id") ≫= pg_text = Some key.
Proof. intros ->. cbn. apply pg_text_string. Qed.

Section Webhook.
Context `{Runtime}.
Variables (this : Server) (now : Z) (req : webhookRequest).

Lemma webhook_same_grants : keeps same_grants (post_api_webhook_plisio this now req).
Proof.
  unfold post_api_webhook_plisio.
  keeps_walk same_grants_refl same_grants_trans;
    try (unfold same_grants; rows_done; fail).
  all: intros; eapply keeps_weaken;
    [apply untouched_same_grants | apply notifyPaymentReceived_untouched].
Qed.

Lemma webhook_same_stock : keeps same_stock (post_api_webhook_plisio this now req).
Proof.
  unfold post_api_webhook_plisio.
  keeps_walk same_stock_refl same_stock_trans;
    try (unfold same_stock; rows_done; fail).
  all: intros; eapply keeps_weaken;
    [apply untouched_same_stock | apply notifyPaymentReceived_untouched].
Qed.

(** A payload whose signature does not verify is answered 401 with the
    world as it was. *)
Lemma webhook_rejected w :
  verifyWebhookSignature (plisio this) (wr_body req) (signature_of req) = false ->
  post_api_webhook_plisio this now req w = (Ok (json 401 (Error "Invalid signature")), w).
Proof. intros E. unfold post_api_webhook_plisio, try_catch. rewrite E. reflexivity. Qed.

Lemma webhook_same_invoices_after (paid : bool) (order_id : Z) :
  keeps same_invoices
    ((if paid
      then
        orderQueries_updateStatus order_id "paid" ;;;
        order <- orderQueries_getById order_id ;;
        match order with
        | Some order =>
            for_of (ov_items order)
              (fun item =>
                 purchasedProductQueries_create (o_user_id (ov_order order))
                   (iv_product_id item) order_id)
        | None => ret tt
        end ;;;
        notifyPaymentReceived order_id
      else ret tt) ;;;
     ret (json 200 Success)).
Proof.
  keeps_walk same_invoices_refl same_invoices_trans;
    try (unfold same_invoices; rows_done; fail).
  all: intros; eapply keeps_weaken;
    [apply untouched_same_invoices | apply notifyPaymentReceived_untouched].
Qed.

(** A verified payload for a known invoice, the lookup and the update
    accepted: the invoice row is overwritten with the mapped status, and
    with the time of the request as [paid_at] if the payload is completed,
    null otherwise; a payload that is not completed is answered 200. *)
Lemma webhook_overwrites w key inv r w' :
  verifyWebhookSignature (plisio this) (wr_body req) (signature_of req) = true ->
  (wr_body req !! "txn_id") ≫= pg_text = Some key ->
  invoices (w_db w) !! key = Some inv ->
  accepted 2 w ->
  post_api_webhook_plisio this now req w = (r, w') ->
  let data := processWebhook (wr_body req) in
  invoices (w_db w')
  = <[key := with_invoice_status (pg_status (status data))
               (if isPaid data then Some now else None) inv]> (invoices (w_db w)) /\
  (isPaid data = false -> r = Ok (json 200 Success)).
Proof.
  intros Hv Hk Hinv Hacc E data.
  unfold post_api_webhook_plisio, try_catch in E. rewrite Hv in E.
  cbn [negb] in E. cbv zeta in E. fold data in E.
  change (invoiceId data) with (wr_body req !! "txn_id") in E. rewrite Hk in E.
  unfold invoiceQueries_getByPlisioId in E.
  rewrite bind_sql_run in E by (eapply accepted_S; eauto).
  cbn [fst snd mbind option_bind] in E. rewrite Hinv in E.
  apply (accepted_advance 1 w (w_db w)) in Hacc.
  unfold invoiceQueries_updateStatus in E.
  rewrite bind_sql_run in E by (eapply accepted_S; eauto).
  cbn [fst snd] in E. rewrite w_db_advance in E.
  match type of E with
  | context [bind ?m ?k ?w0] =>
      pose proof (webhook_same_invoices_after (isPaid data) (i_order_id inv) w0) as Hrest;
      destruct (bind m k w0) as [[a|e] w1] eqn:Erest
  end.
  - specialize (Hrest _ _ eq_refl). unfold same_invoices in Hrest.
    rewrite w_db_advance in Hrest. simpl in Hrest. inversion E. subst r w'.
    rewrite Hrest. split; [apply alter_alt_Some, Hinv|].
    intros Hp. rewrite Hp in Erest. unfold bind, ret in Erest. inversion Erest. reflexivity.
  - specialize (Hrest _ _ eq_refl). unfold same_invoices in Hrest.
    rewrite w_db_advance in Hrest. simpl in Hrest. inversion E. subst r w'.
    rewrite Hrest. split; [apply alter_alt_Some, Hinv|].
    intros Hp. rewrite Hp in Erest. unfold bind, ret in Erest. inversion Erest.
Qed.

(** The update of the order refused after the update of the invoice was
    accepted: the answer is 500 and the invoice stays paid. *)
Lemma webhook_order_update_refused w key inv :
  verifyWebhookSignature (plisio this) (wr_body req) (signature_of req) = true ->
  wr_body req !! "status" = Some (JStr "completed") ->
  (wr_body req !! "txn_id") ≫= pg_text = Some key ->
  invoices (w_db w) !! key = Some inv ->
  accepted 2 w ->
  w_refusals w !! 2%nat = Some true ->
  exists w',
    post_api_webhook_plisio this now req w
    = (Ok (json 500 (Error "Webhook processing failed")), w') /\
    w_db w' = set_invoices (alter (with_invoice_status "paid" (Some now)) key) (w_db w).
Proof.
  intros Hv Hs Hk Hinv Hacc Href.
  unfold post_api_webhook_plisio, try_catch. rewrite Hv.
  cbn [negb]. cbv zeta. unfold processWebhook. cbn [invoiceId status isPaid].
  rewrite Hs, Hk, mapPlisioStatus_completed. cbn [String.eqb Ascii.eqb Bool.eqb pg_status].
  unfold invoiceQueries_getByPlisioId.
  rewrite bind_sql_run by (eapply accepted_S; eauto).
  cbn [fst snd mbind option_bind]. rewrite Hinv.
  apply (accepted_advance 1 w (w_db w)) in Hacc.
  unfold invoiceQueries_updateStatus.
  rewrite bind_sql_run by (eapply accepted_S; eauto).
  cbn [fst snd]. rewrite w_db_advance.
  rewrite bind_assoc. unfold orderQueries_updateStatus.
  rewrite bind_sql_refused.
  - eexists. split; [reflexivity|]. reflexivity.
  - apply refused_lookup. rewrite !lookup_refusals_advance. exact Href.
Qed.

(** A completed payload answered 200: the lookup and both updates were
    accepted, whatever else was refused. *)
Lemma webhook_success_applied w key inv r w' :
  verifyWebhookSignature (plisio this) (wr_body req) (signature_of req) = true ->
  wr_body req !! "status" = Some (JStr "completed") ->
  (wr_body req !! "txn_id") ≫= pg_text = Some key ->
  invoices (w_db w) !! key = Some inv ->
  post_api_webhook_plisio this now req w = (Ok r, w') ->
  res_status r = 200 ->
  w_db w' = reconciled key (i_order_id inv) now (w_db w).
Proof.
  intros Hv Hs Hk Hinv E H200.
  unfold post_api_webhook_plisio, try_catch in E. rewrite Hv in E.
  cbn [negb] in E. cbv zeta in E. unfold processWebhook in E.
  cbn [invoiceId status isPaid] in E.
  rewrite Hs, Hk, mapPlisioStatus_completed in E.
  cbn [String.eqb Ascii.eqb Bool.eqb pg_status] in E.
  unfold invoiceQueries_getByPlisioId in E.
  destruct (refused w) eqn:R1.
  { rewrite bind_sql_refused in E by exact R1. inversion E. subst. discriminate. }
  rewrite bind_sql_run in E by exact R1.
  cbn [fst snd mbind option_bind] in E. rewrite Hinv in E.
  unfold invoiceQueries_updateStatus in E.
  destruct (refused (advance (w_db w) w)) eqn:R2.
  { rewrite bind_sql_refused in E by exact R2. inversion E. subst. discriminate. }
  rewrite bind_sql_run in E by exact R2.
  cbn [fst snd] in E. rewrite w_db_advance in E.
  rewrite bind_assoc in E. unfold orderQueries_updateStatus in E.
  match type of E with
  | context [bind (sql ?stmt) ?k ?w0] => destruct (refused w0) eqn:R3
  end.
  { rewrite bind_sql_refused in E by exact R3. inversion E. subst. discriminate. }
  rewrite bind_sql_run in E by exact R3.
  cbn [fst snd] in E. rewrite w_db_advance in E.
  match type of E with
  | context [bind ?m ?k ?w0] =>
      assert (Hrest : keeps untouched (bind m k))
        by (apply (keeps_bind _ untouched_trans);
            [apply after_order_update_untouched
            | intros; apply (keeps_ret _ untouched_refl)]);
      destruct (bind m k w0) as [[a|e] w1] eqn:Erest;
      apply Hrest in Erest; destruct Erest as (Hdb & _)
  end.
  - inversion E. subst. rewrite Hdb. reflexivity.
  - inversion E. subst. discriminate.
Qed.

(** A verified completed payload for a known invoice whose order is on
    file, when the next four statements are accepted: both updates are
    applied, the first grant throws, the answer is 500. *)
Lemma webhook_completed w key inv o u :
  verifyWebhookSignature (plisio this) (wr_body req) (signature_of req) = true ->
  wr_body req !! "status" = Some (JStr "completed") ->
  (wr_body req !! "txn_id") ≫= pg_text = Some key ->
  invoices (w_db w) !! key = Some inv ->
  orders (w_db w) !! i_order_id inv = Some o ->
  List.find (fun u => u_id u =? o_user_id o) (users (w_db w)) = Some u ->
  accepted 4 w ->
  exists w',
    post_api_webhook_plisio this now req w
    = (Ok (json 500 (Error "Webhook processing failed")), w') /\
    w_db w' = reconciled key (i_order_id inv) now (w_db w) /\
    w_sent w' = w_sent w /\ w_reserved w' = w_reserved w /\
    w_refusals w' = drop 4 (w_refusals w).
Proof.
  intros Hv Hs Hk Hinv Ho Hu Hacc.
  unfold post_api_webhook_plisio, try_catch, bind. rewrite Hv. simpl.
  rewrite Hs, Hk. simpl.
  unfold invoiceQueries_getByPlisioId. sql_step.
  cbn [mbind option_bind]. rewrite Hinv.
  unfold invoiceQueries_updateStatus. sql_step.
  unfold orderQueries_updateStatus. sql_step.
  unfold orderQueries_getById. sql_step.
  rewrite ?mapPlisioStatus_completed. cbn [pg_status].
  match goal with
  | |- context [get_order ?d _] => change d with (reconciled key (i_order_id inv) now (w_db w))
  end.
  destruct (get_order_reconciled (w_db w) key (i_order_id inv) now o u Ho Hu) as [ov Hov].
  rewrite Hov, grants_loop_throws by (eapply getById_items_nonempty; eauto).
  eexists. split; [reflexivity|].
  repeat split. unfold advance. simpl. apply tails_drop4.
Qed.
End Webhook.

(** ** Replaying a completed webhook *)





Section Replay.
Context `{Runtime}.
Variables (this : Server) (req : webhookRequest) (key : string).
Hypothesis verified :
  verifyWebhookSignature (plisio this) (wr_body req) (signature_of req) = true.
Hypothesis completed : wr_body req !! "status" = Some (JStr "completed").
Hypothesis resolves : (wr_body req !! "txn_id") ≫= pg_text = Some key.


End Replay.

(** ** POST /api/orders: the validation loop *)

Lemma validate_items_untouched items : forall totalPrice orderItems,
  keeps untouched (validate_items items totalPrice orderItems).
Proof.
  induction items as [|item items IH]; intros; simpl.
  - apply (keeps_ret _ untouched_refl).
  - keeps_walk untouched_refl untouched_trans;
      try (unfold untouched; rows_done; fail).
    apply IH.
Qed.

Lemma sum_total_app l1 l2 : sum_total (l1 ++ l2) = sum_total l1 + sum_total l2.
Proof. unfold sum_total. induction l1; simpl; lia. Qed.

(** When the loop runs to its end, every item passed and was priced from the
    product on file. *)
Lemma validate_items_passed items : forall totalPrice orderItems w total lines w',
  validate_items items totalPrice orderItems w = (Ok (inr (total, lines)), w') ->
  exists new, Forall2 (priced (w_db w)) items new /\
              lines = orderItems ++ new /\ total = totalPrice + sum_total new.
Proof.
  induction items as [|item items IH]; intros totalPrice orderItems w total lines w' E.
  - inversion E. subst. exists []. rewrite app_nil_r. repeat split; [constructor | simpl; lia].
  - simpl in E. unfold productQueries_getById in E.
    destruct (refused w) eqn:R; [rewrite bind_sql_refused in E by exact R; discriminate|].
    rewrite bind_sql_run in E by exact R. cbn [fst snd] in E.
    destruct (products (w_db w) !! item_product_id item) as [p|] eqn:Ep;
      [|inversion E].
    destruct (p_is_active p) eqn:Ea; [|inversion E].
    destruct (p_stock p <? item_quantity item) eqn:Es; [inversion E|].
    apply IH in E. destruct E as (new & HF & Hl & Ht).
    rewrite w_db_advance in HF.
    eexists (_ :: new). split; [|split].
    + constructor; [|exact HF]. exists p. repeat split; auto. lia.
    + rewrite Hl, <- app_assoc. reflexivity.
    + rewrite Ht. simpl. lia.
Qed.

Lemma priced_passes d item line : priced d item line -> item_passes d item.
Proof. intros (p & ? & ? & ? & _). exists p. auto. Qed.

Lemma validate_items_all_pass items totalPrice orderItems w checked w' :
  validate_items items totalPrice orderItems w = (Ok (inr checked), w') ->
  Forall (item_passes (w_db w)) items.
Proof.
  destruct checked as [total lines]. intros E.
  apply validate_items_passed in E. destruct E as (new & HF & _).
  induction HF; constructor; eauto using priced_passes.
Qed.

(** The loop runs to its end when every item passes and the reads are
    accepted. *)
Lemma validate_items_accepted items : forall totalPrice orderItems w,
  Forall (item_passes (w_db w)) items ->
  accepted (length items) w ->
  exists total lines w',
    validate_items items totalPrice orderItems w = (Ok (inr (total, lines)), w') /\
    untouched w w' /\ w_refusals w' = drop (length items) (w_refusals w).
Proof.
  induction items as [|item items IH]; intros totalPrice orderItems w HF Hacc.
  - do 3 eexists. split; [reflexivity|]. split; [apply untouched_refl | reflexivity].
  - inversion HF as [|? ? (p & Ep & Ea & Es) HF']. subst.
    simpl validate_items. unfold productQueries_getById.
    rewrite bind_sql_run by (eapply accepted_S; eauto). cbn [fst snd].
    rewrite Ep, Ea. replace (p_stock p <? item_quantity item) with false by lia.
    edestruct (IH (totalPrice + p_price_usd p * item_quantity item)
                 (orderItems ++ [{| product_id := p_id p; quantity := item_quantity item;
                                    price_per_item := p_price_usd p;
                                    total_price := p_price_usd p * item_quantity item |}])
                 (advance (w_db w) w)) as (total & lines & w' & E & Hu & Hr).
    + rewrite w_db_advance. exact HF'.
    + apply accepted_advance. exact Hacc.
    + exists total, lines, w'. split; [exact E|]. split.
      * destruct Hu as (? & ? & ?). repeat split; auto.
      * rewrite Hr, w_refusals_advance. simpl. apply tail_drop_comm.
Qed.

(** ** [orderQueries.create] *)

Lemma insert_items_only_orders order_id items :
  keeps only_orders
    (for_of items (fun item => sql (insert_order_item_stmt order_id item))).
Proof.
  keeps_walk only_orders_refl only_orders_trans; unfold only_orders; rows_done.
Qed.

(** The loop over the items appends rows, one per item when it completes, and
    leaves the orders alone. *)
Lemma insert_items_rows order_id items : forall w r w',
  for_of items (fun item => sql (insert_order_item_stmt order_id item)) w = (r, w') ->
  orders (w_db w') = orders (w_db w) /\
  exists rows, order_items (w_db w') = order_items (w_db w) ++ rows /\
               (forall u, r = Ok u -> Forall2 (row_of order_id) rows items).
Proof.
  induction items as [|item items IH]; intros w r w' E.
  - inversion E. subst. split; [reflexivity|]. exists []. rewrite app_nil_r.
    split; [reflexivity | constructor].
  - cbn [for_of] in E.
    destruct (refused w) eqn:R.
    + rewrite bind_sql_refused in E by exact R. inversion E. subst.
      split; [reflexivity|]. exists []. rewrite app_nil_r. split; [reflexivity|].
      intros; discriminate.
    + rewrite bind_sql_run in E by exact R. cbn [fst snd insert_order_item_stmt] in E.
      apply IH in E. rewrite w_db_advance in E. cbn [orders order_items set_order_items] in E.
      destruct E as (Ho & rows & Hr & HF). split; [exact Ho|].
      eexists (_ :: rows). rewrite Hr, <- app_assoc. split; [reflexivity|].
      intros u Hu. constructor; [|eauto]. repeat split.
Qed.

Lemma insert_order_rows_only_orders userId items totalPrice :
  keeps only_orders (insert_order_rows userId items totalPrice).
Proof.
  unfold insert_order_rows.
  keeps_walk only_orders_refl only_orders_trans;
    unfold only_orders, insert_order_stmt; rows_done.
Qed.

(** The transaction body, when it completes. *)
Lemma insert_order_rows_done userId items totalPrice w order w' :
  insert_order_rows userId items totalPrice w = (Ok order, w') ->
  order = {| o_id := orders_id_seq (w_db w); o_user_id := userId;
             o_total_price := totalPrice; o_status := "pending";
             o_updated_at := current_timestamp (w_db w) |} /\
  orders (w_db w) !! o_id order = None /\
  orders (w_db w') = <[o_id order := order]> (orders (w_db w)) /\
  exists rows, order_items (w_db w') = order_items (w_db w) ++ rows /\
               Forall2 (row_of (o_id order)) rows items.
Proof.
  unfold insert_order_rows. intros E.
  destruct (refused w) eqn:R1; [rewrite bind_sql_refused in E by exact R1; discriminate|].
  rewrite bind_sql_run in E by exact R1. cbn [fst snd nop_stmt] in E.
  match type of E with
  | context [bind (sql ?stmt) ?k ?w0] => destruct (refused w0) eqn:R2
  end; [rewrite bind_sql_refused in E by exact R2; discriminate|].
  rewrite bind_sql_run in E by exact R2. rewrite w_db_advance in E.
  unfold insert_order_stmt in E.
  destruct (orders (w_db w) !! orders_id_seq (w_db w)) eqn:Efresh;
    cbn [fst snd] in E; [discriminate|].
  unfold bind at 1 in E.
  match type of E with
  | context [for_of ?l ?b ?w0] => destruct (for_of l b w0) as [[u|e] w1] eqn:Eloop
  end; [|discriminate].
  apply insert_items_rows in Eloop. rewrite w_db_advance in Eloop.
  cbn [orders order_items set_orders bump_orders_seq] in Eloop.
  destruct Eloop as (Ho & rows & Hr & HF).
  destruct (refused w1) eqn:R3; [rewrite bind_sql_refused in E by exact R3; discriminate|].
  rewrite bind_sql_run in E by exact R3. cbn [fst snd nop_stmt ret] in E.
  inversion E. subst order w'. rewrite w_db_advance. cbn [o_id].
  repeat split; auto. exists rows. split; [exact Hr | eapply HF; eauto].
Qed.

(** [orderQueries.create] either commits the order and all its items or
    leaves every row as it was. *)
Lemma orderQueries_create_spec userId items totalPrice w r w' :
  orderQueries_create userId items totalPrice w = (r, w') ->
  only_orders w w' /\
  match r with
  | Ok order =>
      order = {| o_id := orders_id_seq (w_db w); o_user_id := userId;
                 o_total_price := totalPrice; o_status := "pending";
                 o_updated_at := current_timestamp (w_db w) |} /\
      orders (w_db w) !! o_id order = None /\
      orders (w_db w') = <[o_id order := order]> (orders (w_db w)) /\
      exists rows, order_items (w_db w') = order_items (w_db w) ++ rows /\
                   Forall2 (row_of (o_id order)) rows items
  | Throw _ =>
      orders (w_db w') = orders (w_db w) /\ order_items (w_db w') = order_items (w_db w)
  end.
Proof.
  unfold orderQueries_create. intros E.
  destruct (refused w) eqn:R1.
  { rewrite bind_sql_refused in E by exact R1. inversion E. subst.
    split; [|split]; try reflexivity. unfold only_orders. rows_done. }
  rewrite bind_sql_run in E by exact R1. cbn [fst snd nop_stmt] in E.
  unfold try_catch in E. rewrite w_db_advance in E.
  destruct (insert_order_rows userId items totalPrice (advance (w_db w) w))
    as [[order|e] w1] eqn:Erows.
  - inversion E. subst r w'.
    pose proof (insert_order_rows_only_orders _ _ _ _ _ _ Erows) as Hframe.
    apply insert_order_rows_done in Erows. rewrite w_db_advance in Erows.
    split; [exact Hframe | exact Erows].
  - inversion E. subst r w'.
    pose proof (insert_order_rows_only_orders _ _ _ _ _ _ Erows) as Hframe.
    destruct Hframe as (_ & _ & _ & _ & Hs & Hl).
    split; [|split]; try reflexivity.
    unfold only_orders. cbn. rewrite Hs, Hl. repeat split.
Qed.

Lemma insert_items_accepted order_id items : forall w,
  accepted (length items) w ->
  exists w',
    for_of items (fun item => sql (insert_order_item_stmt order_id item)) w = (Ok tt, w') /\
    w_refusals w' = drop (length items) (w_refusals w).
Proof.
  induction items as [|item items IH]; intros w Hacc.
  - eexists. split; reflexivity.
  - cbn [for_of]. rewrite bind_sql_run by (eapply accepted_S; eauto).
    cbn [fst snd insert_order_item_stmt].
    match goal with
    | |- context [advance ?d w] => destruct (IH (advance d w)) as (w' & E & Hr)
    end.
    + apply accepted_advance. exact Hacc.
    + exists w'. split; [exact E|]. rewrite Hr, w_refusals_advance. apply tail_drop_comm.
Qed.

(** With a fresh order id and no refusal the transaction commits. *)
Lemma orderQueries_create_accepted userId items totalPrice w :
  orders (w_db w) !! orders_id_seq (w_db w) = None ->
  accepted (4 + length items) w ->
  exists order w',
    orderQueries_create userId items totalPrice w = (Ok order, w') /\
    w_refusals w' = drop (4 + length items) (w_refusals w).
Proof.
  intros Hfresh Hacc. unfold orderQueries_create.
  rewrite bind_sql_run by (eapply accepted_S; eauto). cbn [fst snd nop_stmt].
  apply (accepted_advance _ w (w_db w)) in Hacc.
  unfold try_catch, insert_order_rows. rewrite w_db_advance.
  rewrite bind_sql_run by (eapply accepted_S; eauto). cbn [fst snd nop_stmt].
  apply (accepted_advance _ _ (w_db w)) in Hacc. rewrite w_db_advance.
  rewrite bind_sql_run by (eapply accepted_S; eauto). rewrite w_db_advance.
  unfold insert_order_stmt at 1 2. rewrite Hfresh. cbn [fst snd].
  match goal with
  | H : accepted _ ?w0 |- context [advance ?d ?w0] =>
      apply (accepted_advance _ w0 d) in H
  end.
  match goal with
  | |- context [for_of ?l ?b] =>
      match goal with
      | H : accepted _ ?w0 |- _ =>
          destruct (insert_items_accepted
                      (o_id {| o_id := orders_id_seq (w_db w); o_user_id := userId;
                               o_total_price := totalPrice; o_status := "pending";
                               o_updated_at := current_timestamp (w_db w) |})
                      items w0) as (w1 & Eloop & Hr1);
          [intros i Hi; apply H; lia|]
      end
  end.
  unfold bind at 1. rewrite Eloop.
  assert (Hacc1 : accepted 1 w1).
  { intros i Hi. rewrite Hr1, lookup_drop, !lookup_refusals_advance.
    replace (length items + i)%nat with (length items)%nat by lia.
    specialize (Hacc (length items) ltac:(lia)).
    rewrite !lookup_refusals_advance in Hacc. exact Hacc. }
  rewrite bind_sql_run by (eapply accepted_S; eauto). cbn [fst snd nop_stmt ret].
  do 2 eexists. split; [reflexivity|].
  rewrite w_refusals_advance, Hr1, !w_refusals_advance.
  rewrite tail_drop. rewrite <- !tail_drop_comm.
  rewrite tails_drop4, drop_drop. reflexivity.
Qed.

(** ** The reservation *)

(** The conditional update decrements exactly when the stock covers the
    quantity, and reports whether it did. *)
Lemma update_stock_stmt_spec id quantity d :
  match products d !! id with
  | Some p =>
      if quantity <=? p_stock p
      then update_stock_stmt id quantity d
           = (Ok true, set_products (insert id (with_stock (p_stock p - quantity) p)) d)
      else update_stock_stmt id quantity d = (Ok false, d)
  | None => update_stock_stmt id quantity d = (Ok false, d)
  end.
Proof.
  unfold update_stock_stmt. destruct (products d !! id) as [p|]; [|reflexivity].
  destruct (quantity <=? p_stock p); reflexivity.
Qed.

Lemma productQueries_updateStock_only_stock id quantity :
  keeps only_stock (productQueries_updateStock id quantity).
Proof.
  unfold productQueries_updateStock.
  apply (keeps_bind _ only_stock_trans).
  - apply keeps_sql; intros w; unfold only_stock, update_stock_stmt; rows_done.
  - intros ok. apply (keeps_bind _ only_stock_trans).
    + destruct ok; [|apply (keeps_ret _ only_stock_refl)].
      intros w r w' E. inversion E. subst. repeat split.
    + intros. apply (keeps_ret _ only_stock_refl).
Qed.

Lemma reserved_of_app id l1 l2 : reserved_of id (l1 ++ l2) = reserved_of id l1 + reserved_of id l2.
Proof.
  unfold reserved_of. induction l1 as [|e l1 IH]; simpl; [reflexivity|].
  rewrite IH. destruct (fst e =? id); lia.
Qed.

(** A reservation keeps the stock non-negative, whatever the sign of the
    quantity. *)
Lemma productQueries_updateStock_nonneg id quantity :
  keeps stays_nonneg (productQueries_updateStock id quantity).
Proof.
  intros w r w' E Hnn. unfold productQueries_updateStock in E.
  destruct (refused w) eqn:R.
  { rewrite bind_sql_refused in E by exact R. inversion E. subst. exact Hnn. }
  rewrite bind_sql_run in E by exact R.
  pose proof (update_stock_stmt_spec id quantity (w_db w)) as Hs.
  destruct (products (w_db w) !! id) as [p|] eqn:Ep.
  - destruct (quantity <=? p_stock p) eqn:Eq; rewrite Hs in E; cbn in E;
      inversion E; subst; [|exact Hnn].
    intros id' p' Hp'. cbn in Hp'.
    destruct (decide (id = id')) as [->|Hne].
    + rewrite lookup_insert_eq in Hp'. inversion Hp'. subst. cbn.
      specialize (Hnn _ _ Ep). lia.
    + rewrite lookup_insert_ne in Hp' by exact Hne. eapply Hnn, Hp'.
  - rewrite Hs in E. cbn in E. inversion E. subst. exact Hnn.
Qed.

(** A reservation keeps the account of every product: what the ledger
    records is what left the stock. *)
Lemma productQueries_updateStock_accounts S pid id quantity :
  keeps (stays_accounted S pid) (productQueries_updateStock id quantity).
Proof.
  intros w r w' E (p0 & Hp0 & Hnn & Hsum). unfold productQueries_updateStock in E.
  destruct (refused w) eqn:R.
  { rewrite bind_sql_refused in E by exact R. inversion E. subst. exists p0. auto. }
  rewrite bind_sql_run in E by exact R.
  pose proof (update_stock_stmt_spec id quantity (w_db w)) as Hs.
  destruct (products (w_db w) !! id) as [p|] eqn:Ep.
  - destruct (quantity <=? p_stock p) eqn:Eq; rewrite Hs in E; cbn in E;
      inversion E; subst; [|exists p0; auto].
    unfold accounts_for. cbn -[reserved_of]. rewrite reserved_of_app. cbn.
    destruct (decide (id = pid)) as [->|Hne].
    + rewrite lookup_insert_eq. rewrite Ep in Hp0. inversion Hp0. subst p0.
      eexists. split; [reflexivity|]. cbn. rewrite Z.eqb_refl. split; lia.
    + rewrite lookup_insert_ne by exact Hne. exists p0.
      replace (id =? pid) with false by lia. repeat split; auto. lia.
  - rewrite Hs in E. cbn in E. inversion E. subst. exists p0. auto.
Qed.

(** ** POST /api/orders as a whole *)

Lemma orderQueries_create_only_orders userId items totalPrice :
  keeps only_orders (orderQueries_create userId items totalPrice).
Proof. intros w r w' E. apply orderQueries_create_spec in E. apply E. Qed.

(** The route keeps every relation that ignores all but products and ledger
    and that a single reservation keeps. *)
Lemma post_api_orders_keeps (R : world -> world -> Prop) reply now body :
  (forall w, R w w) ->
  (forall w1 w2 w3, R w1 w2 -> R w2 w3 -> R w1 w3) ->
  (forall w w', same_stock w w' -> R w w') ->
  (forall id quantity, keeps R (productQueries_updateStock id quantity)) ->
  keeps R (post_api_orders reply now body).
Proof.
  intros refl trans Hsame Hres. unfold post_api_orders.
  keeps_walk refl trans.
  all: try (intros; apply Hsame; unfold same_stock; rows_done; fail).
  all: try apply Hres.
  all: eapply keeps_weaken;
    [|first [apply validate_items_untouched | apply orderQueries_create_only_orders]];
    intros; apply Hsame;
    first [apply untouched_same_stock; assumption
          | apply only_orders_same_stock; assumption].
Qed.

Lemma validate_items_rejection items : forall totalPrice orderItems w rejected w',
  validate_items items totalPrice orderItems w = (Ok (inl rejected), w') ->
  res_status rejected = 400.
Proof.
  induction items as [|item items IH]; intros totalPrice orderItems w rejected w' E.
  - inversion E.
  - simpl in E. unfold productQueries_getById in E.
    destruct (refused w) eqn:R; [rewrite bind_sql_refused in E by exact R; discriminate|].
    rewrite bind_sql_run in E by exact R. cbn [fst snd] in E.
    destruct (products (w_db w) !! item_product_id item) as [p|];
      [|inversion E; reflexivity].
    destruct (p_is_active p); [|inversion E; reflexivity].
    destruct (p_stock p <? item_quantity item); [inversion E; reflexivity|].
    eapply IH, E.
Qed.

(** A request with an item that does not pass is answered without anything
    having been written. *)
Lemma post_api_orders_rejects reply now body its w r w' :
  items body = Some its ->
  ~ Forall (item_passes (w_db w)) its ->
  post_api_orders reply now body w = (r, w') ->
  untouched w w' /\ exists rejected, r = Ok rejected /\ res_status rejected <> 201.
Proof.
  intros Hitems Hbad E. unfold post_api_orders, try_catch in E. rewrite Hitems in E.
  destruct (telegram_id body) as [[|t|t]|]; destruct its as [|item its];
    try (inversion E; subst; split; [apply untouched_refl | eexists; split; [reflexivity | discriminate]]).
  all: unfold userQueries_findByTelegramId in E;
    (destruct (refused w) eqn:R;
     [rewrite bind_sql_refused in E by exact R; inversion E; subst;
      split; [repeat split | eexists; split; [reflexivity | discriminate]]|]);
    rewrite bind_sql_run in E by exact R; cbn [fst snd] in E;
    (destruct (List.find _ (users (w_db w))) as [u|];
     [|inversion E; subst; split; [repeat split | eexists; split; [reflexivity | discriminate]]]).
  all: unfold bind at 1 in E;
    match type of E with
    | context [validate_items ?l ?t ?a ?w0] =>
        destruct (validate_items l t a w0) as [[[rejected|checked]|e] w1] eqn:Ev
    end.
  all: try (apply validate_items_all_pass in Ev; rewrite w_db_advance in Ev; contradiction).
  all: pose proof (validate_items_untouched _ _ _ _ _ _ Ev) as (Hd & Hs & Hl).
  all: try (apply validate_items_rejection in Ev).
  all: inversion E; subst; (split; [repeat split; auto | eexists; split; [reflexivity|]]).
  all: try rewrite Ev; discriminate.
Qed.

(** The part of the route that follows the commit of the order: the gateway,
    the invoice row, the reservations. Either nothing else moved, or the
    invoice was stored for the order before any stock was touched. *)
Lemma after_commit reply now (order : order) totalPrice (orderItems : list orderItem) w r w' :
  (plisioInvoice <- createInvoice reply ;;
   invoice <- invoiceQueries_create
     {| id_order_id := o_id order;
        id_plisio_invoice_id := txn_id plisioInvoice;
        id_currency := pi_currency plisioInvoice;
        id_amount := pi_amount plisioInvoice;
        id_amount_usd := totalPrice;
        id_invoice_url := pi_invoice_url plisioInvoice;
        id_qr_code_url := pi_qr_code plisioInvoice;
        id_wallet_hash := pi_wallet_hash plisioInvoice;
        id_expires_at := now + 24 * 60 * 60 * 1000 |} ;;
   for_of orderItems
     (fun item => productQueries_updateStock (product_id item) (quantity item) ;;; ret tt) ;;;
   ret (json 201 (OrderCreated order invoice))) w = (r, w') ->
  same_orders w w' /\ users (w_db w') = users (w_db w) /\
  ((same_stock w w' /\ invoices (w_db w') = invoices (w_db w)) \/
   exists inv, invoices (w_db w) !! i_plisio_invoice_id inv = None /\
               invoices (w_db w')
               = <[i_plisio_invoice_id inv := inv]> (invoices (w_db w)) /\
               i_order_id inv = o_id order).
Proof.
  intros E. destruct reply as [data|]; cbn [createInvoice] in E;
    [|unfold bind, throw in E; inversion E; subst;
      split; [apply same_orders_refl | split; [reflexivity|]];
      left; split; [apply same_stock_refl | reflexivity]].
  unfold bind at 1 in E. cbn [ret] in E. unfold invoiceQueries_create in E.
  destruct (refused w) eqn:R.
  { rewrite bind_sql_refused in E by exact R. inversion E. subst.
    split; [split; reflexivity | split; [reflexivity|]; left; repeat split]. }
  rewrite bind_sql_run in E by exact R.
  cbn [id_plisio_invoice_id id_order_id] in E. cbv beta zeta in E.
  destruct (invoices (w_db w) !! txn_id data) eqn:Efresh; cbn [fst snd] in E.
  { inversion E. subst.
    split; [split; reflexivity | split; [reflexivity|]; left; repeat split]. }
  match type of E with
  | context [bind ?m ?k ?w0] =>
      assert (Hloop : keeps only_stock (bind m k))
        by (keeps_walk only_stock_refl only_stock_trans;
            apply productQueries_updateStock_only_stock);
      destruct (bind m k w0) as [r0 w1] eqn:Eloop;
      apply Hloop in Eloop; destruct Eloop as (Hu & Ho & Hi & Hinv & _)
  end.
  rewrite w_db_advance in Hu, Ho, Hi, Hinv. inversion E. subst r w'.
  split; [split; [rewrite Ho | rewrite Hi]; reflexivity|].
  split; [rewrite Hu; reflexivity|].
  right. rewrite Hinv. cbn.
  match goal with |- context [<[_ := ?v]> _] => exists v end.
  split; [exact Efresh | split; reflexivity].
Qed.

(** Stock moves only once the order is committed and its invoice stored. *)
Lemma post_api_orders_stock_after_commit reply now body w r w' :
  post_api_orders reply now body w = (r, w') ->
  same_stock w w' \/ order_committed w w'.
Proof.
  intros E. unfold post_api_orders, try_catch in E.
  destruct (telegram_id body) as [[|t|t]|]; destruct (items body) as [[|item its]|];
    try (inversion E; subst; left; apply same_stock_refl).
  all: unfold userQueries_findByTelegramId in E;
    (destruct (refused w) eqn:R;
     [rewrite bind_sql_refused in E by exact R; inversion E; subst; left; split; reflexivity|]);
    rewrite bind_sql_run in E by exact R; cbn [fst snd] in E;
    (destruct (List.find _ (users (w_db w))) as [u|];
     [|inversion E; subst; left; split; reflexivity]).
  all: unfold bind at 1 in E;
    match type of E with
    | context [validate_items ?l ?t ?a ?w0] =>
        destruct (validate_items l t a w0) as [[[rejected|[totalPrice lines]]|e] w1] eqn:Ev;
        apply validate_items_untouched in Ev; destruct Ev as (Hd & Hs & Hl)
    end;
    try (inversion E; subst; left; split; [rewrite Hd | rewrite Hl]; reflexivity).
  all: unfold bind at 1 in E;
    destruct (orderQueries_create (u_id u) lines totalPrice w1) as [[order|e] w2] eqn:Ec;
    apply orderQueries_create_spec in Ec; destruct Ec as (Hframe & Hc);
    [|inversion E; subst; left; apply only_orders_same_stock in Hframe;
      destruct Hframe as [Hp Hr]; split; [rewrite Hp, Hd | rewrite Hr, Hl]; reflexivity].
  all: destruct Hc as (_ & Hfresh & Hord & _);
    match type of E with
    | context [bind ?m ?k ?w0] =>
        destruct (bind m k w0) as [r3 w3] eqn:Et
    end;
    apply after_commit in Et;
    destruct Et as ((Ho3 & _) & _ & [(Hu3 & _) | (inv & Hi1 & Hi2eq & Hi3)]).
  all: assert (w3 = w') by (destruct r3; inversion E; reflexivity); subst w3.
  all: try assert (Hi2 : invoices (w_db w') !! i_plisio_invoice_id inv = Some inv)
      by (rewrite Hi2eq; apply lookup_insert_eq).
  all: try (left; apply only_orders_same_stock in Hframe; destruct Hframe as [Hp Hr];
            destruct Hu3 as (Hp3 & Hl3);
            split; [rewrite Hp3, Hp, Hd | rewrite Hl3, Hr, Hl]; reflexivity).
  all: right; exists order, inv; rewrite Hd in Hfresh, Hord;
    destruct Hframe as (_ & _ & Hinv2 & _); rewrite Hd in Hinv2; rewrite Hinv2 in Hi1;
    repeat split; auto; rewrite Ho3, Hord; apply lookup_insert_eq.
Qed.

(** With a registered customer, items that all pass, a fresh order id and no
    refusal up to COMMIT, the order and one row per item are persisted,
    whatever the gateway answers and whatever happens afterwards. *)
Lemma post_api_orders_commits reply now body t its u w r w' :
  telegram_id body = Some t -> t <> 0 ->
  items body = Some its -> its <> [] ->
  List.find (fun u => u_telegram_id u =? t) (users (w_db w)) = Some u ->
  Forall (item_passes (w_db w)) its ->
  orders (w_db w) !! orders_id_seq (w_db w) = None ->
  accepted (5 + 2 * length its) w ->
  post_api_orders reply now body w = (r, w') ->
  exists lines rows,
    Forall2 (priced (w_db w)) its lines /\
    orders (w_db w')
    = <[orders_id_seq (w_db w) :=
          {| o_id := orders_id_seq (w_db w); o_user_id := u_id u;
             o_total_price := sum_total lines; o_status := "pending";
             o_updated_at := current_timestamp (w_db w) |}]>
        (orders (w_db w)) /\
    order_items (w_db w') = order_items (w_db w) ++ rows /\
    Forall2 (row_of (orders_id_seq (w_db w))) rows lines.
Proof.
  intros Ht Ht0 Hits Hne Hu Hpass Hfresh Hacc E.
  unfold post_api_orders, try_catch in E. rewrite Ht, Hits in E.
  destruct t as [|t|t]; [congruence| |]; (destruct its as [|item its]; [congruence|]).
  all: unfold userQueries_findByTelegramId in E;
    rewrite bind_sql_run in E by (eapply accepted_S; eauto);
    cbn [fst snd] in E; rewrite Hu in E;
    apply (accepted_advance _ w (w_db w)) in Hacc.
  all: destruct (validate_items_accepted (item :: its) 0 [] (advance (w_db w) w))
      as (total & lines & w1 & Ev & (Hd1 & Hs1 & Hl1) & Hr1);
    [rewrite w_db_advance; exact Hpass | intros i Hi; apply Hacc; simpl in *; lia|].
  all: unfold bind at 1 in E; rewrite Ev in E;
    apply validate_items_passed in Ev; destruct Ev as (new & Hpriced & -> & ->);
    rewrite w_db_advance in Hpriced, Hd1.
  all: destruct (orderQueries_create_accepted (u_id u) ([] ++ new) (0 + sum_total new) w1)
      as (order & w2 & Ec & Hr2);
    [rewrite Hd1; exact Hfresh
    |apply Forall2_length in Hpriced; rewrite length_app; cbn [length Nat.add];
     rewrite <- Hpriced; intros i Hi; rewrite Hr1, lookup_drop;
     apply Hacc; simpl in *; lia
    |].
  all: unfold bind at 1 in E; rewrite Ec in E;
    apply orderQueries_create_spec in Ec; destruct Ec as (_ & Ho & _ & Hord & rows & Hrows & HF);
    match type of E with
    | context [bind ?m ?k ?w0] => destruct (bind m k w0) as [r3 w3] eqn:Et
    end;
    apply after_commit in Et; destruct Et as ((Ho3 & Hi3) & _);
    assert (w3 = w') by (destruct r3; inversion E; reflexivity); subst w3.
  all: exists new, rows; subst order; cbn [o_id] in *;
    rewrite Ho3, Hi3, Hord, Hrows, !Hd1;
    rewrite Hd1 in HF; simpl app in *; replace (0 + sum_total new) with (sum_total new) by lia;
    auto.
Qed.

(** ** The administrative routes and the bot *)

Lemma stays_nonneg_refl w : stays_nonneg w w.
Proof. intros H. exact H. Qed.

Lemma stays_nonneg_trans w1 w2 w3 : stays_nonneg w1 w2 -> stays_nonneg w2 w3 -> stays_nonneg w1 w3.
Proof. unfold stays_nonneg. auto. Qed.

Lemma same_stock_stays_nonneg w w' : same_stock w w' -> stays_nonneg w w'.
Proof. intros [E _] Hnn id p Hp. rewrite E in Hp. eapply Hnn, Hp. Qed.

Lemma stays_accounted_refl S id w : stays_accounted S id w w.
Proof. intros H. exact H. Qed.

Lemma stays_accounted_trans S id w1 w2 w3 :
  stays_accounted S id w1 w2 -> stays_accounted S id w2 w3 -> stays_accounted S id w1 w3.
Proof. unfold stays_accounted. auto. Qed.

Lemma same_stock_stays_accounted S id w w' : same_stock w w' -> stays_accounted S id w w'.
Proof. intros [E El] (p & Hp & Hnn & Hs). exists p. rewrite E, El. auto. Qed.

Lemma productQueries_update_nonneg id data :
  (forall stock, pd_stock data = Some stock -> 0 <= stock) ->
  keeps stays_nonneg (productQueries_update id data).
Proof.
  intros Hb. unfold productQueries_update. apply keeps_sql; intros w Hnn; [exact Hnn|].
  rewrite w_db_advance.
  destruct (pd_stock data) as [stock|] eqn:Es; [|exact Hnn].
  destruct (products (w_db w) !! id) as [p|] eqn:Ep; [|exact Hnn].
  destruct (pd_name data) as [name|]; [|exact Hnn].
  intros id' p' Hp'. cbn in Hp'.
  destruct (decide (id = id')) as [->|Hne].
  - rewrite lookup_insert_eq in Hp'. inversion Hp'. subst. cbn. auto.
  - rewrite lookup_insert_ne in Hp' by exact Hne. eapply Hnn, Hp'.
Qed.

Lemma productQueries_create_nonneg data :
  (forall stock, pd_stock data = Some stock -> 0 <= stock) ->
  keeps stays_nonneg (productQueries_create data).
Proof.
  intros Hb. unfold productQueries_create. apply keeps_sql; intros w Hnn; [exact Hnn|].
  rewrite w_db_advance.
  destruct (pd_name data) as [name|]; [|exact Hnn].
  destruct (pd_stock data) as [stock|] eqn:Es; [|exact Hnn].
  destruct (products (w_db w) !! products_id_seq (w_db w)) eqn:Ef; [exact Hnn|].
  intros id' p' Hp'. cbn in Hp'.
  destruct (decide (products_id_seq (w_db w) = id')) as [<-|Hne].
  - rewrite lookup_insert_eq in Hp'. inversion Hp'. subst. cbn. auto.
  - rewrite lookup_insert_ne in Hp' by exact Hne. eapply Hnn, Hp'.
Qed.

Lemma productQueries_delete_nonneg id : keeps stays_nonneg (productQueries_delete id).
Proof.
  unfold productQueries_delete. apply keeps_sql; intros w Hnn; [exact Hnn|].
  rewrite w_db_advance. intros id' p' Hp'. cbn in Hp'. rewrite lookup_alter in Hp'.
  destruct (decide (id = id')) as [->|Hne]; [|eapply Hnn, Hp'].
  destruct (products (w_db w) !! id') eqn:Ep; inversion Hp'. subst. cbn.
  eapply Hnn, Ep.
Qed.

Lemma bot_update_untouched_rows mock u :
  keeps (fun w w' => same_stock w w' /\ same_orders w w' /\ same_invoices w w' /\ same_grants w w')
    (bot_update mock u).
Proof.
  unfold bot_update, bot_middleware.
  keeps_walk
    (fun w => conj (same_stock_refl w)
                (conj (same_orders_refl w) (conj (same_invoices_refl w) (same_grants_refl w))))
    (fun w1 w2 w3
       (H12 : same_stock w1 w2 /\ same_orders w1 w2 /\ same_invoices w1 w2 /\ same_grants w1 w2)
       (H23 : same_stock w2 w3 /\ same_orders w2 w3 /\ same_invoices w2 w3 /\ same_grants w2 w3) =>
       conj (same_stock_trans _ _ _ (proj1 H12) (proj1 H23))
         (conj (same_orders_trans _ _ _ (proj1 (proj2 H12)) (proj1 (proj2 H23)))
            (conj (same_invoices_trans _ _ _ (proj1 (proj2 (proj2 H12))) (proj1 (proj2 (proj2 H23))))
               (same_grants_trans _ _ _ (proj2 (proj2 (proj2 H12))) (proj2 (proj2 (proj2 H23)))))));
    unfold same_stock, same_orders, same_invoices, same_grants, nop_stmt; rows_done.
Qed.

Section Routes.
Context `{Runtime}.
Variable this : Server.

(** The product routes touch nothing but the products. *)
Lemma product_routes_only_stock e :
  match e with
  | PostProducts _ _ | PutProducts _ _ _ | DeleteProducts _ _ => True
  | _ => False
  end ->
  keeps only_stock (handle this e).
Proof.
  destruct e; try contradiction; intros _; cbn [handle];
    unfold post_api_products, put_api_products, delete_api_products, adminAuth;
    keeps_walk only_stock_refl only_stock_trans; unfold only_stock; rows_done.
Qed.

(** Every request that carries no negative stock keeps the stock
    non-negative. *)
Lemma handle_stays_nonneg e : benign e -> keeps stays_nonneg (handle this e).
Proof.
  destruct e; cbn [benign handle]; intros Hb;
    (apply (keeps_bind _ stays_nonneg_trans);
     [|intros; apply (keeps_ret _ stays_nonneg_refl)]).
  - apply post_api_orders_keeps;
      [apply stays_nonneg_refl | apply stays_nonneg_trans
      | apply same_stock_stays_nonneg | apply productQueries_updateStock_nonneg].
  - eapply keeps_weaken; [apply same_stock_stays_nonneg | apply webhook_same_stock].
  - unfold post_api_products, adminAuth.
    keeps_structure stays_nonneg_refl stays_nonneg_trans.
    apply productQueries_create_nonneg. cbn. intros stock E. inversion E. subst.
    destruct (pb_stock body) eqn:Es; cbn; [auto | lia].
  - unfold put_api_products, adminAuth.
    keeps_structure stays_nonneg_refl stays_nonneg_trans.
    apply productQueries_update_nonneg. exact Hb.
  - unfold delete_api_products, adminAuth.
    keeps_structure stays_nonneg_refl stays_nonneg_trans.
    apply productQueries_delete_nonneg.
  - eapply keeps_weaken; [|apply bot_update_untouched_rows].
    intros w w' (Hs & _). apply same_stock_stays_nonneg, Hs.
  - intros w r w' E. inversion E. subst. intros Hnn. exact Hnn.
Qed.

Lemma run_stays_nonneg events : forall w,
  Forall benign events -> stays_nonneg w (run this events w).
Proof.
  induction events as [|e events IH]; intros w HF; [apply stays_nonneg_refl|].
  inversion HF. subst. cbn [run].
  eapply stays_nonneg_trans; [|apply IH; assumption].
  eapply (handle_stays_nonneg e); [assumption|]. apply surjective_pairing.
Qed.
End Routes.

(** Either the orders and their items are as before, or exactly one order
    was added, with one row per requested item, priced from the products on
    file when the request arrived. *)
Lemma post_api_orders_all_or_nothing reply now body w r w' :
  post_api_orders reply now body w = (r, w') ->
  same_orders w w' \/
  exists its lines rows user_id,
    items body = Some its /\ Forall2 (priced (w_db w)) its lines /\
    orders (w_db w) !! orders_id_seq (w_db w) = None /\
    orders (w_db w')
    = <[orders_id_seq (w_db w) :=
          {| o_id := orders_id_seq (w_db w); o_user_id := user_id;
             o_total_price := sum_total lines; o_status := "pending";
             o_updated_at := current_timestamp (w_db w) |}]>
        (orders (w_db w)) /\
    order_items (w_db w') = order_items (w_db w) ++ rows /\
    Forall2 (row_of (orders_id_seq (w_db w))) rows lines.
Proof.
  intros E. unfold post_api_orders, try_catch in E.
  destruct (telegram_id body) as [[|t|t]|]; destruct (items body) as [[|item its]|];
    try (inversion E; subst; left; apply same_orders_refl).
  all: unfold userQueries_findByTelegramId in E;
    (destruct (refused w) eqn:R;
     [rewrite bind_sql_refused in E by exact R; inversion E; subst; left; split; reflexivity|]);
    rewrite bind_sql_run in E by exact R; cbn [fst snd] in E;
    (destruct (List.find _ (users (w_db w))) as [u|];
     [|inversion E; subst; left; split; reflexivity]).
  all: unfold bind at 1 in E;
    match type of E with
    | context [validate_items ?l ?t ?a ?w0] =>
        destruct (validate_items l t a w0) as [[[rejected|[totalPrice lines]]|e] w1] eqn:Ev;
        pose proof (validate_items_untouched _ _ _ _ _ _ Ev) as (Hd & Hs & Hl)
    end;
    try (inversion E; subst; left; split; rewrite Hd; reflexivity).
  all: apply validate_items_passed in Ev; destruct Ev as (new & Hpriced & -> & ->);
    rewrite w_db_advance in Hpriced, Hd.
  all: unfold bind at 1 in E;
    match type of E with
    | context [orderQueries_create ?a ?b ?c ?w0] =>
        destruct (orderQueries_create a b c w0) as [[order|e] w2] eqn:Ec
    end;
    apply orderQueries_create_spec in Ec; destruct Ec as (Hframe & Hc);
    [|inversion E; subst; left; destruct Hc as [Ho Hi];
      split; [rewrite Ho | rewrite Hi]; rewrite Hd; reflexivity].
  all: destruct Hc as (Horder & Hfresh & Hord & rows & Hrows & HF);
    match type of E with
    | context [bind ?m ?k ?w0] => destruct (bind m k w0) as [r3 w3] eqn:Et
    end;
    apply after_commit in Et; destruct Et as ((Ho3 & Hi3) & _).
  all: assert (w3 = w') by (destruct r3; inversion E; reflexivity); subst w3.
  all: right; eexists _, new, rows, (u_id u); subst order; cbn [o_id] in *;
    rewrite Ho3, Hi3, Hord, Hrows, !Hd; rewrite Hd in Hfresh, HF; simpl app in *;
    replace (0 + sum_total new) with (sum_total new) by lia;
    repeat split; try reflexivity; try assumption.
Qed.

Lemma get_order_prices d d' id :
  users d' = users d -> orders d' = orders d -> order_items d' = order_items d ->
  prices_of <$> get_order d' id = prices_of <$> get_order d id.
Proof.
  intros Hu Ho Hi. unfold get_order. rewrite Hu, Ho.
  destruct (orders d !! id) as [o|]; [|reflexivity].
  destruct (List.find _ (users d)); [|reflexivity].
  cbn. unfold prices_of. cbn. f_equal. f_equal.
  unfold items_of_order. rewrite Hi.
  destruct (List.filter _ (order_items d)) as [|row rows]; [reflexivity|].
  cbn. f_equal. rewrite !map_map. reflexivity.
Qed.

Lemma unknown_item_fails d its :
  Exists (fun item => match products d !! item_product_id item with
                      | Some p => p_is_active p = false
                      | None => True
                      end) its ->
  ~ Forall (item_passes d) its.
Proof.
  intros HE HF. apply Exists_exists in HE. destruct HE as (item & Hin & Hbad).
  rewrite Forall_forall in HF. destruct (HF item Hin) as (p & Hp & Ha & _).
  rewrite Hp in Hbad. congruence.
Qed.

(** ** The references between the tables *)

Lemma relinked_refl w : relinked w w.
Proof. repeat split; auto. Qed.

Lemma relinked_trans w1 w2 w3 : relinked w1 w2 -> relinked w2 w3 -> relinked w1 w3.
Proof.
  intros (Hu & Hi & Ho) (Hu' & Hi' & Ho'). split; [|split]; intros.
  - auto.
  - rewrite Hi', Hi. reflexivity.
  - rewrite Ho', Ho. reflexivity.
Qed.

Lemma stays_linked_refl w : stays_linked w w.
Proof. intros L. exact L. Qed.

Lemma stays_linked_trans w1 w2 w3 :
  stays_linked w1 w2 -> stays_linked w2 w3 -> stays_linked w1 w3.
Proof. unfold stays_linked. auto. Qed.

Lemma relinked_stays_linked w w' : relinked w w' -> stays_linked w w'.
Proof.
  intros (Hu & Hi & Ho) L key inv Hinv.
  specialize (Hi key). rewrite Hinv in Hi.
  destruct (invoices (w_db w) !! key) as [inv0|] eqn:E0; [|discriminate].
  cbn in Hi. injection Hi as Hi.
  destruct (L key inv0 E0) as (o & u & Eo & Eu).
  specialize (Ho (i_order_id inv0)). rewrite Eo, <- Hi in Ho.
  destruct (orders (w_db w') !! i_order_id inv) as [o'|] eqn:Eo'; [|discriminate].
  cbn in Ho. injection Ho as Ho.
  destruct (Hu (o_user_id o)) as [u' Eu']; [eauto|].
  exists o', u'. rewrite Ho. auto.
Qed.

Lemma only_stock_relinked w w' : only_stock w w' -> relinked w w'.
Proof.
  intros (Hu & Ho & _ & Hi & _). unfold relinked. rewrite Hu, Ho, Hi. auto.
Qed.

Lemma find_app_is_Some {A} (f : A -> bool) (l l' : list A) :
  is_Some (List.find f l) -> is_Some (List.find f (l ++ l')).
Proof.
  induction l as [|x l IH]; simpl; [intros [? ?]; discriminate|].
  destruct (f x); eauto.
Qed.

(** A customer found by Telegram id is found by id. *)
Lemma find_by_id (us : list user) (t : Z) (u : user) :
  List.find (fun u => u_telegram_id u =? t) us = Some u ->
  is_Some (List.find (fun x => u_id x =? u_id u) us).
Proof.
  intros E. apply find_some in E. destruct E as [Hin _].
  destruct (List.find (fun x => u_id x =? u_id u) us) eqn:Ef; [eauto|].
  eapply find_none in Ef; [|exact Hin]. cbn in Ef. lia.
Qed.

(** An order added for a customer on file, with or without its invoice. *)
Lemma linked_order_added (d d' : database) (order : order) :
  linked d -> users d' = users d ->
  is_Some (List.find (fun u => u_id u =? o_user_id order) (users d)) ->
  orders d' = <[o_id order := order]> (orders d) ->
  (invoices d' = invoices d \/
   exists inv, invoices d' = <[i_plisio_invoice_id inv := inv]> (invoices d) /\
               i_order_id inv = o_id order) ->
  linked d'.
Proof.
  intros L Hu [u' Hf] Ho Hi key inv0 Hinv0.
  assert (Hold : forall k inv1, invoices d !! k = Some inv1 ->
            exists o u, orders d' !! i_order_id inv1 = Some o /\
                        List.find (fun u => u_id u =? o_user_id o) (users d') = Some u).
  { intros k inv1 E1. destruct (L k inv1 E1) as (o & u & Eo & Eu). rewrite Ho, Hu.
    destruct (decide (o_id order = i_order_id inv1)) as [e|n].
    - rewrite e, lookup_insert_eq. eauto.
    - rewrite lookup_insert_ne by exact n. eauto. }
  destruct Hi as [Hi | (inv & Hi & Hio)]; rewrite Hi in Hinv0; [eauto|].
  destruct (decide (i_plisio_invoice_id inv = key)) as [e|n].
  - subst key. rewrite lookup_insert_eq in Hinv0. injection Hinv0 as <-.
    rewrite Ho, Hu, Hio, lookup_insert_eq. eauto.
  - rewrite lookup_insert_ne in Hinv0 by exact n. eauto.
Qed.

Lemma linked_same_rows (d d' : database) :
  users d' = users d -> orders d' = orders d -> invoices d' = invoices d ->
  linked d -> linked d'.
Proof. unfold linked. intros -> -> ->. auto. Qed.

(** An order is stored for a customer on file and an invoice for an order
    just stored. *)
Lemma post_api_orders_links reply now body :
  keeps stays_linked (post_api_orders reply now body).
Proof.
  intros w r w' E. unfold post_api_orders, try_catch in E.
  destruct (telegram_id body) as [[|t|t]|]; destruct (items body) as [[|item its]|];
    try (inversion E; subst; apply stays_linked_refl).
  all: unfold userQueries_findByTelegramId in E;
    (destruct (refused w) eqn:R;
     [rewrite bind_sql_refused in E by exact R; inversion E; subst; intros L; exact L|]);
    rewrite bind_sql_run in E by exact R; cbn [fst snd] in E;
    (destruct (List.find _ (users (w_db w))) as [u|] eqn:Eu;
     [|inversion E; subst; intros L; exact L]).
  all: apply find_by_id in Eu; unfold bind at 1 in E;
    match type of E with
    | context [validate_items ?l ?t ?a ?w0] =>
        destruct (validate_items l t a w0) as [[[rejected|[totalPrice lines]]|e] w1] eqn:Ev;
        apply validate_items_untouched in Ev; destruct Ev as (Hd & Hs & Hl)
    end;
    rewrite w_db_advance in Hd;
    try (inversion E; subst; intros L; rewrite Hd; exact L).
  all: unfold bind at 1 in E;
    destruct (orderQueries_create (u_id u) lines totalPrice w1) as [[order|e] w2] eqn:Ec;
    apply orderQueries_create_spec in Ec; destruct Ec as ((Hu2 & _ & Hi2 & _) & Hc);
    rewrite Hd in Hu2, Hi2;
    [|inversion E; subst; destruct Hc as (Ho2 & _); rewrite Hd in Ho2;
      unfold stays_linked; apply linked_same_rows; assumption].
  all: destruct Hc as (Horder & _ & Hord & _); rewrite Hd in Hord;
    match type of E with
    | context [bind ?m ?k ?w0] =>
        destruct (bind m k w0) as [r3 w3] eqn:Et
    end;
    apply after_commit in Et;
    destruct Et as ((Ho3 & _) & Hu3 & Hinv3);
    assert (w3 = w') by (destruct r3; inversion E; reflexivity); subst w3.
  all: intros L; apply (linked_order_added (w_db w) (w_db w') order L);
    [rewrite Hu3, Hu2; reflexivity
    |rewrite Horder; exact Eu
    |rewrite Ho3; exact Hord
    |destruct Hinv3 as [(_ & Hi3) | (inv & _ & Hi3 & Hio)];
     [left; rewrite Hi3; exact Hi2
     |right; exists inv; rewrite Hi3, Hi2; auto]].
Qed.

Lemma untouched_relinked w w' : untouched w w' -> relinked w w'.
Proof. intros (Hd & _). unfold relinked. rewrite Hd. auto. Qed.

(** An update in place that keeps a column keeps it under every key. *)
Lemma fmap_lookup_alter `{Countable K} {V B} (g : V -> B) (f : V -> V)
    (m : gmap K V) (k j : K) :
  (forall v, g (f v) = g v) -> g <$> alter f k m !! j = g <$> m !! j.
Proof.
  intros Hg. destruct (decide (k = j)) as [->|Hne].
  - rewrite lookup_alter_eq. destruct (m !! j); cbn; [rewrite Hg|]; reflexivity.
  - rewrite lookup_alter_ne by exact Hne. reflexivity.
Qed.

(** Stamping [last_active] moves no customer. *)
Lemma find_id_touch (us : list user) (t now id : Z) :
  is_Some (List.find (fun u => u_id u =? id) us) ->
  is_Some (List.find (fun u => u_id u =? id) (touch t now us)).
Proof.
  induction us as [|x us IH]; cbn; [auto|].
  destruct (u_telegram_id x =? t); cbn [u_id with_last_active];
    destruct (u_id x =? id); eauto.
Qed.

Ltac relinked_rows :=
  intros; unfold relinked; rewrite ?w_db_advance; cbn;
  repeat match goal with
         | |- context [match ?x ≫= ?f with _ => _ end] => destruct (x ≫= f); cbn
         | |- context [match ?x with Some _ => _ | None => _ end] => destruct x; cbn
         | |- context [if ?b then _ else _] => destruct b; cbn
         end;
  repeat split; intros; auto using find_app_is_Some, find_id_touch;
  try (apply fmap_lookup_alter; reflexivity).

Section Links.
Context `{Runtime}.
Variable this : Server.

Lemma webhook_relinked now req : keeps relinked (post_api_webhook_plisio this now req).
Proof.
  unfold post_api_webhook_plisio.
  keeps_walk relinked_refl relinked_trans.
  all: try (intros; eapply keeps_weaken;
            [apply untouched_relinked | apply notifyPaymentReceived_untouched]; fail).
  all: relinked_rows.
Qed.

Lemma bot_update_relinked mock u : keeps relinked (bot_update mock u).
Proof.
  unfold bot_update, bot_middleware.
  keeps_walk relinked_refl relinked_trans; relinked_rows.
Qed.

(** Every request keeps the references resolved. *)
Lemma handle_stays_linked e : keeps stays_linked (handle this e).
Proof.
  destruct e;
    try (eapply keeps_weaken; [|apply (product_routes_only_stock this); exact I];
         intros; apply relinked_stays_linked, only_stock_relinked; assumption);
    cbn [handle];
    (apply (keeps_bind _ stays_linked_trans);
     [|intros; apply (keeps_ret _ stays_linked_refl)]).
  - apply post_api_orders_links.
  - eapply keeps_weaken; [apply relinked_stays_linked | apply webhook_relinked].
  - eapply keeps_weaken; [apply relinked_stays_linked | apply bot_update_relinked].
  - intros w r w' E. inversion E. subst. intros L. exact L.
Qed.

Lemma run_stays_linked events : forall w, stays_linked w (run this events w).
Proof.
  induction events as [|e events IH]; intros w; [apply stays_linked_refl|].
  cbn [run]. eapply stays_linked_trans; [|apply IH].
  eapply (handle_stays_linked e). apply surjective_pairing.
Qed.
End Links.

(** ** The signed string *)

Lemma string_app_cons x (a b : string) : String x a +:+ b = String x (a +:+ b).
Proof. reflexivity. Qed.

Lemma string_app_nil (b : string) : "" +:+ b = b.
Proof. reflexivity. Qed.

Lemma string_app_nil_r (a : string) : a +:+ "" = a.
Proof. induction a as [|x a IH]; [reflexivity|]. rewrite string_app_cons, IH. reflexivity. Qed.

Lemma string_app_assoc (a b c : string) : (a +:+ b) +:+ c = a +:+ b +:+ c.
Proof.
  induction a as [|x a IH]; [reflexivity|].
  rewrite !string_app_cons, IH. reflexivity.
Qed.

Lemma string_length_app (a b : string) :
  String.length (a +:+ b) = (String.length a + String.length b)%nat.
Proof.
  induction a as [|x a IH]; [reflexivity|].
  rewrite string_app_cons. cbn. rewrite IH. reflexivity.
Qed.

Lemma string_app_inj_r (a b c : string) : a +:+ c = b +:+ c -> a = b.
Proof.
  revert b. induction a as [|x a IH]; intros [|y b] E.
  - reflexivity.
  - apply (f_equal String.length) in E. rewrite !string_length_app in E. cbn in E. lia.
  - apply (f_equal String.length) in E. rewrite !string_length_app in E. cbn in E. lia.
  - rewrite !string_app_cons in E. inversion E. f_equal. eauto.
Qed.

Lemma concat_split (sep : string) (before : list string) x (after : list string) :
  String.concat sep (before ++ x :: after)
  = joined_before sep before +:+ x +:+ joined_after sep after.
Proof.
  induction before as [|y before IH].
  - cbn [app joined_before]. rewrite string_app_nil.
    destruct after; cbn [String.concat joined_after]; [|reflexivity].
    rewrite string_app_nil_r. reflexivity.
  - cbn [app joined_before]. rewrite string_app_assoc, string_app_assoc, <- IH.
    destruct before; reflexivity.
Qed.

Lemma template_of_render (data : jsobj) key :
  template_of (render <$> data) key = template_of data key.
Proof. unfold template_of. rewrite lookup_fmap. destruct (data !! key); reflexivity. Qed.

Lemma Object_keys_fmap {B} (g : jsval -> B) (data : jsobj) :
  map fst (map_to_list (g <$> data)) = Object_keys data.
Proof.
  unfold Object_keys. rewrite map_to_list_fmap.
  induction (map_to_list data) as [|[k v] l IH]; cbn; [reflexivity | f_equal; exact IH].
Qed.

(** The signed string depends on the values only through their renderings. *)
Lemma sortedParams_render (data : jsobj) : sortedParams (render <$> data) = sortedParams data.
Proof.
  unfold sortedParams. unfold Object_keys at 1. rewrite Object_keys_fmap.
  f_equal. apply map_ext. intros key. rewrite template_of_render. reflexivity.
Qed.

(** Replacing the value of a field by one with the same rendering leaves the
    signed string as it was. *)
Lemma sortedParams_same_rendering (data : jsobj) field v v' :
  data !! field = Some v -> js_to_string v' = js_to_string v ->
  sortedParams (<[field := v']> data) = sortedParams data.
Proof.
  intros Hf Hr. rewrite <- (sortedParams_render (<[field := v']> data)).
  rewrite <- (sortedParams_render data). f_equal.
  rewrite fmap_insert. apply insert_id. rewrite lookup_fmap, Hf. cbn.
  unfold render. rewrite Hr. reflexivity.
Qed.

Lemma Object_keys_insert (data : jsobj) field v v' :
  data !! field = Some v -> Object_keys (<[field := v']> data) = Object_keys data.
Proof.
  intros Hf.
  rewrite <- (Object_keys_fmap (fun _ => tt) (<[field := v']> data)).
  rewrite <- (Object_keys_fmap (fun _ => tt) data). f_equal. f_equal.
  rewrite fmap_insert. apply insert_id. rewrite lookup_fmap, Hf. reflexivity.
Qed.

Lemma template_of_insert_ne (data : jsobj) field v' key :
  key <> field -> template_of (<[field := v']> data) key = template_of data key.
Proof. intros Hne. unfold template_of. rewrite lookup_insert_ne by congruence. reflexivity. Qed.

(** Replacing the value of a signed field by one with another rendering
    changes the signed string. *)
Lemma sortedParams_other_rendering (data : jsobj) field v v' :
  field <> "verify_hash" -> data !! field = Some v ->
  js_to_string v' <> js_to_string v ->
  sortedParams (<[field := v']> data) <> sortedParams data.
Proof.
  intros Hvh Hf Hr E. unfold sortedParams in E.
  rewrite (Object_keys_insert data field v v' Hf) in E.
  set (keys := merge_sort String.le
                 (List.filter (fun key => negb (String.eqb key "verify_hash"))
                    (Object_keys data))) in E.
  assert (Hin : field ∈ keys).
  { unfold keys. rewrite merge_sort_Permutation.
    apply list_elem_of_In, filter_In. split.
    - apply list_elem_of_In. unfold Object_keys.
      apply (list_elem_of_fmap_2 fst _ (field, v)), elem_of_map_to_list, Hf.
    - apply negb_true_iff, String.eqb_neq, Hvh. }
  assert (Hnd : NoDup keys).
  { unfold keys. rewrite merge_sort_Permutation.
    apply NoDup_ListNoDup, List.NoDup_filter, NoDup_ListNoDup.
    apply NoDup_fst_map_to_list. }
  apply list_elem_of_split in Hin. destruct Hin as (before & after & Hkeys).
  rewrite Hkeys in E, Hnd.
  apply NoDup_app in Hnd. destruct Hnd as (_ & Hb & Ha).
  apply NoDup_cons in Ha. destruct Ha as (Ha & _).
  assert (Hbefore : forall key, key ∈ before -> key <> field).
  { intros key Hk ->. apply (Hb field Hk). left. }
  assert (Hafter : forall key, key ∈ after -> key <> field).
  { intros key Hk ->. contradiction. }
  rewrite !map_app in E. cbn [map] in E. rewrite !concat_split in E.
  rewrite (map_ext_in _ (fun key => key +:+ "=" +:+ template_of data key) before) in E.
  2: { intros key Hk. rewrite template_of_insert_ne; [reflexivity|].
       apply Hbefore, list_elem_of_In, Hk. }
  rewrite (map_ext_in _ (fun key => key +:+ "=" +:+ template_of data key) after) in E.
  2: { intros key Hk. rewrite template_of_insert_ne; [reflexivity|].
       apply Hafter, list_elem_of_In, Hk. }
  apply String.app_inj in E. rewrite <- !string_app_assoc in E.
  apply string_app_inj_r in E. rewrite !string_app_assoc in E.
  do 2 apply String.app_inj in E.
  unfold template_of in E. rewrite lookup_insert_eq, Hf in E. cbn in E. contradiction.
Qed.

Section Signature.
Context `{Runtime}.
Variables (service : PlisioService) (original altered : webhookRequest).
Variables (field : string) (v v' : jsval).
Hypothesis same_header : x_plisio_signature altered = x_plisio_signature original.
Hypothesis not_signature : field <> "verify_hash".
Hypothesis was : wr_body original !! field = Some v.
Hypothesis now_is : wr_body altered = <[field := v']> (wr_body original).

Lemma signature_of_altered : signature_of altered = signature_of original.
Proof.
  unfold signature_of. rewrite same_header, now_is.
  rewrite lookup_insert_ne by congruence. reflexivity.
Qed.

(** An alteration that keeps the rendering of the field verifies exactly
    when the original does. *)
Lemma same_rendering_verifies :
  js_to_string v' = js_to_string v ->
  verifyWebhookSignature service (wr_body altered) (signature_of altered)
  = verifyWebhookSignature service (wr_body original) (signature_of original).
Proof.
  intros Hr. unfold verifyWebhookSignature.
  rewrite signature_of_altered, now_is, (sortedParams_same_rendering _ _ _ _ was Hr).
  reflexivity.
Qed.

(** An alteration that changes the rendering of the field does not verify,
    when the original does, the key is not empty and no two messages have
    the same digest. *)
Lemma other_rendering_fails :
  secretKey service <> "" -> collision_free (secretKey service) ->
  js_to_string v' <> js_to_string v ->
  verifyWebhookSignature service (wr_body original) (signature_of original) = true ->
  verifyWebhookSignature service (wr_body altered) (signature_of altered) = false.
Proof.
  intros Hkey Hcf Hr Hv. unfold verifyWebhookSignature in *.
  apply String.eqb_neq in Hkey. rewrite Hkey in *.
  rewrite signature_of_altered, now_is.
  unfold strict_eq_string in *.
  destruct (signature_of original) as [[| |s|]|]; try discriminate.
  apply String.eqb_eq in Hv. subst s. apply String.eqb_neq. intros E.
  apply Hcf in E.
  exact (sortedParams_other_rendering _ field v v' not_signature was Hr E).
Qed.
End Signature.

(** What the route does with a payload in which one signed field was given
    another value: if the new value renders differently it answers 401 and
    touches nothing (the key not being empty and no two messages having the
    same digest); if it renders the same, the check has the outcome it has
    on the original. *)
Lemma altered_payload_route `{Runtime} (this : Server) (now : Z)
    (original altered : webhookRequest) (field : string) (v v' : jsval) (w : world) :
  x_plisio_signature altered = x_plisio_signature original ->
  field <> "verify_hash" ->
  wr_body original !! field = Some v ->
  wr_body altered = <[field := v']> (wr_body original) ->
  verifyWebhookSignature (plisio this) (wr_body original) (signature_of original) = true ->
  (js_to_string v' <> js_to_string v ->
   secretKey (plisio this) <> "" -> collision_free (secretKey (plisio this)) ->
   post_api_webhook_plisio this now altered w
   = (Ok (json 401 (Error "Invalid signature")), w)) /\
  (js_to_string v' = js_to_string v ->
   verifyWebhookSignature (plisio this) (wr_body altered) (signature_of altered) = true).
Proof.
  intros Hh Hf Hwas Hnow Hv. split.
  - intros Hr Hkey Hcf. apply webhook_rejected.
    eapply other_rendering_fails; eauto.
  - intros Hr. rewrite <- Hv. eapply same_rendering_verifies; eauto.
Qed.

(** ** What no request undoes *)

Lemma with_invoice_status_same inv :
  with_invoice_status (i_status inv) (i_paid_at inv) inv = inv.
Proof. destruct inv. reflexivity. Qed.

Lemma same_users_refl us : same_users us us.
Proof. induction us; constructor; auto. Qed.

Lemma same_users_trans us1 us2 us3 :
  same_users us1 us2 -> same_users us2 us3 -> same_users us1 us3.
Proof.
  intros H12. revert us3. induction H12 as [|u u' us us' (Hi & Ht) _ IH]; intros us3 H23.
  - inversion H23. constructor.
  - inversion H23 as [|? u'' ? us'' (Hi' & Ht') H23']. subst.
    constructor; [split; congruence | apply IH, H23'].
Qed.

Lemma same_users_touch t now us : same_users us (touch t now us).
Proof.
  induction us as [|u us IH]; cbn; constructor; [|exact IH].
  destruct (u_telegram_id u =? t); auto.
Qed.

Lemma same_users_app_l us1 more us2 :
  same_users (us1 ++ more) us2 ->
  exists old more', us2 = old ++ more' /\ same_users us1 old.
Proof.
  intros HF. apply Forall2_app_inv_l in HF.
  destruct HF as (old & more' & H1 & _ & ->). eauto.
Qed.

Lemma kept_refl w : kept w w.
Proof.
  split; [exists (users (w_db w)), []; split;
          [symmetry; apply app_nil_r | apply same_users_refl]|].
  split; [exists []; symmetry; apply app_nil_r|].
  split; [|split]; eauto 10 using with_invoice_status_same.
Qed.

Lemma kept_trans w1 w2 w3 : kept w1 w2 -> kept w2 w3 -> kept w1 w3.
Proof.
  intros ((o1 & u1 & Hu1 & Hs1) & (r1 & Hr1) & Ho1 & Hi1 & Hp1)
         ((o2 & u2 & Hu2 & Hs2) & (r2 & Hr2) & Ho2 & Hi2 & Hp2).
  split.
  { rewrite Hu1 in Hs2. apply same_users_app_l in Hs2.
    destruct Hs2 as (old & more' & -> & Hold).
    exists old, (more' ++ u2). split; [rewrite Hu2, app_assoc; reflexivity|].
    eapply same_users_trans; eassumption. }
  split; [exists (r1 ++ r2); rewrite Hr2, Hr1, app_assoc; reflexivity|].
  split; [|split].
  - intros id o Ho. destruct (Ho1 id o Ho) as (o' & Ho' & Ha' & Hb' & Hc' & Hst').
    destruct (Ho2 id o' Ho') as (o'' & Ho'' & Ha'' & Hb'' & Hc'' & Hst'').
    exists o''. split; [exact Ho''|]. repeat split; try congruence.
    destruct Hst'' as [E|E]; [rewrite E; exact Hst' | right; exact E].
  - intros key inv Hinv. destruct (Hi1 key inv Hinv) as (inv' & Hinv' & Hs').
    destruct (Hi2 key inv' Hinv') as (inv'' & Hinv'' & Hs'').
    exists inv''. split; [exact Hinv''|]. rewrite <- Hs', <- Hs''. reflexivity.
  - auto.
Qed.

Lemma same_rows_kept w w' : w_db w' = w_db w -> kept w w'.
Proof. intros E. unfold kept. rewrite E. apply (kept_refl w). Qed.

Lemma untouched_kept w w' : untouched w w' -> kept w w'.
Proof. intros (E & _). apply same_rows_kept, E. Qed.

(** An update in place that keeps the identity of a row. *)
Lemma lookup_alter_kept `{Countable K} {V} (f : V -> V) (g : V -> V -> Prop) (m : gmap K V) k :
  (forall v, g v v) -> (forall v, g v (f v)) ->
  forall j v, m !! j = Some v -> exists v', alter f k m !! j = Some v' /\ g v v'.
Proof.
  intros Hrefl Hf j v Hv. destruct (decide (k = j)) as [->|Hne].
  - rewrite lookup_alter_eq, Hv. eauto.
  - rewrite lookup_alter_ne by exact Hne. eauto.
Qed.

Lemma lookup_insert_kept `{Countable K} {V} (g : V -> V -> Prop) (m : gmap K V) k x :
  (forall v, g v v) -> (forall v, m !! k = Some v -> g v x) ->
  forall j v, m !! j = Some v -> exists v', <[k := x]> m !! j = Some v' /\ g v v'.
Proof.
  intros Hrefl Hx j v Hv. destruct (decide (k = j)) as [->|Hne].
  - rewrite lookup_insert_eq. eauto.
  - rewrite lookup_insert_ne by exact Hne. eauto.
Qed.

Lemma is_Some_alter `{Countable K} {V} (f : V -> V) (m : gmap K V) k j :
  is_Some (m !! j) -> is_Some (alter f k m !! j).
Proof.
  intros [v Hv]. destruct (decide (k = j)) as [->|Hne].
  - rewrite lookup_alter_eq, Hv. eauto.
  - rewrite lookup_alter_ne by exact Hne. eauto.
Qed.

Lemma is_Some_insert `{Countable K} {V} (x : V) (m : gmap K V) k j :
  is_Some (m !! j) -> is_Some (<[k := x]> m !! j).
Proof.
  intros [v Hv]. destruct (decide (k = j)) as [->|Hne].
  - rewrite lookup_insert_eq. eauto.
  - rewrite lookup_insert_ne by exact Hne. eauto.
Qed.

(** The goals that a statement leaves for [kept]. *)
Ltac kept_lookup :=
  intros;
  repeat match goal with
         | |- context [alter ?f ?k ?m !! ?j] =>
             let e := fresh "e" in
             destruct (decide (k = j)) as [e|?];
             [rewrite e in *; rewrite lookup_alter_eq | rewrite lookup_alter_ne by assumption]
         | |- context [<[?k := ?x]> ?m !! ?j] =>
             let e := fresh "e" in
             destruct (decide (k = j)) as [e|?];
             [rewrite e in *; rewrite lookup_insert_eq | rewrite lookup_insert_ne by assumption]
         end;
  try congruence;
  repeat match goal with
         | H : ?m !! ?j = Some _ |- context [?m !! ?j] => rewrite H
         end;
  cbn;
  eauto 10 using with_invoice_status_same;
  try match goal with
      | |- exists _, Some ?x = Some _ /\ _ =>
          exists x; split; [reflexivity|];
          repeat match goal with
                 | v : order |- _ => destruct v
                 | v : invoice |- _ => destruct v
                 end;
          cbn; auto 10
      | H : is_Some ?x |- is_Some (_ <$> ?x) => destruct H as [? ->]; cbn; eauto
      end.

Ltac kept_rows :=
  intros; unfold kept; rewrite ?w_db_advance; cbn;
  repeat match goal with
         | |- context [match ?x ≫= ?f with _ => _ end] => destruct (x ≫= f); cbn
         | |- context [match ?x with Some _ => _ | None => _ end] => destruct x eqn:?; cbn
         | |- context [if ?b then _ else _] => destruct b eqn:?; cbn
         end;
  (split; [first [eexists _, []; split;
                  [symmetry; apply app_nil_r
                  |first [apply same_users_refl | apply same_users_touch]]
                 |eexists _, _; split; [reflexivity | apply same_users_refl]]|]);
  (split; [first [exists []; symmetry; apply app_nil_r | eexists; reflexivity]|]);
  (split; [|split]); kept_lookup.

Lemma orderQueries_create_kept userId items totalPrice :
  keeps kept (orderQueries_create userId items totalPrice).
Proof.
  intros w r w' E. apply orderQueries_create_spec in E.
  destruct E as ((Hu & Hp & Hi & _) & Hr).
  assert (Husers : exists old more, users (w_db w') = old ++ more /\
                                   same_users (users (w_db w)) old)
    by (exists (users (w_db w)), []; rewrite Hu, app_nil_r;
        split; [reflexivity | apply same_users_refl]).
  assert (Hinv : forall key inv, invoices (w_db w) !! key = Some inv ->
            exists inv', invoices (w_db w') !! key = Some inv' /\
                         with_invoice_status (i_status inv) (i_paid_at inv) inv' = inv)
    by (rewrite Hi; eauto using with_invoice_status_same).
  assert (Hprod : forall id, is_Some (products (w_db w) !! id) ->
                             is_Some (products (w_db w') !! id))
    by (rewrite Hp; auto).
  destruct r as [order|e].
  - destruct Hr as (_ & Hfresh & Hord & rows & Hrows & _).
    split; [exact Husers|]. split; [exists rows; exact Hrows|].
    split; [|split; assumption].
    intros id o Ho. rewrite Hord.
    destruct (decide (o_id order = id)) as [<-|Hne]; [congruence|].
    rewrite lookup_insert_ne by exact Hne.
    eauto 10.
  - destruct Hr as (Hord & Hrows).
    split; [exact Husers|]. split; [exists []; rewrite Hrows, app_nil_r; reflexivity|].
    split; [|split; assumption].
    rewrite Hord. eauto 10.
Qed.

Lemma note_reserved_kept id quantity : keeps kept (note_reserved id quantity).
Proof. intros w r w' E. inversion E. subst. apply same_rows_kept. reflexivity. Qed.

Lemma productQueries_updateStock_kept id quantity :
  keeps kept (productQueries_updateStock id quantity).
Proof.
  unfold productQueries_updateStock.
  keeps_walk kept_refl kept_trans; try apply note_reserved_kept.
  all: unfold update_stock_stmt; kept_rows.
Qed.

Lemma validate_items_kept items totalPrice orderItems :
  keeps kept (validate_items items totalPrice orderItems).
Proof.
  eapply keeps_weaken; [apply untouched_kept | apply validate_items_untouched].
Qed.

Lemma post_api_orders_kept reply now body : keeps kept (post_api_orders reply now body).
Proof.
  unfold post_api_orders.
  keeps_walk kept_refl kept_trans.
  all: try apply validate_items_kept.
  all: try apply orderQueries_create_kept.
  all: try apply productQueries_updateStock_kept.
  all: kept_rows.
Qed.

Section Kept.
Context `{Runtime}.
Variable this : Server.

Lemma webhook_kept now req : keeps kept (post_api_webhook_plisio this now req).
Proof.
  unfold post_api_webhook_plisio.
  keeps_walk kept_refl kept_trans.
  all: try (intros; eapply keeps_weaken;
            [apply untouched_kept | apply notifyPaymentReceived_untouched]; fail).
  all: kept_rows.
Qed.

Lemma bot_update_kept mock u : keeps kept (bot_update mock u).
Proof.
  unfold bot_update, bot_middleware.
  keeps_walk kept_refl kept_trans; kept_rows.
Qed.

Lemma product_routes_kept e :
  match e with
  | PostProducts _ _ | PutProducts _ _ _ | DeleteProducts _ _ => True
  | _ => False
  end ->
  keeps kept (handle this e).
Proof.
  destruct e; try contradiction; intros _; cbn [handle];
    unfold post_api_products, put_api_products, delete_api_products, adminAuth;
    keeps_walk kept_refl kept_trans; kept_rows.
Qed.

Lemma handle_kept e : keeps kept (handle this e).
Proof.
  destruct e; try (apply product_routes_kept; exact I); cbn [handle];
    (apply (keeps_bind _ kept_trans); [|intros; apply (keeps_ret _ kept_refl)]).
  - apply post_api_orders_kept.
  - apply webhook_kept.
  - apply bot_update_kept.
  - intros w r w' E. inversion E. subst. apply (kept_refl w).
Qed.

Lemma run_kept events : forall w, kept w (run this events w).
Proof.
  induction events as [|e events IH]; intros w; [apply kept_refl|].
  cbn [run]. eapply kept_trans; [|apply IH].
  eapply (handle_kept e). apply surjective_pairing.
Qed.

Lemma run_moves_no_stock events : forall w,
  Forall moves_no_stock events -> same_stock w (run this events w).
Proof.
  induction events as [|e events IH]; intros w HF; [apply same_stock_refl|].
  inversion HF as [|? ? He HF']. subst. cbn [run].
  eapply same_stock_trans; [|apply IH; assumption].
  destruct e; try contradiction; cbn [handle].
  - eapply (keeps_bind _ same_stock_trans);
      [apply webhook_same_stock | intros; apply (keeps_ret _ same_stock_refl)
      | apply surjective_pairing].
  - eapply (keeps_bind _ same_stock_trans);
      [|intros; apply (keeps_ret _ same_stock_refl) | apply surjective_pairing].
    eapply keeps_weaken; [|apply bot_update_untouched_rows].
    intros ? ? (Hs & _). exact Hs.
  - eapply (keeps_bind _ same_stock_trans);
      [|intros; apply (keeps_ret _ same_stock_refl) | apply surjective_pairing].
    intros w0 r w' E. inversion E. subst. apply (same_stock_refl w0).
Qed.
End Kept.

Lemma find_app_Some {A} (f : A -> bool) (l l' : list A) x :
  List.find f l = Some x -> List.find f (l ++ l') = Some x.
Proof.
  induction l as [|y l IH]; simpl; [discriminate|].
  destruct (f y); auto.
Qed.

(** ** Reading back what was written *)

Lemma filter_none {A} (f : A -> bool) (l : list A) :
  Forall (fun x => f x = false) l -> List.filter f l = [].
Proof. induction 1 as [|x l Hx _ IH]; simpl; [|rewrite Hx]; auto. Qed.

Lemma filter_all {A} (f : A -> bool) (l : list A) :
  Forall (fun x => f x = true) l -> List.filter f l = l.
Proof. induction 1 as [|x l Hx _ IH]; simpl; [|rewrite Hx, IH]; auto. Qed.

Lemma rows_read_back (d : database) (id : Z) (rows : list order_item) (lines : list orderItem) :
  Forall2 (row_of id) rows lines ->
  map (view_of_item d) rows = map (view_of_line d) lines /\
  Forall (fun row => (oi_order_id row =? id) = true) rows.
Proof.
  induction 1 as [|row line rows lines (Ho & Hp & Hq & Hpp & Ht) _ [IH1 IH2]];
    [split; constructor|].
  split.
  - simpl. rewrite IH1. f_equal.
    unfold view_of_item, view_of_line. rewrite Hp, Hq, Hpp, Ht. reflexivity.
  - constructor; [lia | exact IH2].
Qed.

(** ** The statistics *)

Lemma count_status_perm status (l l' : list order) :
  l ≡ₚ l' -> count_status status l = count_status status l'.
Proof.
  unfold count_status.
  induction 1 as [|x l l' _ IH|x y l|l l' l'' _ IH1 _ IH2]; simpl.
  - reflexivity.
  - destruct (String.eqb _ _); simpl; auto.
  - destruct (String.eqb (o_status y) _), (String.eqb (o_status x) _); reflexivity.
  - congruence.
Qed.

Lemma sum_paid_perm (l l' : list order) : l ≡ₚ l' -> sum_paid l = sum_paid l'.
Proof.
  unfold sum_paid.
  induction 1 as [|x l l' _ IH|x y l|l l' l'' _ IH1 _ IH2]; simpl.
  - reflexivity.
  - rewrite IH. reflexivity.
  - destruct (String.eqb (o_status y) _), (String.eqb (o_status x) _); lia.
  - congruence.
Qed.

Lemma count_distinct_perm (l l' : list Z) : l ≡ₚ l' -> count_distinct l = count_distinct l'.
Proof. intros Hp. unfold count_distinct. rewrite (list_to_set_perm_L _ _ Hp). reflexivity. Qed.

Lemma count_distinct_cons (x : Z) (l : list Z) :
  count_distinct (x :: l) = if bool_decide (x ∈ l) then count_distinct l else S (count_distinct l).
Proof.
  unfold count_distinct. rewrite list_to_set_cons.
  destruct (bool_decide_reflect (x ∈ l)) as [Hin|Hout].
  - f_equal. apply subseteq_union_1_L, singleton_subseteq_l, elem_of_list_to_set, Hin.
  - rewrite size_union
      by (apply disjoint_singleton_l; rewrite elem_of_list_to_set; exact Hout).
    rewrite size_singleton. reflexivity.
Qed.

Lemma all_orders_insert (d : database) (id : Z) (o : order) :
  orders d !! id = None ->
  all_orders (set_orders (insert id o) d) ≡ₚ o :: all_orders d.
Proof.
  intros Hfresh. unfold all_orders. cbn [orders set_orders].
  rewrite (map_to_list_insert _ _ _ Hfresh). reflexivity.
Qed.

Lemma all_orders_alter (d : database) (f : order -> order) (id : Z) (o : order) :
  orders d !! id = Some o ->
  exists rest, all_orders d ≡ₚ o :: rest /\
               all_orders (set_orders (alter f id) d) ≡ₚ f o :: rest.
Proof.
  intros Ho. exists (map snd (map_to_list (delete id (orders d)))).
  unfold all_orders. cbn [orders set_orders]. split.
  - rewrite <- (map_to_list_delete _ _ _ Ho). reflexivity.
  - rewrite (alter_alt_Some _ _ _ _ Ho), <- insert_delete_eq.
    rewrite map_to_list_insert by apply lookup_delete_eq. reflexivity.
Qed.

Lemma total_stats_orders (d d' : database) : orders d' = orders d -> total_stats d' = total_stats d.
Proof. intros E. unfold total_stats, all_orders. rewrite E. reflexivity. Qed.

Lemma count_status_cons status (o : order) (l : list order) :
  count_status status (o :: l)
  = if String.eqb (o_status o) status then S (count_status status l) else count_status status l.
Proof. unfold count_status. simpl. destruct (String.eqb _ _); reflexivity. Qed.

Lemma sum_paid_cons (o : order) (l : list order) :
  sum_paid (o :: l)
  = if String.eqb (o_status o) "paid" then o_total_price o + sum_paid l else sum_paid l.
Proof. reflexivity. Qed.

(** ** POST /api/orders up to COMMIT and after it *)

(** With a registered customer, items that all pass, a fresh order id and no
    refusal up to COMMIT, the route reaches the call of the gateway with the
    order and its rows committed and nothing else changed. *)
Lemma post_api_orders_to_commit reply now body t its u w :
  telegram_id body = Some t -> t <> 0 ->
  items body = Some its -> its <> [] ->
  List.find (fun u => u_telegram_id u =? t) (users (w_db w)) = Some u ->
  Forall (item_passes (w_db w)) its ->
  orders (w_db w) !! orders_id_seq (w_db w) = None ->
  accepted (5 + 2 * length its) w ->
  exists lines rows w2,
    let order := {| o_id := orders_id_seq (w_db w); o_user_id := u_id u;
                    o_total_price := sum_total lines; o_status := "pending";
                    o_updated_at := current_timestamp (w_db w) |} in
    Forall2 (priced (w_db w)) its lines /\
    only_orders w w2 /\
    orders (w_db w2) = <[orders_id_seq (w_db w) := order]> (orders (w_db w)) /\
    order_items (w_db w2) = order_items (w_db w) ++ rows /\
    Forall2 (row_of (orders_id_seq (w_db w))) rows lines /\
    w_refusals w2 = drop (5 + 2 * length its) (w_refusals w) /\
    post_api_orders reply now body w
    = try_catch
        (plisioInvoice <- createInvoice reply ;;
         invoice <- invoiceQueries_create
           {| id_order_id := o_id order;
              id_plisio_invoice_id := txn_id plisioInvoice;
              id_currency := pi_currency plisioInvoice;
              id_amount := pi_amount plisioInvoice;
              id_amount_usd := sum_total lines;
              id_invoice_url := pi_invoice_url plisioInvoice;
              id_qr_code_url := pi_qr_code plisioInvoice;
              id_wallet_hash := pi_wallet_hash plisioInvoice;
              id_expires_at := now + 24 * 60 * 60 * 1000 |} ;;
         for_of lines
           (fun item => productQueries_updateStock (product_id item) (quantity item) ;;; ret tt) ;;;
         ret (json 201 (OrderCreated order invoice)))
        (fun _ => ret (json 500 (Error "Failed to create order"))) w2.
Proof.
  intros Ht Ht0 Hits Hne Hu Hpass Hfresh Hacc.
  unfold post_api_orders, try_catch at 1. rewrite Ht, Hits.
  assert (Hlen : (5 + 2 * length its = S (length its + (4 + length its)))%nat) by lia.
  rewrite Hlen in Hacc.
  pose proof (accepted_S _ _ Hacc) as R0.
  pose proof (accepted_advance _ w (w_db w) Hacc) as Hacc0.
  destruct (validate_items_accepted its 0 [] (advance (w_db w) w))
    as (total & lines0 & w1 & Ev & (Hd1 & Hs1 & Hl1) & Hr1);
    [rewrite w_db_advance; exact Hpass | intros i Hi; apply Hacc0; lia|].
  pose proof Ev as Ev'. apply validate_items_passed in Ev'.
  destruct Ev' as (lines & Hpriced & -> & ->).
  rewrite w_db_advance in Hpriced, Hd1. simpl app in *.
  replace (0 + sum_total lines) with (sum_total lines) in * by lia.
  pose proof (Forall2_length _ _ _ Hpriced) as Hn.
  destruct (orderQueries_create_accepted (u_id u) lines (sum_total lines) w1)
    as (order & w2 & Ec & Hr2);
    [rewrite Hd1; exact Hfresh
    |rewrite <- Hn; intros i Hi; rewrite Hr1, lookup_drop; apply Hacc0; lia|].
  pose proof (orderQueries_create_spec _ _ _ _ _ _ Ec) as (Hframe & Ho & _ & Hord & rows & Hrows & HF).
  rewrite Hd1 in Ho, Hord, Hrows. cbn [o_id] in *. subst order. cbn [o_id] in *.
  exists lines, rows, w2. cbn zeta.
  split; [exact Hpriced|]. split.
  { destruct Hframe as (F1 & F2 & F3 & F4 & F5 & F6).
    rewrite Hd1 in F1, F2, F3, F4. rewrite Hs1, w_sent_advance in F5.
    rewrite Hl1, w_reserved_advance in F6. repeat split; assumption. }
  split; [exact Hord|]. split; [exact Hrows|]. split; [exact HF|]. split.
  { rewrite Hr2, Hr1, w_refusals_advance, <- Hn, drop_drop, tail_drop_comm.
    f_equal. lia. }
  destruct t as [|t|t]; [congruence| |]; (destruct its as [|item its]; [congruence|]).
  all: unfold userQueries_findByTelegramId;
    rewrite bind_sql_run by exact R0; cbn [fst snd]; rewrite Hu;
    unfold bind at 1; rewrite Ev; unfold bind at 1; rewrite Ec; reflexivity.
Qed.

Lemma accepted_tail n w w1 :
  accepted (S n) w -> w_refusals w1 = tail (w_refusals w) -> accepted n w1.
Proof.
  intros Hacc E i Hi. rewrite E. specialize (Hacc (S i) ltac:(lia)).
  destruct (w_refusals w); [discriminate | exact Hacc].
Qed.

(** The reservations, none refused: the loop completes, and moves nothing but
    products and ledger. *)
Lemma reservations_accepted (lines : list orderItem) : forall w,
  accepted (length lines) w ->
  exists w',
    for_of lines
      (fun item => productQueries_updateStock (product_id item) (quantity item) ;;; ret tt) w
    = (Ok tt, w') /\
    only_stock w w'.
Proof.
  induction lines as [|line lines IH]; intros w Hacc.
  - exists w. split; [reflexivity | apply only_stock_refl].
  - cbn [for_of length] in *.
    destruct (productQueries_updateStock (product_id line) (quantity line) w) as [r w1] eqn:E1.
    pose proof (productQueries_updateStock_only_stock _ _ _ _ _ E1) as H1.
    unfold productQueries_updateStock in E1.
    rewrite bind_sql_run in E1 by (eapply accepted_S; eauto).
    assert (Hacc1 : accepted (length lines) w1 /\ exists ok, r = Ok ok).
    { destruct (update_stock_stmt (product_id line) (quantity line) (w_db w)) as [[[|]|e] d] eqn:Es;
        cbn [fst snd] in E1.
      - unfold bind, note_reserved, ret in E1. inversion E1. subst. split; [|eauto].
        apply (accepted_tail _ w); [exact Hacc | reflexivity].
      - unfold bind, ret in E1. inversion E1. subst. split; [|eauto].
        apply (accepted_tail _ w); [exact Hacc | reflexivity].
      - unfold update_stock_stmt in Es.
        destruct (products (w_db w) !! product_id line) as [p|];
          [destruct (quantity line <=? p_stock p)|]; discriminate. }
    destruct Hacc1 as (Hacc1 & ok & ->).
    destruct (IH w1 Hacc1) as (w' & E & H2).
    exists w'. split; [|eapply only_stock_trans; eauto].
    unfold bind at 1. unfold bind at 1.
    fold (productQueries_updateStock (product_id line) (quantity line)).
    unfold productQueries_updateStock at 1.
    rewrite bind_sql_run by (eapply accepted_S; eauto). rewrite E1. cbn [ret]. exact E.
Qed.

Lemma accepted_drop k m w w2 :
  accepted (k + m) w -> w_refusals w2 = drop k (w_refusals w) -> accepted m w2.
Proof.
  intros Hacc E i Hi. rewrite E, lookup_drop. apply Hacc. lia.
Qed.

(** ** The signed string of a given list of keys *)

Lemma filter_Permutation {A} (f : A -> bool) (l l' : list A) :
  l ≡ₚ l' -> List.filter f l ≡ₚ List.filter f l'.
Proof.
  induction 1 as [|x l l' _ IH|x y l|l l' l'' _ IH1 _ IH2]; simpl.
  - reflexivity.
  - destruct (f x); [constructor|]; exact IH.
  - destruct (f y), (f x); try reflexivity. apply perm_swap.
  - etransitivity; eauto.
Qed.

(** The keys that are signed, once they are known in sorted order. *)
Lemma sortedParams_sorted (data : jsobj) (keys : list string) :
  Sorted String.le keys ->
  List.filter (fun key => negb (String.eqb key "verify_hash")) (Object_keys data) ≡ₚ keys ->
  sortedParams data
  = String.concat "&" (map (fun key => key +:+ "=" +:+ template_of data key) keys).
Proof.
  intros Hsorted Hperm. unfold sortedParams. do 2 f_equal.
  apply (Sorted_unique String.le); [apply Sorted_merge_sort, _ | exact Hsorted|].
  rewrite merge_sort_Permutation. exact Hperm.
Qed.

Lemma Object_keys_insert_fresh (data : jsobj) key v :
  data !! key = None -> Object_keys (<[key := v]> data) ≡ₚ key :: Object_keys data.
Proof.
  intros Hfresh. unfold Object_keys.
  change (key :: map fst (map_to_list data)) with (map fst ((key, v) :: map_to_list data)).
  apply Permutation_map, map_to_list_insert, Hfresh.
Qed.

Lemma Object_keys_empty : Object_keys ∅ = [].
Proof. unfold Object_keys. rewrite map_to_list_empty. reflexivity. Qed.

Lemma mapPlisioStatus_paid (s : string) :
  mapPlisioStatus (Some (JStr s)) = StatusText "paid" <-> s = "completed".
Proof.
  unfold mapPlisioStatus. cbn [from_option js_to_string].
  split; [|intros ->; reflexivity].
  repeat match goal with
         | |- context [String.eqb s ?k] => destruct (String.eqb_spec s k); try discriminate
         end; auto.
  destruct (existsb (String.eqb s) Object_prototype); discriminate.
Qed.

(** ** The administrator check on the raw request *)

Lemma includes_In (l : list (option Z)) (x : option Z) : includes l x = true <-> In x l.
Proof.
  unfold includes. rewrite existsb_exists. split.
  - intros (y & Hin & E). apply bool_decide_eq_true in E. subst. exact Hin.
  - intros Hin. exists x. split; [exact Hin | apply bool_decide_eq_true; reflexivity].
Qed.

Lemma includes_parsed (ids : list Z) (n : Z) :
  includes (map Some ids) (Some n) = existsb (Z.eqb n) ids.
Proof.
  induction ids as [|m ids IH]; [reflexivity|].
  cbn [map existsb]. unfold includes in *. cbn [existsb]. rewrite IH. f_equal.
  destruct (Z.eqb_spec n m) as [->|Hne].
  - apply bool_decide_eq_true. reflexivity.
  - apply bool_decide_eq_false. congruence.
Qed.

Lemma includes_nan_parsed (ids : list Z) : includes (map Some ids) None = false.
Proof.
  induction ids as [|m ids IH]; [reflexivity|].
  unfold includes in *. cbn [map existsb]. rewrite IH.
  rewrite bool_decide_eq_false_2 by discriminate. reflexivity.
Qed.

(** ** Webhooks that are not completed *)

Lemma only_invoices_refl w : only_invoices w w.
Proof. repeat split. Qed.

Lemma only_invoices_trans w1 w2 w3 :
  only_invoices w1 w2 -> only_invoices w2 w3 -> only_invoices w1 w3.
Proof.
  intros (A1 & A2 & A3 & A4 & A5 & A6 & A7) (B1 & B2 & B3 & B4 & B5 & B6 & B7).
  unfold only_invoices. rewrite B1, B2, B3, B4, B5, B6, B7. auto 10.
Qed.

(** ** [orderQueries.create], refused *)

Lemma accepted_cons n w w1 :
  refused w = false -> w_refusals w1 = tail (w_refusals w) -> accepted n w1 ->
  accepted (S n) w.
Proof.
  intros R E Hacc [|i] Hi.
  - intros H0. apply refused_lookup in H0. congruence.
  - specialize (Hacc i ltac:(lia)). rewrite E in Hacc.
    destruct (w_refusals w); [rewrite lookup_nil; discriminate | exact Hacc].
Qed.

Lemma insert_items_ok order_id items : forall w u w',
  for_of items (fun item => sql (insert_order_item_stmt order_id item)) w = (Ok u, w') ->
  accepted (length items) w /\ w_refusals w' = drop (length items) (w_refusals w).
Proof.
  induction items as [|item items IH]; intros w u w' E.
  - inversion E. subst. split; [intros i Hi; cbn in Hi; lia | reflexivity].
  - cbn [for_of] in E. destruct (refused w) eqn:R.
    + rewrite bind_sql_refused in E by exact R. discriminate.
    + rewrite bind_sql_run in E by exact R. apply IH in E. destruct E as (Hacc & Hr).
      split.
      * eapply accepted_cons; [exact R | apply w_refusals_advance | exact Hacc].
      * rewrite Hr, w_refusals_advance. apply tail_drop_comm.
Qed.

(** A call that returned its order had none of its statements refused. *)
Lemma orderQueries_create_ok userId items totalPrice w order w' :
  orderQueries_create userId items totalPrice w = (Ok order, w') ->
  accepted (4 + length items) w.
Proof.
  unfold orderQueries_create. intros E.
  destruct (refused w) eqn:R0; [rewrite bind_sql_refused in E by exact R0; discriminate|].
  rewrite bind_sql_run in E by exact R0. cbn [fst snd nop_stmt] in E.
  eapply accepted_cons; [exact R0 | apply (w_refusals_advance (w_db w)) |].
  unfold try_catch in E.
  destruct (insert_order_rows userId items totalPrice (advance (w_db w) w))
    as [[order1|e] w1] eqn:Erows; [|discriminate].
  clear E. unfold insert_order_rows in Erows.
  set (w0 := advance (w_db w) w) in *.
  destruct (refused w0) eqn:R1; [rewrite bind_sql_refused in Erows by exact R1; discriminate|].
  rewrite bind_sql_run in Erows by exact R1. cbn [fst snd nop_stmt] in Erows.
  eapply accepted_cons; [exact R1 | apply (w_refusals_advance (w_db w0)) |].
  set (w2 := advance (w_db w0) w0) in *.
  destruct (refused w2) eqn:R2; [rewrite bind_sql_refused in Erows by exact R2; discriminate|].
  rewrite bind_sql_run in Erows by exact R2.
  destruct (insert_order_stmt userId totalPrice (w_db w2)) as [[o|e] d] eqn:Es;
    cbn [fst snd] in Erows; [|discriminate].
  eapply accepted_cons; [exact R2 | apply (w_refusals_advance d) |].
  unfold bind at 1 in Erows.
  match type of Erows with
  | context [for_of ?l ?b ?w3] => destruct (for_of l b w3) as [[u|e] w4] eqn:Eloop
  end; [|discriminate].
  apply insert_items_ok in Eloop. destruct Eloop as (Hacc & Hr).
  destruct (refused w4) eqn:R4; [rewrite bind_sql_refused in Erows by exact R4; discriminate|].
  intros i Hi. destruct (decide (i < length items)%nat) as [Hlt|Hge]; [apply Hacc, Hlt|].
  assert (i = length items) as -> by lia.
  intros Hbad. apply (f_equal (fun l => l !! 0%nat)) in Hr.
  rewrite lookup_drop, Nat.add_0_r, Hbad in Hr.
  apply refused_lookup in Hr. congruence.
Qed.

(** ** The reservations of distinct products *)






(** ** Ids and sequences *)

Lemma seqs_le_refl d : seqs_le d d.
Proof. unfold seqs_le. lia. Qed.

Lemma seqs_le_trans d1 d2 d3 : seqs_le d1 d2 -> seqs_le d2 d3 -> seqs_le d1 d3.
Proof. unfold seqs_le. lia. Qed.

Lemma stays_ahead_refl w : stays_ahead w w.
Proof. split; [apply seqs_le_refl | auto]. Qed.

Lemma stays_ahead_trans w1 w2 w3 : stays_ahead w1 w2 -> stays_ahead w2 w3 -> stays_ahead w1 w3.
Proof. intros (S1 & A1) (S2 & A2). split; [eapply seqs_le_trans; eauto | auto]. Qed.

Lemma untouched_stays_ahead w w' : untouched w w' -> stays_ahead w w'.
Proof. intros (E & _). unfold stays_ahead. rewrite E. split; [apply seqs_le_refl | auto]. Qed.

(** Rows that are as before stay below sequences that did not go back. *)
Lemma ahead_rows (d d' : database) :
  seqs_le d d' ->
  users d' = users d -> products d' = products d -> orders d' = orders d ->
  order_items d' = order_items d ->
  ahead d -> ahead d'.
Proof.
  intros (So & Sp & Su) Hu Hp Ho Hi (Ao & Ap & Au & Ai).
  unfold ahead. rewrite Hu, Hp, Ho, Hi. repeat split.
  - intros id o E. specialize (Ao id o E). lia.
  - intros id p E. specialize (Ap id p E). lia.
  - eapply Forall_impl; [exact Au | cbn; intros; lia].
  - eapply Forall_impl; [exact Ai | cbn; intros; lia].
Qed.

Lemma Forall_lt_touch (n t now : Z) (us : list user) :
  Forall (fun u => u_id u < n) us -> Forall (fun u => u_id u < n) (touch t now us).
Proof.
  induction 1 as [|u us Hu _ IH]; cbn; constructor; [|exact IH].
  destruct (u_telegram_id u =? t); exact Hu.
Qed.

(** The goals that a statement leaves for [stays_ahead]. *)
Ltac ahead_rows_done :=
  intros; unfold stays_ahead; rewrite ?w_db_advance;
  repeat match goal with
         | |- context [match ?x ≫= ?f with _ => _ end] => destruct (x ≫= f)
         | |- context [match ?x with Some _ => _ | None => _ end] => destruct x eqn:?
         | |- context [if ?b then _ else _] => destruct b eqn:?
         end;
  (split; [unfold seqs_le; cbn; lia|]);
  try (apply ahead_rows; [unfold seqs_le; cbn; lia | reflexivity..]; fail);
  intros (Ao & Ap & Au & Ai); unfold ahead; cbn;
  repeat split;
  try (eapply Forall_impl; [eassumption | cbn; intros; lia]; fail);
  try (apply Forall_lt_touch; eapply Forall_impl; [eassumption | cbn; intros; lia]; fail);
  try (apply Forall_app; split;
       [eapply Forall_impl; [eassumption | cbn; intros; lia]
       |repeat constructor; cbn; lia]; fail);
  try (intros j v Hv;
       repeat match type of Hv with
              | context [alter ?f ?k ?m !! ?j] =>
                  let e := fresh "e" in
                  destruct (decide (k = j)) as [e|?];
                  [rewrite e in *; rewrite lookup_alter_eq in Hv
                  |rewrite lookup_alter_ne in Hv by assumption]
              | context [<[?k := ?x]> ?m !! ?j] =>
                  let e := fresh "e" in
                  destruct (decide (k = j)) as [e|?];
                  [rewrite e in *; rewrite lookup_insert_eq in Hv
                  |rewrite lookup_insert_ne in Hv by assumption]
              end;
       try (destruct (_ !! j) eqn:Hold in Hv; [|discriminate]);
       first [ lia
             | match goal with
               | A : forall id x, ?m !! id = Some x -> _, E : ?m !! ?j = Some _ |- _ =>
                   specialize (A _ _ E); lia
               end ]).

Lemma note_reserved_stays_ahead id quantity : keeps stays_ahead (note_reserved id quantity).
Proof. intros w r w' E. inversion E. subst. split; [apply seqs_le_refl | auto]. Qed.

Lemma productQueries_updateStock_stays_ahead id quantity :
  keeps stays_ahead (productQueries_updateStock id quantity).
Proof.
  unfold productQueries_updateStock.
  keeps_walk stays_ahead_refl stays_ahead_trans; try apply note_reserved_stays_ahead.
  all: unfold update_stock_stmt; ahead_rows_done.
Qed.

Lemma seqs_le_world_refl w : seqs_le (w_db w) (w_db w).
Proof. apply seqs_le_refl. Qed.

Lemma seqs_le_world_trans w1 w2 w3 :
  seqs_le (w_db w1) (w_db w2) -> seqs_le (w_db w2) (w_db w3) -> seqs_le (w_db w1) (w_db w3).
Proof. apply seqs_le_trans. Qed.

Lemma insert_items_seqs order_id items :
  keeps (fun w w' => seqs_le (w_db w) (w_db w'))
    (for_of items (fun item => sql (insert_order_item_stmt order_id item))).
Proof.
  keeps_walk seqs_le_world_refl seqs_le_world_trans;
    intros; rewrite ?w_db_advance; unfold seqs_le; cbn; lia.
Qed.

Lemma insert_order_rows_seqs userId items totalPrice w r w' :
  insert_order_rows userId items totalPrice w = (r, w') ->
  seqs_le (w_db w) (w_db w') /\
  (forall order, r = Ok order -> orders_id_seq (w_db w) < orders_id_seq (w_db w')).
Proof.
  unfold insert_order_rows. intros E.
  destruct (refused w) eqn:R1.
  { rewrite bind_sql_refused in E by exact R1. inversion E. subst.
    rewrite w_db_advance. split; [apply seqs_le_refl | discriminate]. }
  rewrite bind_sql_run in E by exact R1. cbn [fst snd nop_stmt] in E.
  destruct (refused (advance (w_db w) w)) eqn:R2.
  { rewrite bind_sql_refused in E by exact R2. inversion E. subst.
    rewrite !w_db_advance. split; [apply seqs_le_refl | discriminate]. }
  rewrite bind_sql_run in E by exact R2. rewrite w_db_advance in E.
  unfold insert_order_stmt in E.
  destruct (orders (w_db w) !! orders_id_seq (w_db w)) eqn:Efresh; cbn [fst snd] in E.
  { inversion E. subst. rewrite w_db_advance.
    split; [unfold seqs_le; cbn; lia | discriminate]. }
  unfold bind at 1 in E.
  match type of E with
  | context [for_of ?l ?b ?w3] => destruct (for_of l b w3) as [[u|e] w4] eqn:Eloop
  end; apply insert_items_seqs in Eloop; rewrite w_db_advance in Eloop;
    destruct Eloop as (So & Sp & Su); cbn in So, Sp, Su.
  - unfold bind, sql in E.
    destruct (refused w4); inversion E; subst; rewrite w_db_advance;
      (split; [unfold seqs_le; lia | intros; try discriminate; lia]).
  - inversion E. subst. split; [unfold seqs_le; lia | discriminate].
Qed.

Lemma orderQueries_create_seqs userId items totalPrice w r w' :
  orderQueries_create userId items totalPrice w = (r, w') ->
  seqs_le (w_db w) (w_db w') /\
  (forall order, r = Ok order -> orders_id_seq (w_db w) < orders_id_seq (w_db w')).
Proof.
  unfold orderQueries_create. intros E.
  destruct (refused w) eqn:R0.
  { rewrite bind_sql_refused in E by exact R0. inversion E. subst.
    rewrite w_db_advance. split; [apply seqs_le_refl | discriminate]. }
  rewrite bind_sql_run in E by exact R0. cbn [fst snd nop_stmt] in E.
  unfold try_catch in E. rewrite w_db_advance in E.
  destruct (insert_order_rows userId items totalPrice (advance (w_db w) w))
    as [[order|e] w1] eqn:Erows;
    apply insert_order_rows_seqs in Erows; rewrite w_db_advance in Erows;
    destruct Erows as (Hs & Hlt); inversion E; subst.
  - split; [exact Hs | intros; eapply Hlt; reflexivity].
  - split; [|discriminate]. destruct Hs as (So & Sp & Su). unfold seqs_le. cbn. lia.
Qed.

Lemma orderQueries_create_stays_ahead userId items totalPrice :
  keeps stays_ahead (orderQueries_create userId items totalPrice).
Proof.
  intros w r w' E.
  destruct (orderQueries_create_seqs _ _ _ _ _ _ E) as (Hs & Hlt).
  split; [exact Hs|].
  apply orderQueries_create_spec in E. destruct E as ((Hu & Hp & _) & Hr).
  destruct r as [order|e].
  - destruct Hr as (Horder & _ & Hord & rows & Hrows & HF).
    specialize (Hlt order eq_refl).
    intros (Ao & Ap & Au & Ai). destruct Hs as (So & Sp & Su).
    unfold ahead. rewrite Hu, Hp, Hord, Hrows. repeat split.
    + intros id o Ho. destruct (decide (o_id order = id)) as [<-|Hne].
      * rewrite Horder. cbn. exact Hlt.
      * rewrite lookup_insert_ne in Ho by exact Hne. specialize (Ao id o Ho). lia.
    + intros id p Ep. specialize (Ap id p Ep). lia.
    + eapply Forall_impl; [exact Au | cbn; intros; lia].
    + apply Forall_app. split; [eapply Forall_impl; [exact Ai | cbn; intros; lia]|].
      clear - HF Horder Hlt. induction HF as [|row line rows lines (Ho & _) _ IH];
        constructor; [|exact IH].
      rewrite Ho, Horder. cbn. exact Hlt.
  - destruct Hr as (Hord & Hrows). apply ahead_rows; assumption.
Qed.

Lemma validate_items_stays_ahead items totalPrice orderItems :
  keeps stays_ahead (validate_items items totalPrice orderItems).
Proof.
  eapply keeps_weaken; [apply untouched_stays_ahead | apply validate_items_untouched].
Qed.

Lemma post_api_orders_stays_ahead reply now body :
  keeps stays_ahead (post_api_orders reply now body).
Proof.
  unfold post_api_orders.
  keeps_walk stays_ahead_refl stays_ahead_trans.
  all: try apply validate_items_stays_ahead.
  all: try apply orderQueries_create_stays_ahead.
  all: try apply productQueries_updateStock_stays_ahead.
  all: ahead_rows_done.
Qed.

Section Ahead.
Context `{Runtime}.
Variable this : Server.

Lemma webhook_stays_ahead now req : keeps stays_ahead (post_api_webhook_plisio this now req).
Proof.
  unfold post_api_webhook_plisio.
  keeps_walk stays_ahead_refl stays_ahead_trans.
  all: try (intros; eapply keeps_weaken;
            [apply untouched_stays_ahead | apply notifyPaymentReceived_untouched]; fail).
  all: ahead_rows_done.
Qed.

Lemma bot_update_stays_ahead mock u : keeps stays_ahead (bot_update mock u).
Proof.
  unfold bot_update, bot_middleware.
  keeps_walk stays_ahead_refl stays_ahead_trans; ahead_rows_done.
Qed.

Lemma product_routes_stay_ahead e :
  match e with
  | PostProducts _ _ | PutProducts _ _ _ | DeleteProducts _ _ => True
  | _ => False
  end ->
  keeps stays_ahead (handle this e).
Proof.
  destruct e; try contradiction; intros _; cbn [handle];
    unfold post_api_products, put_api_products, delete_api_products, adminAuth;
    keeps_walk stays_ahead_refl stays_ahead_trans; ahead_rows_done.
Qed.

Lemma handle_stays_ahead e : keeps stays_ahead (handle this e).
Proof.
  destruct e; try (apply product_routes_stay_ahead; exact I); cbn [handle];
    (apply (keeps_bind _ stays_ahead_trans); [|intros; apply (keeps_ret _ stays_ahead_refl)]).
  - apply post_api_orders_stays_ahead.
  - apply webhook_stays_ahead.
  - apply bot_update_stays_ahead.
  - intros w r w' E. inversion E. subst. exact (stays_ahead_refl w).
Qed.

Lemma run_stays_ahead events : forall w, stays_ahead w (run this events w).
Proof.
  induction events as [|e events IH]; intros w; [apply stays_ahead_refl|].
  cbn [run]. eapply stays_ahead_trans; [|apply IH].
  eapply (handle_stays_ahead e). apply surjective_pairing.
Qed.
End Ahead.

(** ** Rows under their own keys *)

Lemma stays_keyed_refl w : stays_keyed w w.
Proof. intros K. exact K. Qed.

Lemma stays_keyed_trans w1 w2 w3 : stays_keyed w1 w2 -> stays_keyed w2 w3 -> stays_keyed w1 w3.
Proof. unfold stays_keyed. auto. Qed.

Lemma untouched_stays_keyed w w' : untouched w w' -> stays_keyed w w'.
Proof. intros (E & _). unfold stays_keyed. rewrite E. auto. Qed.

(** The goals that a statement leaves for [stays_keyed]. *)
Ltac keyed_rows_done :=
  intros; unfold stays_keyed; rewrite ?w_db_advance;
  repeat match goal with
         | |- context [match ?x ≫= ?f with _ => _ end] => destruct (x ≫= f)
         | |- context [match ?x with Some _ => _ | None => _ end] => destruct x eqn:?
         | |- context [if ?b then _ else _] => destruct b eqn:?
         end;
  intros (Kp & Ko & Ki); unfold keyed_rows, keyed; cbn;
  repeat split; auto;
  intros j v Hv;
  repeat match type of Hv with
         | context [alter ?f ?k ?m !! ?j] =>
             let e := fresh "e" in
             destruct (decide (k = j)) as [e|?];
             [rewrite e in *; rewrite lookup_alter_eq in Hv
             |rewrite lookup_alter_ne in Hv by assumption]
         | context [<[?k := ?x]> ?m !! ?j] =>
             let e := fresh "e" in
             destruct (decide (k = j)) as [e|?];
             [rewrite e in *; rewrite lookup_insert_eq in Hv
             |rewrite lookup_insert_ne in Hv by assumption]
         end;
  try (destruct (_ !! j) eqn:Hold in Hv; cbn in Hv; [|discriminate]);
  try (inversion Hv; subst; clear Hv); cbn; eauto.

Lemma note_reserved_stays_keyed id quantity : keeps stays_keyed (note_reserved id quantity).
Proof. intros w r w' E. inversion E. subst. intros K. exact K. Qed.

Lemma productQueries_updateStock_stays_keyed id quantity :
  keeps stays_keyed (productQueries_updateStock id quantity).
Proof.
  unfold productQueries_updateStock.
  keeps_walk stays_keyed_refl stays_keyed_trans; try apply note_reserved_stays_keyed.
  all: unfold update_stock_stmt; keyed_rows_done.
Qed.

Lemma orderQueries_create_stays_keyed userId items totalPrice :
  keeps stays_keyed (orderQueries_create userId items totalPrice).
Proof.
  intros w r w' E. apply orderQueries_create_spec in E.
  destruct E as ((_ & Hp & Hi & _) & Hr). intros (Kp & Ko & Ki).
  unfold keyed_rows, keyed. rewrite Hp, Hi. split; [exact Kp|]. split; [|exact Ki].
  destruct r as [order|e].
  - destruct Hr as (_ & _ & Hord & _). rewrite Hord. intros id o Ho.
    destruct (decide (o_id order = id)) as [<-|Hne].
    + rewrite lookup_insert_eq in Ho. congruence.
    + rewrite lookup_insert_ne in Ho by exact Hne. eauto.
  - destruct Hr as (Hord & _). rewrite Hord. exact Ko.
Qed.

Lemma post_api_orders_stays_keyed reply now body :
  keeps stays_keyed (post_api_orders reply now body).
Proof.
  unfold post_api_orders.
  keeps_walk stays_keyed_refl stays_keyed_trans.
  all: try (eapply keeps_weaken; [apply untouched_stays_keyed | apply validate_items_untouched]).
  all: try apply orderQueries_create_stays_keyed.
  all: try apply productQueries_updateStock_stays_keyed.
  all: keyed_rows_done.
Qed.

Section Keyed.
Context `{Runtime}.
Variable this : Server.

Lemma webhook_stays_keyed now req : keeps stays_keyed (post_api_webhook_plisio this now req).
Proof.
  unfold post_api_webhook_plisio.
  keeps_walk stays_keyed_refl stays_keyed_trans.
  all: try (intros; eapply keeps_weaken;
            [apply untouched_stays_keyed | apply notifyPaymentReceived_untouched]; fail).
  all: keyed_rows_done.
Qed.

Lemma bot_update_stays_keyed mock u : keeps stays_keyed (bot_update mock u).
Proof.
  unfold bot_update, bot_middleware.
  keeps_walk stays_keyed_refl stays_keyed_trans; keyed_rows_done.
Qed.

Lemma product_routes_stay_keyed e :
  match e with
  | PostProducts _ _ | PutProducts _ _ _ | DeleteProducts _ _ => True
  | _ => False
  end ->
  keeps stays_keyed (handle this e).
Proof.
  destruct e; try contradiction; intros _; cbn [handle];
    unfold post_api_products, put_api_products, delete_api_products, adminAuth;
    keeps_walk stays_keyed_refl stays_keyed_trans; keyed_rows_done.
Qed.

Lemma handle_stays_keyed e : keeps stays_keyed (handle this e).
Proof.
  destruct e; try (apply product_routes_stay_keyed; exact I); cbn [handle];
    (apply (keeps_bind _ stays_keyed_trans); [|intros; apply (keeps_ret _ stays_keyed_refl)]).
  - apply post_api_orders_stays_keyed.
  - apply webhook_stays_keyed.
  - apply bot_update_stays_keyed.
  - intros w r w' E. inversion E. subst. exact (stays_keyed_refl w).
Qed.

Lemma run_stays_keyed events : forall w, stays_keyed w (run this events w).
Proof.
  induction events as [|e events IH]; intros w; [apply stays_keyed_refl|].
  cbn [run]. eapply stays_keyed_trans; [|apply IH].
  eapply (handle_stays_keyed e). apply surjective_pairing.
Qed.
End Keyed.

Lemma fresh_db_ahead : ahead fresh_db.
Proof.
  split; [|split; [|split]].
  - intros id o Ho. cbn in Ho. rewrite lookup_empty in Ho. discriminate.
  - intros id p Hp. cbn in Hp.
    destruct (decide (1 = id)) as [<-|H1]; [cbn; lia|].
    rewrite lookup_insert_ne in Hp by exact H1.
    destruct (decide (2 = id)) as [<-|H2]; [cbn; lia|].
    rewrite lookup_insert_ne, lookup_empty in Hp by exact H2. discriminate.
  - repeat constructor.
  - constructor.
Qed.

Lemma fresh_db_keyed : keyed_rows fresh_db.
Proof.
  split; [|split].
  - intros id p Hp. cbn in Hp.
    destruct (decide (1 = id)) as [<-|H1];
      [rewrite lookup_insert_eq in Hp; inversion Hp; reflexivity|].
    rewrite lookup_insert_ne in Hp by exact H1.
    destruct (decide (2 = id)) as [<-|H2];
      [rewrite lookup_insert_eq in Hp; inversion Hp; reflexivity|].
    rewrite lookup_insert_ne, lookup_empty in Hp by exact H2. discriminate.
  - intros id o Ho. cbn in Ho. rewrite lookup_empty in Ho. discriminate.
  - intros key inv Hi. cbn in Hi. rewrite lookup_empty in Hi. discriminate.
Qed.

(** ** A completed webhook under every schedule of refusals *)

Lemma refused_within_S n w d :
  refused_within (S n) w = refused w || refused_within n (advance d w).
Proof.
  unfold refused_within, refused. rewrite w_refusals_advance.
  destruct (w_refusals w) as [|[] fs]; cbn; rewrite ?take_nil; reflexivity.
Qed.

Lemma refused_within_accepted n w : accepted n w -> refused_within n w = false.
Proof.
  revert w. induction n as [|n IH]; intros w Hacc; [reflexivity|].
  rewrite (refused_within_S n w (w_db w)), (accepted_S n w Hacc).
  apply IH, accepted_advance, Hacc.
Qed.

Section Completed.
Context `{Runtime}.
Variables (this : Server) (now : Z) (req : webhookRequest).

(** A verified completed payload for an invoice on file whose order and
    customer are on file is answered 500 under every schedule: by a refusal,
    or else by the first grant. The invoice is marked once the lookup and its
    update are accepted, the order once its update is accepted as well. *)
Lemma webhook_completed_any w key inv o u :
  verifyWebhookSignature (plisio this) (wr_body req) (signature_of req) = true ->
  wr_body req !! "status" = Some (JStr "completed") ->
  (wr_body req !! "txn_id") ≫= pg_text = Some key ->
  invoices (w_db w) !! key = Some inv ->
  orders (w_db w) !! i_order_id inv = Some o ->
  List.find (fun u => u_id u =? o_user_id o) (users (w_db w)) = Some u ->
  exists w',
    post_api_webhook_plisio this now req w
    = (Ok (json 500 (Error "Webhook processing failed")), w') /\
    invoices (w_db w')
    = (if refused_within 2 w then invoices (w_db w)
       else <[key := with_invoice_status "paid" (Some now) inv]> (invoices (w_db w))) /\
    orders (w_db w')
    = (if refused_within 3 w then orders (w_db w)
       else <[i_order_id inv := with_order_status "paid" (current_timestamp (w_db w)) o]>
              (orders (w_db w))) /\
    users (w_db w') = users (w_db w) /\ products (w_db w') = products (w_db w) /\
    order_items (w_db w') = order_items (w_db w) /\
    purchased_products (w_db w') = purchased_products (w_db w) /\
    w_sent w' = w_sent w /\ w_reserved w' = w_reserved w.
Proof.
  intros Hv Hs Hk Hinv Ho Hu.
  unfold post_api_webhook_plisio, try_catch. rewrite Hv.
  cbn [negb]. cbv zeta. unfold processWebhook. cbn [invoiceId status isPaid].
  rewrite Hs, Hk, mapPlisioStatus_completed. cbn [String.eqb Ascii.eqb Bool.eqb pg_status].
  unfold invoiceQueries_getByPlisioId.
  rewrite (refused_within_S 1 w (w_db w)), (refused_within_S 2 w (w_db w)).
  destruct (refused w) eqn:R1.
  { rewrite bind_sql_refused by exact R1. cbn [orb]. eexists. split; [reflexivity|].
    rewrite w_db_advance, w_sent_advance, w_reserved_advance. auto 10. }
  rewrite bind_sql_run by exact R1. cbn [fst snd mbind option_bind orb]. rewrite Hinv.
  set (w1 := advance (w_db w) w).
  unfold invoiceQueries_updateStatus.
  set (d2 := set_invoices (alter (with_invoice_status "paid" (Some now)) key) (w_db w)).
  rewrite (refused_within_S 0 w1 d2), (refused_within_S 1 w1 d2).
  destruct (refused w1) eqn:R2.
  { rewrite bind_sql_refused by exact R2. cbn [orb]. eexists. split; [reflexivity|].
    subst w1. rewrite !w_db_advance, !w_sent_advance, !w_reserved_advance. auto 10. }
  rewrite bind_sql_run by exact R2. cbn [fst snd orb]. subst w1. rewrite w_db_advance.
  fold d2. set (w2 := advance d2 (advance (w_db w) w)).
  cbn [refused_within take existsb].
  assert (Hinv2 : invoices d2 = <[key := with_invoice_status "paid" (Some now) inv]>
                                  (invoices (w_db w)))
    by (subst d2; cbn; apply alter_alt_Some, Hinv).
  rewrite bind_assoc. unfold orderQueries_updateStatus.
  set (d3 := set_orders (alter (with_order_status "paid" (current_timestamp d2))
                           (i_order_id inv)) d2).
  rewrite (refused_within_S 0 w2 d3).
  destruct (refused w2) eqn:R3.
  { rewrite bind_sql_refused by exact R3. cbn [orb]. eexists. split; [reflexivity|].
    subst w2. rewrite !w_db_advance, !w_sent_advance, !w_reserved_advance.
    rewrite Hinv2. subst d2. cbn. auto 10. }
  rewrite bind_sql_run by exact R3. cbn [fst snd orb refused_within take existsb].
  subst w2. rewrite w_db_advance. fold d3.
  set (w3 := advance d3 (advance d2 (advance (w_db w) w))).
  assert (Hord3 : orders d3 = <[i_order_id inv :=
                                  with_order_status "paid" (current_timestamp (w_db w)) o]>
                                (orders (w_db w)))
    by (subst d3 d2; cbn; apply alter_alt_Some, Ho).
  assert (Hrest : forall r w', 
            (order <- orderQueries_getById (i_order_id inv) ;;
             match order with
             | Some order =>
                 for_of (ov_items order)
                   (fun item =>
                      purchasedProductQueries_create (o_user_id (ov_order order))
                        (iv_product_id item) (i_order_id inv))
             | None => ret tt
             end ;;;
             notifyPaymentReceived (i_order_id inv)) w3 = (r, w') ->
            untouched w3 w' /\ exists e, r = Throw e).
  { intros r w' E. split; [eapply after_order_update_untouched, E|].
    unfold orderQueries_getById in E.
    destruct (refused w3) eqn:R4.
    - rewrite bind_sql_refused in E by exact R4. inversion E. eauto.
    - rewrite bind_sql_run in E by exact R4. cbn [fst snd] in E.
      subst w3. rewrite w_db_advance in E.
      assert (Hview : exists ov, get_order d3 (i_order_id inv) = Some ov).
      { unfold get_order. rewrite Hord3, lookup_insert_eq. cbn [o_user_id with_order_status].
        subst d3 d2. cbn [users set_orders set_invoices]. rewrite Hu. eauto. }
      destruct Hview as [ov Hov]. rewrite Hov in E.
      unfold bind at 1 in E.
      rewrite grants_loop_throws in E by (eapply getById_items_nonempty; eauto).
      inversion E. eauto. }
  match goal with
  | |- context [bind ?m ?k w3] =>
      destruct (bind m k w3) as [r4 w4] eqn:E4;
      assert (Hun : untouched w3 w4 /\ exists e, r4 = Throw e)
  end.
  { unfold bind at 1 in E4.
    match type of E4 with
    | context [bind ?m ?k w3] => destruct (bind m k w3) as [r5 w5] eqn:E5
    end.
    destruct (Hrest _ _ eq_refl) as (Hun & e & ->). inversion E4. subst. eauto. }
  destruct Hun as ((Hdb & Hsent & Hres) & e & ->).
  eexists. split; [reflexivity|]. rewrite Hdb, Hsent, Hres.
  subst w3. rewrite !w_db_advance, !w_sent_advance, !w_reserved_advance.
  rewrite Hord3. subst d3. cbn [invoices set_orders]. rewrite Hinv2.
  subst d2. cbn. auto 10.
Qed.
End Completed.

(** ** The ledger of reservations *)

Lemma ledger_grew_refl P w : ledger_grew P w w.
Proof. exists []. rewrite app_nil_r. auto. Qed.

Lemma ledger_grew_trans P w1 w2 w3 :
  ledger_grew P w1 w2 -> ledger_grew P w2 w3 -> ledger_grew P w1 w3.
Proof.
  intros (a1 & E1 & F1) (a2 & E2 & F2). exists (a1 ++ a2).
  rewrite E2, E1, app_assoc. split; [reflexivity | apply Forall_app; auto].
Qed.

Lemma same_ledger_refl w : same_ledger w w.
Proof. reflexivity. Qed.

Lemma same_ledger_trans w1 w2 w3 : same_ledger w1 w2 -> same_ledger w2 w3 -> same_ledger w1 w3.
Proof. unfold same_ledger. congruence. Qed.

Lemma same_ledger_grew P w w' : same_ledger w w' -> ledger_grew P w w'.
Proof. intros E. exists []. rewrite app_nil_r. auto. Qed.

Lemma productQueries_updateStock_ledger (P : Z -> Prop) id quantity :
  P quantity -> keeps (ledger_grew P) (productQueries_updateStock id quantity).
Proof.
  intros HP w r w' E. unfold productQueries_updateStock in E.
  destruct (refused w) eqn:R.
  { rewrite bind_sql_refused in E by exact R. inversion E. subst.
    apply same_ledger_grew. apply w_reserved_advance. }
  rewrite bind_sql_run in E by exact R.
  destruct (update_stock_stmt id quantity (w_db w)) as [[[|]|e] d]; cbn in E;
    inversion E; subst; try (apply same_ledger_grew; apply w_reserved_advance).
  exists [(id, quantity)]. cbn. rewrite ?w_reserved_advance. split; [reflexivity|].
  constructor; [exact HP | constructor].
Qed.

Lemma keeps_for_of_Forall (R : world -> world -> Prop) {A} (Q : A -> Prop) (l : list A) body :
  (forall w, R w w) -> (forall w1 w2 w3, R w1 w2 -> R w2 w3 -> R w1 w3) ->
  (forall x, Q x -> keeps R (body x)) -> Forall Q l -> keeps R (for_of l body).
Proof.
  intros refl trans Hb HF. induction HF as [|x l Hx _ IH]; simpl.
  - apply (keeps_ret _ refl).
  - apply (keeps_bind _ trans); [apply Hb, Hx | intros _; exact IH].
Qed.

(** The lines that the validation loop hands on carry the quantities of the
    request. *)
Lemma priced_quantities (P : Z -> Prop) d its lines :
  Forall2 (priced d) its lines ->
  Forall (fun item => P (item_quantity item)) its ->
  Forall (fun line => P (quantity line)) lines.
Proof.
  induction 1 as [|item line its lines (p & _ & _ & _ & ->) _ IH]; intros HF;
    inversion HF; subst; constructor; auto.
Qed.

Lemma post_api_orders_ledger (P : Z -> Prop) reply now body :
  (forall its, items body = Some its -> Forall (fun item => P (item_quantity item)) its) ->
  keeps (ledger_grew P) (post_api_orders reply now body).
Proof.
  intros HP w r w' E. unfold post_api_orders, try_catch in E.
  destruct (telegram_id body) as [[|t|t]|]; destruct (items body) as [[|item its]|] eqn:Hits;
    try (inversion E; subst; apply ledger_grew_refl).
  all: specialize (HP _ eq_refl).
  all: unfold userQueries_findByTelegramId in E;
    (destruct (refused w) eqn:R;
     [rewrite bind_sql_refused in E by exact R; inversion E; subst;
      apply same_ledger_grew; reflexivity|]);
    rewrite bind_sql_run in E by exact R; cbn [fst snd] in E;
    (destruct (List.find _ (users (w_db w))) as [u|];
     [|inversion E; subst; apply same_ledger_grew; reflexivity]).
  all: unfold bind at 1 in E;
    match type of E with
    | context [validate_items ?l ?t ?a ?w0] =>
        destruct (validate_items l t a w0) as [[[rejected|[totalPrice lines]]|e] w1] eqn:Ev;
        pose proof (validate_items_untouched _ _ _ _ _ _ Ev) as (Hd & Hs & Hl)
    end;
    rewrite w_reserved_advance in Hl;
    try (inversion E; subst; apply same_ledger_grew; exact Hl).
  all: apply validate_items_passed in Ev; destruct Ev as (new & Hpriced & Hlines & _);
    cbn [app] in Hlines; subst lines;
    pose proof (priced_quantities P _ _ _ Hpriced HP) as Hq.
  all: unfold bind at 1 in E;
    destruct (orderQueries_create (u_id u) new totalPrice w1) as [[order|e] w2] eqn:Ec;
    apply orderQueries_create_spec in Ec; destruct Ec as ((_ & _ & _ & _ & _ & Hl2) & _);
    [|inversion E; subst; apply same_ledger_grew; unfold same_ledger; rewrite Hl2, Hl; reflexivity].
  all: match type of E with
       | context [bind ?m ?k ?w0] =>
           assert (Hrest : keeps (ledger_grew P) (bind m k));
           [|destruct (bind m k w0) as [r3 w3] eqn:Et; apply Hrest in Et;
             assert (w3 = w') by (destruct r3; inversion E; reflexivity); subst w3;
             apply (ledger_grew_trans P _ w0);
             [apply same_ledger_grew; unfold same_ledger; congruence | exact Et]]
       end.
  all: apply (keeps_bind _ (ledger_grew_trans P));
    [destruct reply; cbn [createInvoice];
     [apply (keeps_ret _ (ledger_grew_refl P)) | apply (keeps_throw _ (ledger_grew_refl P))]|];
    intros plisioInvoice; apply (keeps_bind _ (ledger_grew_trans P));
    [unfold invoiceQueries_create; apply keeps_sql; intros w0;
     apply same_ledger_grew; unfold same_ledger; rewrite w_reserved_advance; reflexivity|];
    intros invoice; apply (keeps_bind _ (ledger_grew_trans P));
    [|intros; apply (keeps_ret _ (ledger_grew_refl P))];
    apply (keeps_for_of_Forall _ (fun line => P (quantity line)));
    [apply ledger_grew_refl | apply ledger_grew_trans | | exact Hq];
    intros line Hline; apply (keeps_bind _ (ledger_grew_trans P));
    [apply productQueries_updateStock_ledger, Hline
    |intros; apply (keeps_ret _ (ledger_grew_refl P))].
Qed.

(** An insert of a product and a soft delete keep the account of every
    product. *)
Lemma productQueries_create_accounts S pid data :
  keeps (stays_accounted S pid) (productQueries_create data).
Proof.
  unfold productQueries_create. apply keeps_sql; intros w; [intros A; exact A|].
  unfold stays_accounted, accounts_for. rewrite w_db_advance, w_reserved_advance.
  intros (p & Hp & Hnn & Hsum).
  destruct (pd_name data) as [name|]; [|exists p; auto].
  destruct (pd_stock data) as [stock|]; [|exists p; auto].
  destruct (products (w_db w) !! products_id_seq (w_db w)) eqn:Ef; [exists p; auto|].
  exists p. cbn. rewrite lookup_insert_ne by congruence. auto.
Qed.

Lemma productQueries_delete_accounts S pid id :
  keeps (stays_accounted S pid) (productQueries_delete id).
Proof.
  unfold productQueries_delete. apply keeps_sql; intros w; [intros A; exact A|].
  unfold stays_accounted, accounts_for. rewrite w_db_advance, w_reserved_advance.
  intros (p & Hp & Hnn & Hsum).
  cbn. destruct (decide (id = pid)) as [->|Hne].
  - rewrite lookup_alter_eq, Hp. eexists. split; [reflexivity|]. cbn. auto.
  - rewrite lookup_alter_ne by exact Hne. exists p. auto.
Qed.

Section Ledger.
Context `{Runtime}.
Variable this : Server.

Lemma webhook_same_ledger now req : keeps same_ledger (post_api_webhook_plisio this now req).
Proof.
  intros w r w' E. apply webhook_same_stock in E. apply E.
Qed.

Lemma bot_update_same_ledger mock u : keeps same_ledger (bot_update mock u).
Proof.
  intros w r w' E. apply bot_update_untouched_rows in E. apply E.
Qed.

Lemma product_routes_same_ledger e :
  match e with
  | PostProducts _ _ | PutProducts _ _ _ | DeleteProducts _ _ => True
  | _ => False
  end ->
  keeps same_ledger (handle this e).
Proof.
  destruct e; try contradiction; intros _; cbn [handle];
    unfold post_api_products, put_api_products, delete_api_products, adminAuth;
    keeps_walk same_ledger_refl same_ledger_trans; unfold same_ledger; rows_done.
Qed.

Lemma handle_ledger (P : Z -> Prop) e : quantities P e -> keeps (ledger_grew P) (handle this e).
Proof.
  intros HP.
  destruct e;
    try (eapply keeps_weaken; [apply same_ledger_grew|];
         apply product_routes_same_ledger; exact I);
    cbn [handle];
    (apply (keeps_bind _ (ledger_grew_trans P));
     [|intros; apply (keeps_ret _ (ledger_grew_refl P))]).
  - apply post_api_orders_ledger, HP.
  - eapply keeps_weaken; [apply same_ledger_grew | apply webhook_same_ledger].
  - eapply keeps_weaken; [apply same_ledger_grew | apply bot_update_same_ledger].
  - intros w r w' E. inversion E. subst. apply (ledger_grew_refl P w).
Qed.

Lemma run_ledger (P : Z -> Prop) events : forall w,
  Forall (quantities P) events -> ledger_grew P w (run this events w).
Proof.
  induction events as [|e events IH]; intros w HF; [apply ledger_grew_refl|].
  inversion HF. subst. cbn [run].
  eapply ledger_grew_trans; [|apply IH; assumption].
  eapply (handle_ledger P e); [assumption | apply surjective_pairing].
Qed.

Lemma quantities_any e : quantities (fun _ => True) e.
Proof.
  destruct e; cbn; auto. intros its _. apply Forall_forall. auto.
Qed.

(** Every request but an administrative update keeps the account of every
    product. *)
Lemma handle_stays_accounted S id e :
  no_product_update e -> keeps (stays_accounted S id) (handle this e).
Proof.
  destruct e; cbn [no_product_update handle]; intros Hb; try contradiction;
    (apply (keeps_bind _ (stays_accounted_trans S id));
     [|intros; apply (keeps_ret _ (stays_accounted_refl S id))]).
  - apply post_api_orders_keeps;
      [apply stays_accounted_refl | apply stays_accounted_trans
      | apply same_stock_stays_accounted | intros; apply productQueries_updateStock_accounts].
  - eapply keeps_weaken; [apply same_stock_stays_accounted | apply webhook_same_stock].
  - unfold post_api_products, adminAuth.
    keeps_structure (stays_accounted_refl S id) (stays_accounted_trans S id).
    apply productQueries_create_accounts.
  - unfold delete_api_products, adminAuth.
    keeps_structure (stays_accounted_refl S id) (stays_accounted_trans S id).
    apply productQueries_delete_accounts.
  - eapply keeps_weaken; [|apply bot_update_untouched_rows].
    intros w w' (Hs & _). apply same_stock_stays_accounted, Hs.
  - intros w r w' E. inversion E. subst. intros A. exact A.
Qed.

Lemma run_keeps_accounts S id events : forall w,
  Forall no_product_update events -> stays_accounted S id w (run this events w).
Proof.
  induction events as [|e events IH]; intros w HF; [apply stays_accounted_refl|].
  inversion HF as [|? ? He HF']. subst. cbn [run].
  eapply stays_accounted_trans; [|apply IH; assumption].
  eapply (handle_stays_accounted S id e); [assumption | apply surjective_pairing].
Qed.
End Ledger.

(** ** The registration middleware *)

Lemma touch_none (t now : Z) (us : list user) :
  List.find (fun u => u_telegram_id u =? t) us = None -> touch t now us = us.
Proof.
  unfold touch. induction us as [|x us IH]; cbn; [reflexivity|].
  destruct (u_telegram_id x =? t); [discriminate|]. intros E. rewrite IH by exact E. reflexivity.
Qed.

Lemma touch_app (t now : Z) (us us' : list user) :
  touch t now (us ++ us') = touch t now us ++ touch t now us'.
Proof. unfold touch. apply map_app. Qed.

(** A customer found by Telegram id is found again among the same users,
    whatever follows them. *)
Lemma find_same_users (t : Z) (us old more : list user) (u : user) :
  same_users us old ->
  List.find (fun u => u_telegram_id u =? t) us = Some u ->
  exists u', List.find (fun u => u_telegram_id u =? t) (old ++ more) = Some u' /\
             u_id u' = u_id u /\ u_telegram_id u' = u_telegram_id u.
Proof.
  induction 1 as [|x x' us old (Hi & Ht) _ IH]; cbn; [discriminate|].
  rewrite Ht. destruct (u_telegram_id x =? t).
  - intros E. inversion E. subst. eauto.
  - exact IH.
Qed.

(** * The claims *)

(** ** The webhook route *)

(** C3. The database module exports no [purchasedProductQueries], so the
    first grant throws: [getById] never returns an order without an element
    in [items], and the call on the first of them raises a TypeError without
    touching anything. In every run of the webhook route no grant is recorded
    and no message is sent. In every state [w] that the requests reach from a
    state whose references resolve, when a verified completed payload resolves
    to an invoice and the lookup and the two updates are accepted, the order
    of the invoice is on file and the route answers 500 with the invoice row
    already reading status "paid" and the time of the request as [paid_at],
    and the order row already reading status "paid" (its [updated_at] set by
    the trigger), every other column of both rows as before. *)
Theorem fulfilment_always_throws `{Runtime} (this : Server) (now : Z)
    (req : webhookRequest) (w0 : world) (events : list event) (w : world)
    (key : string) (inv : invoice) :
  linked (w_db w0) ->
  w = run this events w0 ->
  verifyWebhookSignature (plisio this) (wr_body req) (signature_of req) = true ->
  wr_body req !! "status" = Some (JStr "completed") ->
  wr_body req !! "txn_id" = Some (JStr key) ->
  invoices (w_db w) !! key = Some inv ->
  accepted 3 w ->
  (forall d id view user_id order_id w1,
      get_order d id = Some view ->
      for_of (ov_items view)
        (fun item => purchasedProductQueries_create user_id (iv_product_id item) order_id) w1
      = (Throw TypeError, w1)) /\
  (forall now1 req1 w1 r1 w2,
      post_api_webhook_plisio this now1 req1 w1 = (r1, w2) ->
      purchased_products (w_db w2) = purchased_products (w_db w1) /\
      w_sent w2 = w_sent w1) /\
  exists o w',
    orders (w_db w) !! i_order_id inv = Some o /\
    post_api_webhook_plisio this now req w
    = (Ok (json 500 (Error "Webhook processing failed")), w') /\
    invoices (w_db w') !! key
    = Some {| i_id := i_id inv; i_order_id := i_order_id inv;
              i_plisio_invoice_id := i_plisio_invoice_id inv;
              i_currency := i_currency inv; i_amount := i_amount inv;
              i_amount_usd := i_amount_usd inv; i_status := "paid";
              i_invoice_url := i_invoice_url inv; i_qr_code_url := i_qr_code_url inv;
              i_wallet_hash := i_wallet_hash inv; i_paid_at := Some now;
              i_expires_at := i_expires_at inv |} /\
    orders (w_db w') !! i_order_id inv
    = Some {| o_id := o_id o; o_user_id := o_user_id o; o_total_price := o_total_price o;
              o_status := "paid"; o_updated_at := current_timestamp (w_db w) |} /\
    purchased_products (w_db w') = purchased_products (w_db w) /\
    w_sent w' = w_sent w.
Proof.
  intros L Hw Hv Hs Hk Hinv Hacc. apply txn_id_resolves in Hk. split.
  { intros d id view user_id order_id w1 Hview.
    apply grants_loop_throws. eapply getById_items_nonempty, Hview. }
  split.
  { intros now1 req1 w1 r1 w2 E. exact (webhook_same_grants this now1 req1 w1 r1 w2 E). }
  assert (L' : linked (w_db w)) by (subst w; apply run_stays_linked; exact L).
  destruct (L' key inv Hinv) as (o & u & Ho & Hu).
  destruct (webhook_completed_any this now req w key inv o u Hv Hs Hk Hinv Ho Hu)
    as (w' & E & Hi & Hord & _ & _ & _ & Hg & Hsent & _).
  rewrite (refused_within_accepted 2 w) in Hi by (intros i Hi'; apply Hacc; lia).
  rewrite (refused_within_accepted 3 w Hacc) in Hord.
  exists o, w'. split; [exact Ho|]. split; [exact E|].
  rewrite Hi, Hord, !lookup_insert_eq. auto.
Qed.

Lemma fulfilment_always_throws_witness :
  exists o w',
    orders (w_db ordered_world_at_5) !! 1 = Some o /\
    @post_api_webhook_plisio stub_runtime shop 7 completed_webhook ordered_world_at_5
    = (Ok (json 500 (Error "Webhook processing failed")), w') /\
    invoices (w_db w') !! "inv1"
    = Some {| i_id := 1; i_order_id := 1; i_plisio_invoice_id := "inv1";
              i_currency := "BTC"; i_amount := 150000; i_amount_usd := 9999;
              i_status := "paid"; i_invoice_url := "https://plisio.net/invoice/inv1";
              i_qr_code_url := "qr"; i_wallet_hash := "wallet"; i_paid_at := Some 7;
              i_expires_at := 86400000 |} /\
    orders (w_db w') !! 1
    = Some {| o_id := o_id o; o_user_id := o_user_id o; o_total_price := o_total_price o;
              o_status := "paid"; o_updated_at := 5 |} /\
    purchased_products (w_db w') = purchased_products (w_db ordered_world_at_5) /\
    w_sent w' = w_sent ordered_world_at_5.
Proof.
  refine (proj2 (proj2
    (@fulfilment_always_throws stub_runtime shop 7 completed_webhook
       (world_of fresh_db []) [PostOrders (Some gateway_reply) 0 one_course; Clock 5]
       ordered_world_at_5 "inv1" invoice1 _ _ _ _ _ _ _))).
  - intros key inv Hinv. cbn in Hinv. rewrite lookup_empty in Hinv. discriminate.
  - reflexivity.
  - vm_compute. reflexivity.
  - vm_compute. reflexivity.
  - vm_compute. reflexivity.
  - vm_compute. reflexivity.
  - apply accepted_nil. vm_compute. reflexivity.
Defined.

(** The same request in full: the rows as they stand behind the 500. *)
Example fulfilment_outcome :
  let w' := snd (@post_api_webhook_plisio stub_runtime shop 7 completed_webhook
                   ordered_world_at_5) in
  orders (w_db w') !! 1
  = Some {| o_id := 1; o_user_id := 1; o_total_price := 9999; o_status := "paid";
            o_updated_at := 5 |} /\
  i_status <$> invoices (w_db w') !! "inv1" = Some "paid" /\
  i_paid_at <$> invoices (w_db w') !! "inv1" = Some (Some 7) /\
  purchased_products (w_db w') = [] /\ w_sent w' = [].
Proof. vm_compute. auto. Qed.

(** C4, as the code has it. The invoice is updated by an unconditional
    statement keyed by the external id. For every verified payload that
    resolves to an invoice, once the lookup and the update are accepted,
    whatever the row held before: if the status of the payload is the string
    "completed" the row reads status "paid" and the time of the request as
    [paid_at]; otherwise it reads the text of the mapped status and no
    [paid_at], and the answer is 200. The mapped status is the entry of the
    table for "new", "pending", "expired", "cancelled" and "error", the
    inherited member for the name of a member of [Object.prototype], and
    "unknown" for every other string and for a payload without status; a
    status that is not a string is mapped as the string it renders to. *)
Theorem invoice_update_unconditional `{Runtime} (this : Server) (now : Z)
    (req : webhookRequest) (w : world) (key : string) (inv : invoice)
    (r : outcome response) (w' : world) :
  verifyWebhookSignature (plisio this) (wr_body req) (signature_of req) = true ->
  wr_body req !! "txn_id" = Some (JStr key) ->
  invoices (w_db w) !! key = Some inv ->
  accepted 2 w ->
  post_api_webhook_plisio this now req w = (r, w') ->
  let sent := wr_body req !! "status" in
  let stored := pg_status (mapPlisioStatus sent) in
  let row status paid_at :=
    {| i_id := i_id inv; i_order_id := i_order_id inv;
       i_plisio_invoice_id := i_plisio_invoice_id inv;
       i_currency := i_currency inv; i_amount := i_amount inv;
       i_amount_usd := i_amount_usd inv; i_status := status;
       i_invoice_url := i_invoice_url inv; i_qr_code_url := i_qr_code_url inv;
       i_wallet_hash := i_wallet_hash inv; i_paid_at := paid_at;
       i_expires_at := i_expires_at inv |} in
  (sent = Some (JStr "completed") ->
   invoices (w_db w') = <[key := row "paid" (Some now)]> (invoices (w_db w))) /\
  (sent <> Some (JStr "completed") ->
   invoices (w_db w') = <[key := row stored None]> (invoices (w_db w)) /\
   r = Ok (json 200 Success)) /\
  (forall s mapped,
      In (s, mapped) [("new", "pending"); ("pending", "pending"); ("expired", "expired");
                      ("cancelled", "cancelled"); ("error", "failed")] ->
      sent = Some (JStr s) -> stored = mapped) /\
  (forall s, In s Object_prototype -> sent = Some (JStr s) -> stored = pg_text_inherited s) /\
  (forall s,
      ~ In s ["new"; "pending"; "completed"; "expired"; "cancelled"; "error"] ->
      ~ In s Object_prototype ->
      sent = Some (JStr s) -> stored = "unknown") /\
  (sent = None -> stored = "unknown") /\
  (forall v,
      sent = Some v -> stored = pg_status (mapPlisioStatus (Some (JStr (js_to_string v))))).
Proof.
  intros Hv Hk Hinv Hacc E sent stored row. apply txn_id_resolves in Hk.
  destruct (webhook_overwrites this now req w key inv r w' Hv Hk Hinv Hacc E) as (Hrow & H200).
  cbv zeta in Hrow, H200. unfold processWebhook in Hrow, H200. cbn [status isPaid] in Hrow, H200.
  fold sent in Hrow, H200. fold stored in Hrow.
  split; [|split; [|split; [|split; [|split; [|split]]]]].
  - intros Hs. rewrite Hs in Hrow. cbn [String.eqb Ascii.eqb Bool.eqb] in Hrow.
    subst stored. rewrite Hs, mapPlisioStatus_completed in Hrow. exact Hrow.
  - intros Hs.
    assert (Hp : match sent with
                 | Some (JStr s) => String.eqb s "completed"
                 | _ => false
                 end = false).
    { destruct sent as [[| |s|]|]; try reflexivity.
      apply String.eqb_neq. congruence. }
    rewrite Hp in Hrow. split; [exact Hrow | exact (H200 Hp)].
  - intros s mapped Hin Hs. subst stored. rewrite Hs.
    cbn in Hin. repeat destruct Hin as [Hin|Hin]; try contradiction;
      inversion Hin; subst; reflexivity.
  - intros s Hin Hs. subst stored. rewrite Hs.
    cbn in Hin. repeat destruct Hin as [Hin|Hin]; try contradiction; subst; reflexivity.
  - intros s Hout Hproto Hs. subst stored. rewrite Hs.
    unfold mapPlisioStatus. cbn [from_option js_to_string].
    repeat match goal with
           | |- context [String.eqb s ?k] =>
               destruct (String.eqb_spec s k); [exfalso; apply Hout; subst; cbn; tauto|]
           end.
    destruct (existsb (String.eqb s) Object_prototype) eqn:Ex; [|reflexivity].
    exfalso. apply Hproto. apply existsb_exists in Ex. destruct Ex as (x & Hx & Hsx).
    apply String.eqb_eq in Hsx. subst. exact Hx.
  - intros Hs. subst stored. rewrite Hs. reflexivity.
  - intros v Hs. subst stored. rewrite Hs. reflexivity.
Qed.

Lemma invoice_update_unconditional_witness :
  let completed := @post_api_webhook_plisio stub_runtime shop 7 completed_webhook
                     ordered_world in
  let expired := @post_api_webhook_plisio stub_runtime shop 9 expired_webhook paid_world in
  let row status paid_at :=
    {| i_id := 1; i_order_id := 1; i_plisio_invoice_id := "inv1";
       i_currency := "BTC"; i_amount := 150000; i_amount_usd := 9999;
       i_status := status; i_invoice_url := "https://plisio.net/invoice/inv1";
       i_qr_code_url := "qr"; i_wallet_hash := "wallet"; i_paid_at := paid_at;
       i_expires_at := 86400000 |} in
  invoices (w_db (snd completed))
  = <["inv1" := row "paid" (Some 7)]> (invoices (w_db ordered_world)) /\
  invoices (w_db (snd expired))
  = <["inv1" := row "expired" None]> (invoices (w_db paid_world)) /\
  fst expired = Ok (json 200 Success).
Proof.
  intros completed expired row. split.
  - refine (proj1
      (@invoice_update_unconditional stub_runtime shop 7 completed_webhook ordered_world
         "inv1" (row "new" None) _ _ _ _ _ _ (surjective_pairing _)) _).
    + vm_compute. reflexivity.
    + vm_compute. reflexivity.
    + vm_compute. reflexivity.
    + apply accepted_nil. reflexivity.
    + vm_compute. reflexivity.
  - refine (proj1 (proj2
      (@invoice_update_unconditional stub_runtime shop 9 expired_webhook paid_world
         "inv1" (row "paid" (Some 7)) _ _ _ _ _ _ (surjective_pairing _))) _).
    + vm_compute. reflexivity.
    + vm_compute. reflexivity.
    + vm_compute. reflexivity.
    + apply accepted_nil. reflexivity.
    + vm_compute. discriminate.
Defined.

(** C4, as stated, fails: the expired webhook delivered after the completed
    one turns the paid invoice into an expired one without a payment time. *)
Lemma completed_invoice_regresses :
  ~ @forward_only stub_runtime shop 9 expired_webhook paid_world.
Proof.
  intros Hclaim.
  specialize (Hclaim "inv1" (with_invoice_status "paid" (Some 7) invoice1)).
  assert (Hlookup : invoices (w_db paid_world) !! "inv1"
                    = Some (with_invoice_status "paid" (Some 7) invoice1))
    by (vm_compute; reflexivity).
  specialize (Hclaim Hlookup eq_refl).
  vm_compute in Hclaim. discriminate Hclaim.
Qed.

(** A status that names a member of [Object.prototype] is stored as the
    text of that member, not as "unknown". *)
Example inherited_status_outcome :
  let w' := snd (@post_api_webhook_plisio stub_runtime shop 9
                   (signed (fields_of (JStr "constructor"))) ordered_world) in
  i_status <$> invoices (w_db w') !! "inv1" = Some "function Object() { [native code] }" /\
  i_paid_at <$> invoices (w_db w') !! "inv1" = Some None.
Proof. vm_compute. auto. Qed.




(** The same run in full: the rows after the first and after the second
    delivery differ in [paid_at] and [updated_at]; no grant is recorded and
    no message is sent. *)
Example webhook_replay_outcome :
  let first := @replay stub_runtime shop completed_webhook [(7, 5)] (world_of ordered_db []) in
  let final := @replay stub_runtime shop completed_webhook [(7, 5); (9, 8)]
                 (world_of ordered_db []) in
  orders (w_db first) !! 1
  = Some {| o_id := 1; o_user_id := 1; o_total_price := 9999; o_status := "paid";
            o_updated_at := 5 |} /\
  orders (w_db final) !! 1
  = Some {| o_id := 1; o_user_id := 1; o_total_price := 9999; o_status := "paid";
            o_updated_at := 8 |} /\
  i_paid_at <$> invoices (w_db first) !! "inv1" = Some (Some 7) /\
  i_paid_at <$> invoices (w_db final) !! "inv1" = Some (Some 9) /\
  i_status <$> invoices (w_db final) !! "inv1" = Some "paid" /\
  grants_for (w_db final) 1 1 1 = 0%nat /\
  w_sent final = [].
Proof. vm_compute. auto 10. Qed.




Example reconciliation_partial_state :
  let w' := snd (@post_api_webhook_plisio stub_runtime shop 7 completed_webhook
                   (world_of ordered_db [false; false; true])) in
  i_status <$> invoices (w_db w') !! "inv1" = Some "paid" /\
  o_status <$> orders (w_db w') !! 1 = Some "pending".
Proof. vm_compute. auto. Qed.

(** C5. The signed string renders every field with [`${data[key]}`], and
    the one-element array [["completed"]] renders like the string
    ["completed"]. The completed webhook with its status replaced by that
    array and its signature untouched is a payload with one field altered;
    it signs to the same string, so it verifies under every digest function
    exactly when the original does; and the route, instead of answering 401,
    answers 200 after marking the invoice paid without a payment time, the
    order staying pending. *)
Theorem altered_status_accepted :
  one_field_altered completed_webhook altered_webhook /\
  sortedParams (wr_body altered_webhook) = sortedParams (wr_body completed_webhook) /\
  (forall (R : Runtime) (service : PlisioService),
      @verifyWebhookSignature R service (wr_body altered_webhook)
        (signature_of altered_webhook)
      = @verifyWebhookSignature R service (wr_body completed_webhook)
          (signature_of completed_webhook)) /\
  @verifyWebhookSignature stub_runtime (plisio shop) (wr_body completed_webhook)
    (signature_of completed_webhook) = true /\
  exists w',
    @post_api_webhook_plisio stub_runtime shop 7 altered_webhook (world_of ordered_db [])
    = (Ok (json 200 Success), w') /\
    invoices (w_db w') !! "inv1" = Some (with_invoice_status "paid" None invoice1) /\
    orders (w_db w') !! 1 = Some order1.
Proof.
  assert (Hsame : sortedParams (wr_body altered_webhook)
                  = sortedParams (wr_body completed_webhook))
    by (vm_compute; reflexivity).
  split; [|split; [exact Hsame|split; [|split]]].
  - split; [reflexivity|].
    exists "status", (JArr [JStr "completed"]).
    split; [discriminate|]. split; [|reflexivity].
    vm_compute. discriminate.
  - intros R service. unfold verifyWebhookSignature. rewrite Hsame.
    replace (signature_of altered_webhook) with (signature_of completed_webhook)
      by (vm_compute; reflexivity).
    reflexivity.
  - vm_compute. reflexivity.
  - eexists. split; [vm_compute; reflexivity|]. split; vm_compute; reflexivity.
Qed.

(** ** The order route *)

(** C6, as the code has it. Stock is checked, item by item, by a read before
    anything is written, and decremented by one conditional update per item
    after the order transaction has committed and the invoice row has been
    stored, outside any transaction. In every run of the route: products and
    ledger move only if by then an order has been committed and an invoice
    stored for it; the orders and order items are either as before or
    extended by exactly one order with one row per requested item; and when
    the customer is registered, every item passed its check, the order id is
    fresh and nothing is refused up to COMMIT, the order and its rows are
    persisted whatever the gateway answers and whatever the reservations
    report. *)
Theorem reservation_after_commit (reply : option plisioInvoice) (now : Z)
    (body : orderRequest) (w : world) (r : outcome response) (w' : world) :
  post_api_orders reply now body w = (r, w') ->
  (same_stock w w' \/ order_committed w w') /\
  (same_orders w w' \/
   exists its lines rows user_id,
     items body = Some its /\ Forall2 (priced (w_db w)) its lines /\
     orders (w_db w) !! orders_id_seq (w_db w) = None /\
     orders (w_db w')
     = <[orders_id_seq (w_db w) :=
           {| o_id := orders_id_seq (w_db w); o_user_id := user_id;
              o_total_price := sum_total lines; o_status := "pending";
              o_updated_at := current_timestamp (w_db w) |}]>
         (orders (w_db w)) /\
     order_items (w_db w') = order_items (w_db w) ++ rows /\
     Forall2 (row_of (orders_id_seq (w_db w))) rows lines) /\
  (forall t u its,
      telegram_id body = Some t -> t <> 0 -> items body = Some its -> its <> [] ->
      List.find (fun u => u_telegram_id u =? t) (users (w_db w)) = Some u ->
      Forall (item_passes (w_db w)) its ->
      orders (w_db w) !! orders_id_seq (w_db w) = None ->
      accepted (5 + 2 * length its) w ->
      exists lines rows,
        Forall2 (priced (w_db w)) its lines /\
        orders (w_db w')
        = <[orders_id_seq (w_db w) :=
              {| o_id := orders_id_seq (w_db w); o_user_id := u_id u;
                 o_total_price := sum_total lines; o_status := "pending";
                 o_updated_at := current_timestamp (w_db w) |}]>
            (orders (w_db w)) /\
        order_items (w_db w') = order_items (w_db w) ++ rows /\
        Forall2 (row_of (orders_id_seq (w_db w))) rows lines).
Proof.
  intros E. split; [|split].
  - eapply post_api_orders_stock_after_commit, E.
  - eapply post_api_orders_all_or_nothing, E.
  - intros t u its Ht Ht0 Hits Hne Hu Hpass Hfresh Hacc.
    eapply post_api_orders_commits; eauto.
Qed.

Lemma reservation_after_commit_witness :
  let w := world_of fresh_db [] in
  let run := post_api_orders (Some gateway_reply) 0 three_and_three w in
  exists lines rows,
    Forall2 (priced (w_db w)) [{| item_product_id := 1; item_quantity := 3 |};
                               {| item_product_id := 1; item_quantity := 3 |}] lines /\
    orders (w_db (snd run))
    = <[orders_id_seq (w_db w) :=
          {| o_id := orders_id_seq (w_db w); o_user_id := u_id alice;
             o_total_price := sum_total lines; o_status := "pending";
             o_updated_at := current_timestamp (w_db w) |}]>
        (orders (w_db w)) /\
    order_items (w_db (snd run)) = order_items (w_db w) ++ rows /\
    Forall2 (row_of (orders_id_seq (w_db w))) rows lines.
Proof.
  intros w run.
  refine (proj2 (proj2 (reservation_after_commit (Some gateway_reply) 0 three_and_three
                          w (fst run) (snd run) _))
            1001 alice
            [{| item_product_id := 1; item_quantity := 3 |};
             {| item_product_id := 1; item_quantity := 3 |}]
            _ _ _ _ _ _ _ _).
  - apply surjective_pairing.
  - reflexivity.
  - lia.
  - reflexivity.
  - discriminate.
  - vm_compute. reflexivity.
  - repeat constructor; exists course; vm_compute; repeat split; discriminate.
  - vm_compute. reflexivity.
  - apply accepted_nil. reflexivity.
Defined.

(** C6, as stated, fails: with five courses in stock, a request for three
    and three more passes both stock checks; the order, both items and the
    invoice are committed; the first reservation succeeds, the second finds
    two in stock and fails; nothing is undone. *)
Lemma reservation_failure_keeps_order :
  ~ reservation_atomic (Some gateway_reply) 0 three_and_three (world_of fresh_db []).
Proof.
  intros Hclaim.
  destruct (Hclaim _ _ _ eq_refl
              (surjective_pairing
                 (post_api_orders (Some gateway_reply) 0 three_and_three
                    (world_of fresh_db [])))) as [Hall | (_ & _ & Horders & _)].
  - vm_compute in Hall. discriminate Hall.
  - apply (f_equal (fun m => o_id <$> m !! 1)) in Horders.
    vm_compute in Horders. discriminate Horders.
Qed.

Example reservation_failure_outcome :
  let w' := snd (post_api_orders (Some gateway_reply) 0 three_and_three
                   (world_of fresh_db [])) in
  fst (post_api_orders (Some gateway_reply) 0 three_and_three (world_of fresh_db []))
  = Ok (json 201 (OrderCreated
                    {| o_id := 1; o_user_id := 1; o_total_price := 59994;
                       o_status := "pending";
                       o_updated_at := 0 |}
                    (with_invoice_status "new" None
                       {| i_id := 1; i_order_id := 1; i_plisio_invoice_id := "inv1";
                          i_currency := "BTC"; i_amount := 150000; i_amount_usd := 59994;
                          i_status := "new";
                          i_invoice_url := "https://plisio.net/invoice/inv1";
                          i_qr_code_url := "qr"; i_wallet_hash := "wallet";
                          i_paid_at := None; i_expires_at := 86400000 |}))) /\
  map oi_quantity (order_items (w_db w')) = [3; 3] /\
  p_stock <$> products (w_db w') !! 1 = Some 2 /\
  w_reserved w' = [(1, 3)].
Proof. vm_compute. auto. Qed.

(** C7, as the code has it. The reservation takes the quantity from the
    stock exactly when the stock covers it, leaving the other columns, and
    reports whether it did. From a state without negative stock, every
    sequence of requests whose administrative product writes carry no
    negative stock leaves no stock negative. Over every sequence of requests
    without an administrative product update, for every product, the entries
    that the ledger of successful reservations gained add up to what the
    stock lost, which is at most the initial stock; and when no order
    request of the sequence asks for a negative quantity, every one of these
    entries is positive or zero, so that the quantity reserved in total is at
    most the initial stock. *)
Theorem stock_stays_nonneg `{Runtime} (this : Server) (events : list event) (w : world) :
  stock_nonneg (w_db w) ->
  (forall id quantity d,
      match products d !! id with
      | Some p =>
          if quantity <=? p_stock p
          then update_stock_stmt id quantity d
               = (Ok true,
                  set_products
                    (insert id {| p_id := p_id p; p_name := p_name p;
                                  p_price_usd := p_price_usd p;
                                  p_stock := p_stock p - quantity;
                                  p_is_active := p_is_active p |}) d)
          else update_stock_stmt id quantity d = (Ok false, d)
      | None => update_stock_stmt id quantity d = (Ok false, d)
      end) /\
  (Forall benign events -> stock_nonneg (w_db (run this events w))) /\
  (Forall no_product_update events ->
   forall id p, products (w_db w) !! id = Some p ->
     exists p' added,
       products (w_db (run this events w)) !! id = Some p' /\ 0 <= p_stock p' /\
       w_reserved (run this events w) = w_reserved w ++ added /\
       reserved_of id added = p_stock p - p_stock p' /\
       reserved_of id added <= p_stock p /\
       (Forall nonneg_quantities events -> Forall (fun entry => 0 <= snd entry) added)).
Proof.
  intros Hnn. split; [apply update_stock_stmt_spec|]. split.
  - intros Hb. apply (run_stays_nonneg this events w Hb Hnn).
  - intros Ho id p Hp.
    destruct (run_keeps_accounts this (reserved_of id (w_reserved w) + p_stock p) id
                events w Ho) as (p' & Hp' & Hnn' & Hsum).
    { exists p. split; [exact Hp|]. split; [eapply Hnn, Hp | reflexivity]. }
    destruct (run_ledger this (fun _ => True) events w) as (added & Hadded & _).
    { apply Forall_forall. intros e _. apply quantities_any. }
    rewrite Hadded, reserved_of_app in Hsum.
    exists p', added. repeat split; auto; try lia.
    intros Hq. destruct (run_ledger this (fun q => 0 <= q) events w) as (added' & Hadded' & HF).
    { eapply Forall_impl; [exact Hq|]. intros e He. destruct e; cbn in *; auto. }
    rewrite Hadded in Hadded'. apply app_inv_head in Hadded'. subst added'. exact HF.
Qed.

Lemma fresh_db_nonneg : stock_nonneg fresh_db.
Proof.
  intros id p Hp. cbn in Hp.
  destruct (decide (id = 1)) as [->|H1].
  - rewrite lookup_insert_eq in Hp. inversion Hp. cbn. lia.
  - rewrite lookup_insert_ne in Hp by congruence.
    destruct (decide (id = 2)) as [->|H2].
    + rewrite lookup_insert_eq in Hp. inversion Hp. cbn. lia.
    + rewrite lookup_insert_ne, lookup_empty in Hp by congruence. discriminate.
Qed.

Lemma stock_stays_nonneg_witness :
  let w := world_of fresh_db [] in
  let events := [PostOrders (Some gateway_reply) 0 three_and_three; Clock 5;
                 PostOrders (Some second_reply) 6 one_course;
                 DeleteProducts (Some 42) 1] in
  stock_nonneg (w_db (@run stub_runtime shop events w)) /\
  exists p' added,
    products (w_db (@run stub_runtime shop events w)) !! 1 = Some p' /\ 0 <= p_stock p' /\
    w_reserved (@run stub_runtime shop events w) = w_reserved w ++ added /\
    reserved_of 1 added = p_stock course - p_stock p' /\
    reserved_of 1 added <= p_stock course /\
    Forall (fun entry => 0 <= snd entry) added.
Proof.
  intros w events.
  pose proof (@stock_stays_nonneg stub_runtime shop events w fresh_db_nonneg)
    as (_ & Hnonneg & Hledger).
  split.
  - apply Hnonneg. repeat constructor.
  - destruct (Hledger ltac:(repeat constructor) 1 course eq_refl)
      as (p' & added & H1 & H2 & H3 & H4 & H5 & H6).
    exists p', added. repeat split; auto. apply H6.
    repeat constructor; intros its Hits; inversion Hits; subst;
      repeat constructor; cbn; lia.
Defined.

(** C7, as stated, fails for administrative updates: the administrator
    setting the stock of the course to -5 is obeyed. *)
Lemma admin_sets_negative_stock :
  ~ stays_nonneg (world_of fresh_db [])
      (@run stub_runtime shop [PutProducts (Some 42) 1 negative_stock] (world_of fresh_db [])).
Proof.
  intros Hclaim. specialize (Hclaim fresh_db_nonneg 1 (with_stock (-5) course)).
  assert (Hneg : 0 <= p_stock (with_stock (-5) course))
    by (apply Hclaim; vm_compute; reflexivity).
  cbn in Hneg. lia.
Qed.

(** What the witness run leaves: four of the five courses reserved, by the
    first reservation of the first order and by the second order, the second
    reservation of the first order having failed. *)
Example reservations_outcome :
  let final := @run stub_runtime shop
                 [PostOrders (Some gateway_reply) 0 three_and_three; Clock 5;
                  PostOrders (Some second_reply) 6 one_course;
                  DeleteProducts (Some 42) 1] (world_of fresh_db []) in
  w_reserved final = [(1, 3); (1, 1)] /\
  p_stock <$> products (w_db final) !! 1 = Some 1.
Proof. vm_compute. auto. Qed.

(** With a negative quantity, which the route accepts (C10), the bound holds
    for the sum only: an order for minus five courses raises the stock of
    five to ten, and the next order reserves ten. *)
Example negative_quantity_oversells :
  let final := @run stub_runtime shop
                 [PostOrders (Some gateway_reply) 0 minus_five_courses;
                  PostOrders (Some second_reply) 1 ten_courses] (world_of fresh_db []) in
  w_reserved final = [(1, -5); (1, 10)] /\
  reserved_of 1 (w_reserved final) = 5 /\
  p_stock <$> products (w_db final) !! 1 = Some 0.
Proof. vm_compute. auto. Qed.

(** C8. A request that names a product which is unknown or inactive when
    the request arrives is answered with an error while the database is
    exactly as before: no order, no order item, no stock change, no
    reservation, whichever statements the database refuses on the way. *)
Theorem unknown_product_persists_nothing (reply : option plisioInvoice) (now : Z)
    (body : orderRequest) (its : list requestItem) (w : world)
    (r : outcome response) (w' : world) :
  items body = Some its ->
  Exists (fun item => match products (w_db w) !! item_product_id item with
                      | Some p => p_is_active p = false
                      | None => True
                      end) its ->
  post_api_orders reply now body w = (r, w') ->
  w_db w' = w_db w /\ w_reserved w' = w_reserved w /\ w_sent w' = w_sent w /\
  exists rejected, r = Ok rejected /\ res_status rejected <> 201.
Proof.
  intros Hits Hbad E.
  destruct (post_api_orders_rejects reply now body its w r w' Hits
              (unknown_item_fails _ _ Hbad) E) as ((Hd & Hs & Hl) & Hr).
  auto.
Qed.

Lemma unknown_product_persists_nothing_witness :
  let w := world_of fresh_db [] in
  let run := post_api_orders (Some gateway_reply) 0 course_and_unknown w in
  w_db (snd run) = w_db w /\ w_reserved (snd run) = w_reserved w /\
  w_sent (snd run) = w_sent w /\
  exists rejected, fst run = Ok rejected /\ res_status rejected <> 201.
Proof.
  intros w run.
  refine (unknown_product_persists_nothing (Some gateway_reply) 0 course_and_unknown
            [{| item_product_id := 1; item_quantity := 1 |};
             {| item_product_id := 99; item_quantity := 1 |}]
            w (fst run) (snd run) _ _ _).
  - reflexivity.
  - apply Exists_cons_tl, Exists_cons_hd. vm_compute. exact I.
  - apply surjective_pairing.
Defined.

Example unknown_product_answer :
  fst (post_api_orders (Some gateway_reply) 0 course_and_unknown (world_of fresh_db []))
  = Ok (json 400 (ProductNotFound 99)).
Proof. vm_compute. reflexivity. Qed.

(** C9. A product route (create, update, delete) changes no order and no
    order item: the tables of orders and order items are as before, and so
    are, for every order, the total and the product, quantity, unit price
    and line total of each item as read back by [orderQueries.getById]. *)
Theorem product_update_keeps_prices `{Runtime} (this : Server) (e : event) (w : world) :
  match e with
  | PostProducts _ _ | PutProducts _ _ _ | DeleteProducts _ _ => True
  | _ => False
  end ->
  let w' := snd (handle this e w) in
  orders (w_db w') = orders (w_db w) /\
  order_items (w_db w') = order_items (w_db w) /\
  forall order_id,
    prices_of <$> get_order (w_db w') order_id = prices_of <$> get_order (w_db w) order_id.
Proof.
  intros He w'.
  destruct (product_routes_only_stock this e He w (fst (handle this e w)) w'
              (surjective_pairing _)) as (Hu & Ho & Hi & _).
  split; [exact Ho|]. split; [exact Hi|].
  intros order_id. apply get_order_prices; assumption.
Qed.

Lemma product_update_keeps_prices_witness :
  let e := PutProducts (Some 42) 1 doubled_price in
  let w := world_of ordered_db [] in
  let w' := snd (@handle stub_runtime shop e w) in
  orders (w_db w') = orders (w_db w) /\
  order_items (w_db w') = order_items (w_db w) /\
  forall order_id,
    prices_of <$> get_order (w_db w') order_id = prices_of <$> get_order (w_db w) order_id.
Proof.
  intros e w.
  refine (@product_update_keeps_prices stub_runtime shop e w _).
  exact I.
Defined.

Example doubled_price_outcome :
  let w' := snd (@handle stub_runtime shop (PutProducts (Some 42) 1 doubled_price)
                   (world_of ordered_db [])) in
  p_price_usd <$> products (w_db w') !! 1 = Some 19998 /\
  prices_of <$> get_order (w_db w') 1 = Some (9999, [(Some 1, Some 1, Some 9999, Some 9999)]).
Proof. vm_compute. auto. Qed.

(** C10, as the code has it. The route does not look at the sign of a
    quantity; the only check on it is [product.stock < item.quantity]. A
    request with an item that fails its check (product unknown or inactive,
    or quantity above the stock) is answered with an error and nothing is
    written. An item with zero or negative quantity passes whenever its
    product is active with a stock that is not negative; and when every item
    passes, the customer is registered, the order id is fresh and nothing is
    refused up to COMMIT, the order is persisted with one row per item
    carrying the requested quantity. *)
Theorem quantity_checked_against_stock_only (reply : option plisioInvoice) (now : Z)
    (body : orderRequest) (its : list requestItem) (w : world)
    (r : outcome response) (w' : world) :
  items body = Some its ->
  post_api_orders reply now body w = (r, w') ->
  (~ Forall (item_passes (w_db w)) its ->
   untouched w w' /\ exists rejected, r = Ok rejected /\ res_status rejected <> 201) /\
  (forall item p,
      item_quantity item <= 0 -> products (w_db w) !! item_product_id item = Some p ->
      p_is_active p = true -> 0 <= p_stock p -> item_passes (w_db w) item) /\
  (forall t u,
      telegram_id body = Some t -> t <> 0 -> its <> [] ->
      List.find (fun u => u_telegram_id u =? t) (users (w_db w)) = Some u ->
      Forall (item_passes (w_db w)) its ->
      orders (w_db w) !! orders_id_seq (w_db w) = None ->
      accepted (5 + 2 * length its) w ->
      exists lines rows,
        Forall2 (priced (w_db w)) its lines /\
        orders (w_db w')
        = <[orders_id_seq (w_db w) :=
              {| o_id := orders_id_seq (w_db w); o_user_id := u_id u;
                 o_total_price := sum_total lines; o_status := "pending";
                 o_updated_at := current_timestamp (w_db w) |}]>
            (orders (w_db w)) /\
        order_items (w_db w') = order_items (w_db w) ++ rows /\
        Forall2 (row_of (orders_id_seq (w_db w))) rows lines).
Proof.
  intros Hits E. split; [|split].
  - intros Hbad. eapply post_api_orders_rejects; eauto.
  - intros item p Hq Hp Ha Hs. exists p. repeat split; auto. lia.
  - intros t u Ht Ht0 Hne Hu Hpass Hfresh Hacc.
    eapply post_api_orders_commits; eauto.
Qed.

Lemma quantity_checked_against_stock_only_witness :
  let w := world_of fresh_db [] in
  let run := post_api_orders None 0 zero_courses w in
  exists lines rows,
    Forall2 (priced (w_db w)) [{| item_product_id := 1; item_quantity := 0 |}] lines /\
    orders (w_db (snd run))
    = <[orders_id_seq (w_db w) :=
          {| o_id := orders_id_seq (w_db w); o_user_id := u_id alice;
             o_total_price := sum_total lines; o_status := "pending";
             o_updated_at := current_timestamp (w_db w) |}]>
        (orders (w_db w)) /\
    order_items (w_db (snd run)) = order_items (w_db w) ++ rows /\
    Forall2 (row_of (orders_id_seq (w_db w))) rows lines.
Proof.
  intros w run.
  refine (proj2 (proj2 (quantity_checked_against_stock_only None 0 zero_courses
                          [{| item_product_id := 1; item_quantity := 0 |}]
                          w (fst run) (snd run) _ _))
            1001 alice _ _ _ _ _ _ _).
  - reflexivity.
  - apply surjective_pairing.
  - reflexivity.
  - lia.
  - discriminate.
  - vm_compute. reflexivity.
  - constructor; [|constructor]. exists course. vm_compute. repeat split; discriminate.
  - vm_compute. reflexivity.
  - apply accepted_nil. reflexivity.
Defined.

(** C10, as stated, fails: an order for zero courses, the gateway refusing
    to invoice an empty amount, is answered 500 (not 400), and the order and
    its item of quantity zero are persisted. *)
Lemma nonpositive_quantity_accepted :
  ~ quantity_validated None 0 zero_courses (world_of fresh_db []).
Proof.
  intros Hclaim.
  specialize (Hclaim [{| item_product_id := 1; item_quantity := 0 |}] eq_refl).
  assert (Hzero : Exists (fun item => item_quantity item <= 0)
                    [{| item_product_id := 1; item_quantity := 0 |}])
    by (constructor; cbn; lia).
  destruct (Hclaim Hzero _ _
              (surjective_pairing
                 (post_api_orders None 0 zero_courses (world_of fresh_db []))))
    as (_ & _ & _ & Horders & _).
  apply (f_equal (fun m => o_id <$> m !! 1)) in Horders.
  vm_compute in Horders. discriminate Horders.
Qed.

Example nonpositive_quantity_outcomes :
  let zero := post_api_orders None 0 zero_courses (world_of fresh_db []) in
  let minus := post_api_orders (Some gateway_reply) 0 minus_one_course (world_of fresh_db []) in
  res_status <$> (match fst zero with Ok a => Some a | Throw _ => None end) = Some 500 /\
  map oi_quantity (order_items (w_db (snd zero))) = [0] /\
  res_status <$> (match fst minus with Ok a => Some a | Throw _ => None end) = Some 201 /\
  map oi_quantity (order_items (w_db (snd minus))) = [4; -1] /\
  o_total_price <$> orders (w_db (snd minus)) !! 1 = Some 1997 /\
  p_stock <$> products (w_db (snd minus)) !! 1 = Some 6.
Proof. vm_compute. auto 10. Qed.

(** * Further properties of the code *)

(** ** [database/db.js]: reading back what was written *)

(** X1. An order created by [orderQueries.create] reads back through
    [orderQueries.getById]: with a customer on file, a fresh order id, no
    item row already pointing at that id and no statement refused, the call
    returns the pending order, and [getById] of its id then returns that
    order, the Telegram id of the customer and, up to their order, one item
    per item handed in, with the product, quantity, unit price and line total
    handed in and the name of the product on file; for an empty item list it
    returns the single all-null item of the LEFT JOIN. *)
Theorem created_order_reads_back (userId : Z) (its : list orderItem) (totalPrice : Z)
    (w : world) (u : user) :
  accepted (4 + length its) w ->
  orders (w_db w) !! orders_id_seq (w_db w) = None ->
  List.find (fun u => u_id u =? userId) (users (w_db w)) = Some u ->
  Forall (fun row => oi_order_id row <> orders_id_seq (w_db w)) (order_items (w_db w)) ->
  exists w' ov,
    let order := {| o_id := orders_id_seq (w_db w); o_user_id := userId;
                    o_total_price := totalPrice; o_status := "pending";
                    o_updated_at := current_timestamp (w_db w) |} in
    orderQueries_create userId its totalPrice w = (Ok order, w') /\
    get_order (w_db w') (o_id order) = Some ov /\
    ov_order ov = order /\
    ov_telegram_id ov = u_telegram_id u /\
    ov_items ov ≡ₚ match its with
                   | [] => [null_item]
                   | _ :: _ => map (view_of_line (w_db w)) its
                   end.
Proof.
  intros Hacc Hfresh Hu Hrows.
  destruct (orderQueries_create_accepted userId its totalPrice w Hfresh Hacc)
    as (order & w' & E & _).
  pose proof (orderQueries_create_spec _ _ _ _ _ _ E) as ((Husers & Hprod & _) & Hr).
  destruct Hr as (-> & _ & Hord & rows & Hitems & HF).
  exists w'. eexists. cbn zeta. split; [exact E|].
  unfold get_order. cbn [o_id] in *. rewrite Hord, lookup_insert_eq. cbn [o_user_id].
  rewrite Husers, Hu. split; [reflexivity|]. cbn [ov_order ov_telegram_id ov_items].
  split; [reflexivity|]. split; [reflexivity|].
  unfold items_of_order. rewrite Hitems, List.filter_app.
  rewrite (filter_none _ (order_items (w_db w)))
    by (eapply Forall_impl; [exact Hrows | cbn; intros; lia]).
  destruct (rows_read_back (w_db w') _ _ _ HF) as (Hviews & Hall).
  rewrite app_nil_l, (filter_all _ rows Hall).
  destruct HF as [|row line rows its]; [reflexivity|].
  rewrite Hviews. unfold view_of_line. rewrite Hprod. reflexivity.
Qed.

Lemma created_order_reads_back_witness :
  exists w' ov,
    let order := {| o_id := orders_id_seq (w_db (world_of fresh_db [])); o_user_id := 1;
                    o_total_price := 9999; o_status := "pending";
                    o_updated_at := current_timestamp (w_db (world_of fresh_db [])) |} in
    orderQueries_create 1 [{| product_id := 1; quantity := 1; price_per_item := 9999;
                              total_price := 9999 |}] 9999 (world_of fresh_db [])
    = (Ok order, w') /\
    get_order (w_db w') (o_id order) = Some ov /\
    ov_order ov = order /\
    ov_telegram_id ov = u_telegram_id alice /\
    ov_items ov ≡ₚ map (view_of_line (w_db (world_of fresh_db [])))
                     [{| product_id := 1; quantity := 1; price_per_item := 9999;
                         total_price := 9999 |}].
Proof.
  refine (created_order_reads_back 1 [_] 9999 (world_of fresh_db []) alice _ _ _ _).
  - apply accepted_nil. reflexivity.
  - vm_compute. reflexivity.
  - vm_compute. reflexivity.
  - constructor.
Defined.

(** X2. [orderQueries.create] rolls back and rethrows. When the database
    refuses any statement of the call (taking the connection, BEGIN, the
    order row, one of the item rows or COMMIT), the call throws and every
    table is as it was before the call: neither the order row nor any item
    row inserted before the refusal stays. *)
Theorem refused_create_is_rolled_back (userId : Z) (its : list orderItem) (totalPrice : Z)
    (w : world) (i : nat) :
  (i < 4 + length its)%nat ->
  w_refusals w !! i = Some true ->
  exists e w',
    orderQueries_create userId its totalPrice w = (Throw e, w') /\
    same_rows (w_db w) (w_db w').
Proof.
  intros Hi Hrefused.
  destruct (orderQueries_create userId its totalPrice w) as [[order|e] w'] eqn:E.
  - apply orderQueries_create_ok in E. exfalso. exact (E i Hi Hrefused).
  - exists e, w'. split; [reflexivity|].
    apply orderQueries_create_spec in E. destruct E as ((Hu & Hp & Hinv & Hg & _) & Ho & Hrows).
    repeat split; assumption.
Qed.

Lemma refused_create_is_rolled_back_witness :
  exists e w',
    orderQueries_create 1 [{| product_id := 1; quantity := 1; price_per_item := 9999;
                              total_price := 9999 |};
                           {| product_id := 2; quantity := 1; price_per_item := 2999;
                              total_price := 2999 |}] 12998
      (world_of fresh_db [false; false; false; false; true])
    = (Throw e, w') /\
    same_rows (w_db (world_of fresh_db [false; false; false; false; true])) (w_db w').
Proof.
  refine (refused_create_is_rolled_back 1 [_; _] 12998
            (world_of fresh_db [false; false; false; false; true]) 4 _ _).
  - cbn. lia.
  - reflexivity.
Defined.

(** X3. The registration middleware of the bot registers a Telegram id
    once. An update that no command or action handler matches reaches the
    middleware. For an id that is not on file, with the next user id free
    and no statement refused, it appends one user row with that Telegram id
    and the time of the database as [last_active], which [findByTelegramId]
    then finds; a second such update from the same id, the database clock
    reading [t] by then, adds no row and changes nothing but [last_active]
    of that row, which becomes [t]. *)
Theorem bot_registers_once (u : update) (from_id t : Z) (w : world) :
  upd_from u = Some from_id ->
  has_handler u = false ->
  List.find (fun u => u_telegram_id u =? from_id) (users (w_db w)) = None ->
  existsb (fun u => u_id u =? users_id_seq (w_db w)) (users (w_db w)) = false ->
  accepted 4 w ->
  let row last_active :=
    {| u_id := users_id_seq (w_db w); u_telegram_id := from_id;
       u_last_active := last_active |} in
  let w1 := snd (bot_update false u w) in
  let w2 := snd (bot_update false u (snd (clock_reads t w1))) in
  users (w_db w1) = users (w_db w) ++ [row (current_timestamp (w_db w))] /\
  List.find (fun u => u_telegram_id u =? from_id) (users (w_db w1))
  = Some (row (current_timestamp (w_db w))) /\
  users (w_db w2) = users (w_db w) ++ [row t].
Proof.
  intros Hfrom Hnone Hnew Hid Hacc row w1 w2.
  assert (Hex : existsb (fun u => u_telegram_id u =? from_id) (users (w_db w)) = false).
  { destruct (existsb (fun u => u_telegram_id u =? from_id) (users (w_db w))) eqn:E;
      [|reflexivity].
    apply existsb_exists in E. destruct E as (x & Hin & Hx).
    eapply find_none in Hnew; [|exact Hin]. cbn in Hnew. congruence. }
  set (d1 := set_users (fun us => us ++ [row (current_timestamp (w_db w))])
               (bump_users_seq (w_db w))).
  assert (E1 : bot_update false u w = (Ok tt, advance d1 (advance (w_db w) w))).
  { unfold bot_update, bot_middleware, try_catch, userQueries_findByTelegramId,
      userQueries_create.
    rewrite Hnone, Hfrom.
    rewrite bind_sql_run by (eapply accepted_S; eauto). cbn [fst snd]. rewrite Hnew.
    rewrite bind_sql_run
      by (eapply accepted_S; apply (accepted_advance _ w (w_db w)); exact Hacc).
    rewrite w_db_advance, Hex, Hid. reflexivity. }
  assert (Hu1 : users (w_db w1) = users (w_db w) ++ [row (current_timestamp (w_db w))])
    by (subst w1; rewrite E1; cbn [snd]; rewrite w_db_advance; reflexivity).
  assert (Hf1 : List.find (fun u => u_telegram_id u =? from_id) (users (w_db w1))
                = Some (row (current_timestamp (w_db w)))).
  { rewrite Hu1. clear - Hnew. induction (users (w_db w)) as [|x l IH]; cbn in *.
    - rewrite Z.eqb_refl. reflexivity.
    - destruct (u_telegram_id x =? from_id); [discriminate | auto]. }
  split; [exact Hu1|]. split; [exact Hf1|].
  assert (Hacc1 : accepted 2 w1).
  { subst w1. rewrite E1. cbn [snd]. apply accepted_advance, accepted_advance. exact Hacc. }
  subst w2. unfold bot_update, bot_middleware, try_catch, userQueries_findByTelegramId,
    userQueries_updateLastActive.
  rewrite Hnone, Hfrom.
  rewrite bind_sql_run by (eapply accepted_S; exact Hacc1). cbn [fst snd clock_reads w_db with_db].
  cbn [users set_current_timestamp]. rewrite Hf1.
  match goal with
  | |- context [sql ?stmt ?w0] =>
      rewrite (sql_accepted stmt 0 w0)
        by (apply (accepted_advance 1 (with_db _ w1)); exact Hacc1)
  end.
  cbn [fst snd]. rewrite !w_db_advance. cbn [users set_users set_current_timestamp
    current_timestamp w_db with_db].
  rewrite Hu1, touch_app, (touch_none _ _ _ Hnew). cbn. rewrite Z.eqb_refl. reflexivity.
Qed.

Lemma bot_registers_once_witness :
  let w := world_of fresh_db [] in
  let row last_active :=
    {| u_id := 2; u_telegram_id := 1002; u_last_active := last_active |} in
  let w1 := snd (bot_update false (plain_message 1002) w) in
  let w2 := snd (bot_update false (plain_message 1002) (snd (clock_reads 5 w1))) in
  users (w_db w1) = users (w_db w) ++ [row 0] /\
  List.find (fun u => u_telegram_id u =? 1002) (users (w_db w1)) = Some (row 0) /\
  users (w_db w2) = users (w_db w) ++ [row 5].
Proof.
  refine (bot_registers_once (plain_message 1002) 1002 5 (world_of fresh_db []) _ _ _ _ _).
  - reflexivity.
  - reflexivity.
  - reflexivity.
  - reflexivity.
  - apply accepted_nil. reflexivity.
Defined.

(** The command /start is answered by its handler and does not reach the
    middleware: it registers nobody. A plain message does. *)
Example start_registers_nobody :
  users (w_db (@run stub_runtime shop [BotUpdate (start_command 1002)] (world_of fresh_db [])))
  = [alice] /\
  users (w_db (@run stub_runtime shop [Clock 3; BotUpdate (plain_message 1002)]
                 (world_of fresh_db [])))
  = [alice; {| u_id := 2; u_telegram_id := 1002; u_last_active := 3 |}] /\
  users (w_db (@run stub_runtime shop [Clock 3; BotUpdate (plain_message 1001)]
                 (world_of fresh_db [])))
  = [{| u_id := 1; u_telegram_id := 1001; u_last_active := 3 |}].
Proof. vm_compute. auto. Qed.

(** ** [statsQueries.getTotalStats] *)

(** X4. A completed payment enters the statistics of [getTotalStats] once.
    When a verified completed webhook resolves to an invoice whose order is
    on file and its four statements are accepted (the route still answers 500,
    see C3), an order that was not yet paid is counted as one more paid order
    and its total is added to the revenue, and it leaves the pending count if
    it was pending; an order that was already paid changes nothing: a
    redelivered webhook is not counted again. The number of customers is
    unchanged. *)
Theorem payment_counts_once `{Runtime} (this : Server) (now : Z) (req : webhookRequest)
    (w : world) (key : string) (inv : invoice) (o : order) (u : user) :
  verifyWebhookSignature (plisio this) (wr_body req) (signature_of req) = true ->
  wr_body req !! "status" = Some (JStr "completed") ->
  wr_body req !! "txn_id" = Some (JStr key) ->
  invoices (w_db w) !! key = Some inv ->
  orders (w_db w) !! i_order_id inv = Some o ->
  List.find (fun u => u_id u =? o_user_id o) (users (w_db w)) = Some u ->
  accepted 4 w ->
  let before := total_stats (w_db w) in
  let after := total_stats (w_db (snd (post_api_webhook_plisio this now req w))) in
  unique_customers after = unique_customers before /\
  (o_status o = "paid" -> after = before) /\
  (o_status o <> "paid" ->
   total_paid_orders after = S (total_paid_orders before) /\
   total_revenue after = total_revenue before + o_total_price o /\
   (o_status o = "pending" -> S (pending_orders after) = pending_orders before) /\
   (o_status o <> "pending" -> pending_orders after = pending_orders before)).
Proof.
  intros Hv Hs Hk Hinv Ho Hu Hacc before after. apply txn_id_resolves in Hk.
  destruct (webhook_completed this now req w key inv o u Hv Hs Hk Hinv Ho Hu Hacc)
    as (w' & E & Hdb & _).
  subst before after. rewrite E. cbn [snd]. rewrite Hdb.
  destruct (all_orders_alter (w_db w)
              (with_order_status "paid" (current_timestamp (w_db w))) _ _ Ho)
    as (rest & Hbefore & Hafter).
  assert (Hsame : all_orders (reconciled key (i_order_id inv) now (w_db w))
                  = all_orders (set_orders (alter (with_order_status "paid"
                                                   (current_timestamp (w_db w)))
                                            (i_order_id inv))
                                  (w_db w)))
    by reflexivity.
  unfold total_stats. rewrite Hsame. cbn [unique_customers total_paid_orders
    pending_orders total_revenue].
  rewrite !(count_status_perm _ _ _ Hafter), !(count_status_perm _ _ _ Hbefore),
    (sum_paid_perm _ _ Hafter), (sum_paid_perm _ _ Hbefore),
    (count_distinct_perm _ _ (Permutation_map o_user_id Hafter)),
    (count_distinct_perm _ _ (Permutation_map o_user_id Hbefore)).
  rewrite !count_status_cons, !sum_paid_cons. cbn [o_status with_order_status
    o_total_price map o_user_id]. cbn [String.eqb Ascii.eqb Bool.eqb].
  split; [reflexivity|]. split.
  - intros Hp. rewrite Hp. reflexivity.
  - intros Hp. apply String.eqb_neq in Hp. rewrite Hp.
    split; [reflexivity|]. split; [lia|]. split.
    + intros Hq. apply String.eqb_eq in Hq. rewrite Hq. reflexivity.
    + intros Hq. apply String.eqb_neq in Hq. rewrite Hq. reflexivity.
Qed.

Lemma payment_counts_once_witness :
  let before := total_stats (w_db ordered_world) in
  let after := total_stats (w_db (snd (@post_api_webhook_plisio stub_runtime shop 7
                                         completed_webhook ordered_world))) in
  unique_customers after = unique_customers before /\
  (o_status order1 = "paid" -> after = before) /\
  (o_status order1 <> "paid" ->
   total_paid_orders after = S (total_paid_orders before) /\
   total_revenue after = total_revenue before + o_total_price order1 /\
   (o_status order1 = "pending" -> S (pending_orders after) = pending_orders before) /\
   (o_status order1 <> "pending" -> pending_orders after = pending_orders before)).
Proof.
  refine (@payment_counts_once stub_runtime shop 7 completed_webhook ordered_world
            "inv1" invoice1 order1 alice _ _ _ _ _ _ _).
  - vm_compute. reflexivity.
  - vm_compute. reflexivity.
  - vm_compute. reflexivity.
  - vm_compute. reflexivity.
  - vm_compute. reflexivity.
  - vm_compute. reflexivity.
  - apply accepted_nil. vm_compute. reflexivity.
Defined.

(** X5. An order enters the statistics as pending as soon as its transaction
    commits, whatever the gateway answers afterwards: with a registered
    customer, items that all pass, a fresh order id and no refusal up to
    COMMIT, [getTotalStats] counts one more pending order, the same paid
    orders and revenue, and one more customer exactly when the customer had
    no order before. *)
Theorem order_counts_as_pending (reply : option plisioInvoice) (now : Z)
    (body : orderRequest) (t : Z) (its : list requestItem) (u : user) (w : world) :
  telegram_id body = Some t -> t <> 0 ->
  items body = Some its -> its <> [] ->
  List.find (fun u => u_telegram_id u =? t) (users (w_db w)) = Some u ->
  Forall (item_passes (w_db w)) its ->
  orders (w_db w) !! orders_id_seq (w_db w) = None ->
  accepted (5 + 2 * length its) w ->
  let before := total_stats (w_db w) in
  let after := total_stats (w_db (snd (post_api_orders reply now body w))) in
  pending_orders after = S (pending_orders before) /\
  total_paid_orders after = total_paid_orders before /\
  total_revenue after = total_revenue before /\
  unique_customers after
  = if bool_decide (u_id u ∈ map o_user_id (all_orders (w_db w)))
    then unique_customers before else S (unique_customers before).
Proof.
  intros Ht Ht0 Hits Hne Hu Hpass Hfresh Hacc before after.
  destruct (post_api_orders_commits reply now body t its u w _ _ Ht Ht0 Hits Hne Hu Hpass
              Hfresh Hacc (surjective_pairing _)) as (lines & rows & _ & Hord & _).
  pose proof (all_orders_insert (w_db w) _
                {| o_id := orders_id_seq (w_db w); o_user_id := u_id u;
                   o_total_price := sum_total lines; o_status := "pending";
                   o_updated_at := current_timestamp (w_db w) |} Hfresh) as Hperm.
  assert (Hsame : all_orders (w_db (snd (post_api_orders reply now body w)))
                  = all_orders (set_orders (insert (orders_id_seq (w_db w))
                       {| o_id := orders_id_seq (w_db w); o_user_id := u_id u;
                          o_total_price := sum_total lines; o_status := "pending";
                          o_updated_at := current_timestamp (w_db w) |}) (w_db w)))
    by (unfold all_orders; rewrite Hord; reflexivity).
  subst before after. unfold total_stats. rewrite Hsame.
  cbn [unique_customers total_paid_orders pending_orders total_revenue].
  rewrite !(count_status_perm _ _ _ Hperm), (sum_paid_perm _ _ Hperm),
    (count_distinct_perm _ _ (Permutation_map o_user_id Hperm)).
  rewrite !count_status_cons, sum_paid_cons. cbn [map o_user_id]. rewrite count_distinct_cons.
  repeat split.
Qed.

Lemma order_counts_as_pending_witness :
  let before := total_stats (w_db (world_of fresh_db [])) in
  let after := total_stats (w_db (snd (post_api_orders None 0 one_course
                                         (world_of fresh_db [])))) in
  pending_orders after = S (pending_orders before) /\
  total_paid_orders after = total_paid_orders before /\
  total_revenue after = total_revenue before /\
  unique_customers after
  = if bool_decide (u_id alice ∈ map o_user_id (all_orders (w_db (world_of fresh_db []))))
    then unique_customers before else S (unique_customers before).
Proof.
  refine (order_counts_as_pending None 0 one_course 1001
            [{| item_product_id := 1; item_quantity := 1 |}] alice (world_of fresh_db [])
            _ _ _ _ _ _ _ _).
  - reflexivity.
  - lia.
  - reflexivity.
  - discriminate.
  - vm_compute. reflexivity.
  - repeat constructor; exists course; vm_compute; repeat split; discriminate.
  - vm_compute. reflexivity.
  - apply accepted_nil. reflexivity.
Defined.

(** ** The product routes *)



(** X7. PUT /api/products/:id for an administrator, its one statement
    accepted. A body without a usable stock ([parseInt] gives NaN) is
    answered 500 and changes nothing. With a name and a stock, an id that is
    not on file is answered 404 and changes nothing, and a product on file
    is answered 200 with the row as stored: name, price and stock as sent,
    id and [is_active] as before, so that an update neither brings a deleted
    product back nor hides an active one; no other product is touched. *)
Theorem put_product_outcomes (this : Server) (admin id : Z) (body : productBody) (w : world) :
  existsb (Z.eqb admin) (adminIds this) = true ->
  refused w = false ->
  (pb_stock body = None ->
   put_api_products this (Some admin) id body w
   = (Ok (json 500 (Error "Failed to update product")), advance (w_db w) w)) /\
  (forall name stock,
      pb_name body = Some name -> pb_stock body = Some stock ->
      match products (w_db w) !! id with
      | None =>
          put_api_products this (Some admin) id body w
          = (Ok (json 404 (Error "Product not found")), advance (w_db w) w)
      | Some p =>
          let stored := {| p_id := p_id p; p_name := name; p_price_usd := pb_price_usd body;
                           p_stock := stock; p_is_active := p_is_active p |} in
          put_api_products this (Some admin) id body w
          = (Ok (json 200 (ProductJson stored)),
             advance (set_products (insert id stored) (w_db w)) w)
      end).
Proof.
  intros Hadmin R.
  unfold put_api_products, adminAuth, try_catch, productQueries_update. rewrite Hadmin.
  rewrite bind_sql_run by exact R. cbn [pd_name pd_stock pd_price_usd]. split.
  - intros ->. reflexivity.
  - intros name stock -> ->. destruct (products (w_db w) !! id) as [p|]; reflexivity.
Qed.

Lemma put_product_outcomes_witness :
  (pb_stock doubled_price = None ->
   put_api_products shop (Some 42) 1 doubled_price (world_of fresh_db [])
   = (Ok (json 500 (Error "Failed to update product")),
      advance (w_db (world_of fresh_db [])) (world_of fresh_db []))) /\
  (forall name stock,
      pb_name doubled_price = Some name -> pb_stock doubled_price = Some stock ->
      match products (w_db (world_of fresh_db [])) !! 1 with
      | None =>
          put_api_products shop (Some 42) 1 doubled_price (world_of fresh_db [])
          = (Ok (json 404 (Error "Product not found")),
             advance (w_db (world_of fresh_db [])) (world_of fresh_db []))
      | Some p =>
          let stored := {| p_id := p_id p; p_name := name;
                           p_price_usd := pb_price_usd doubled_price;
                           p_stock := stock; p_is_active := p_is_active p |} in
          put_api_products shop (Some 42) 1 doubled_price (world_of fresh_db [])
          = (Ok (json 200 (ProductJson stored)),
             advance (set_products (insert 1 stored) (w_db (world_of fresh_db [])))
               (world_of fresh_db []))
      end).
Proof.
  refine (put_product_outcomes shop 42 1 doubled_price (world_of fresh_db []) _ _).
  - reflexivity.
  - reflexivity.
Defined.

(** X8. A product created through POST /api/products reads back through
    GET /api/products/:id. For an administrator, a body with a name, a price
    and a mega link, a fresh product id and no statement refused, the route
    answers 201 with the new product, active, its stock the one sent or 0
    when none was sent, and GET of its id then answers 200 with the same
    product. *)
Theorem created_product_reads_back (this : Server) (admin : Z) (body : productBody)
    (name : string) (w : world) :
  existsb (Z.eqb admin) (adminIds this) = true ->
  pb_name body = Some name -> name <> "" ->
  pb_price_usd body <> 0 ->
  truthy_string (pb_mega_link body) = true ->
  products (w_db w) !! products_id_seq (w_db w) = None ->
  accepted 2 w ->
  exists w1 w2,
    let p := {| p_id := products_id_seq (w_db w); p_name := name;
                p_price_usd := pb_price_usd body;
                p_stock := default 0 (pb_stock body); p_is_active := true |} in
    post_api_products this (Some admin) body w = (Ok (json 201 (ProductJson p)), w1) /\
    get_api_product (p_id p) w1 = (Ok (json 200 (ProductJson p)), w2) /\
    w_db w2 = w_db w1.
Proof.
  intros Hadmin Hname Hne Hprice Hlink Hfresh Hacc.
  assert (Htruthy : truthy_string (pb_name body) && truthy_price body
                    && truthy_string (pb_mega_link body) = true).
  { rewrite Hname, Hlink. unfold truthy_price. cbn. apply String.eqb_neq in Hne. rewrite Hne.
    replace (pb_price_usd body =? 0) with false by lia. cbn. rewrite orb_true_r. reflexivity. }
  set (p := {| p_id := products_id_seq (w_db w); p_name := name;
               p_price_usd := pb_price_usd body;
               p_stock := default 0 (pb_stock body); p_is_active := true |}).
  set (w1 := advance (set_products (insert (products_id_seq (w_db w)) p)
                        (bump_products_seq (w_db w))) w).
  assert (Hacc1 : accepted 1 w1) by (apply accepted_advance; exact Hacc).
  exists w1, (advance (w_db w1) w1). cbn zeta. split; [|split].
  - unfold post_api_products, adminAuth, try_catch, productQueries_create.
    rewrite Hadmin, Htruthy, bind_sql_run by (eapply accepted_S; eauto).
    cbn [pd_name pd_stock pd_price_usd]. rewrite Hname, Hfresh. reflexivity.
  - unfold get_api_product, try_catch, productQueries_getById.
    rewrite bind_sql_run by (eapply accepted_S; eauto). cbn [fst snd].
    subst w1. rewrite w_db_advance. cbn [products set_products bump_products_seq p_id].
    rewrite lookup_insert_eq. reflexivity.
  - apply w_db_advance.
Qed.

Lemma created_product_reads_back_witness :
  exists w1 w2,
    let p := {| p_id := products_id_seq (w_db (world_of fresh_db []));
                p_name := "Software License"; p_price_usd := pb_price_usd software_license;
                p_stock := default 0 (pb_stock software_license); p_is_active := true |} in
    post_api_products shop (Some 42) software_license (world_of fresh_db [])
    = (Ok (json 201 (ProductJson p)), w1) /\
    get_api_product (p_id p) w1 = (Ok (json 200 (ProductJson p)), w2) /\
    w_db w2 = w_db w1.
Proof.
  refine (created_product_reads_back shop 42 software_license "Software License"
            (world_of fresh_db []) _ _ _ _ _ _ _).
  - reflexivity.
  - reflexivity.
  - discriminate.
  - discriminate.
  - reflexivity.
  - vm_compute. reflexivity.
  - apply accepted_nil. reflexivity.
Defined.

(** ** POST /api/orders after COMMIT *)

(** X9. The order route, when everything goes well. With a registered
    customer, items that all pass their check, a fresh order id, a gateway
    reply whose [txn_id] is not on file and no statement refused, the route
    answers 201 with the pending order and the invoice as stored: for that
    order, under the [txn_id] of the reply, with the currency, amount and
    links of the reply, the order total as [amount_usd], status "new", no
    payment time, and an expiry 24 hours after the request. The total is the
    sum over the items of price times quantity. *)
Theorem order_is_invoiced (data : plisioInvoice) (now : Z) (body : orderRequest) (t : Z)
    (its : list requestItem) (u : user) (w : world) :
  telegram_id body = Some t -> t <> 0 ->
  items body = Some its -> its <> [] ->
  List.find (fun u => u_telegram_id u =? t) (users (w_db w)) = Some u ->
  Forall (item_passes (w_db w)) its ->
  orders (w_db w) !! orders_id_seq (w_db w) = None ->
  invoices (w_db w) !! txn_id data = None ->
  accepted (6 + 3 * length its) w ->
  exists lines inv w',
    let order := {| o_id := orders_id_seq (w_db w); o_user_id := u_id u;
                    o_total_price := sum_total lines; o_status := "pending";
                    o_updated_at := current_timestamp (w_db w) |} in
    Forall2 (priced (w_db w)) its lines /\
    post_api_orders (Some data) now body w = (Ok (json 201 (OrderCreated order inv)), w') /\
    inv = {| i_id := i_id inv; i_order_id := orders_id_seq (w_db w);
             i_plisio_invoice_id := txn_id data; i_currency := pi_currency data;
             i_amount := pi_amount data; i_amount_usd := sum_total lines;
             i_status := "new"; i_invoice_url := pi_invoice_url data;
             i_qr_code_url := pi_qr_code data; i_wallet_hash := pi_wallet_hash data;
             i_paid_at := None; i_expires_at := now + 24 * 60 * 60 * 1000 |} /\
    orders (w_db w') = <[orders_id_seq (w_db w) := order]> (orders (w_db w)) /\
    invoices (w_db w') = <[txn_id data := inv]> (invoices (w_db w)) /\
    users (w_db w') = users (w_db w).
Proof.
  intros Ht Ht0 Hits Hne Hu Hpass Hfresh Hnew Hacc.
  destruct (post_api_orders_to_commit (Some data) now body t its u w Ht Ht0 Hits Hne Hu Hpass
              Hfresh) as (lines & rows & w2 & Hpriced & Hframe & Hord & _ & _ & Hr2 & E).
  { intros i Hi. apply Hacc. lia. }
  cbn zeta in E. rewrite E. clear E.
  pose proof (Forall2_length _ _ _ Hpriced) as Hn.
  assert (Hacc2 : accepted (S (length lines)) w2).
  { apply (accepted_drop (5 + 2 * length its) _ w); [|exact Hr2].
    intros i Hi. apply Hacc. lia. }
  destruct Hframe as (Hu2 & _ & Hi2 & _).
  unfold try_catch. cbn [createInvoice]. unfold bind at 1. cbn [ret].
  unfold invoiceQueries_create. rewrite bind_sql_run by (eapply accepted_S; eauto).
  cbn [id_plisio_invoice_id]. rewrite Hi2, Hnew. cbn [fst snd].
  match goal with
  | |- context [advance ?d w2] =>
      destruct (reservations_accepted lines (advance d w2)) as (w' & Eloop & Hstock);
      [apply accepted_advance; exact Hacc2|]
  end.
  unfold bind at 1. rewrite Eloop. cbn [ret].
  destruct Hstock as (Hu3 & Ho3 & _ & Hi3 & _). rewrite w_db_advance in Hu3, Ho3, Hi3.
  eexists lines, _, w'. cbn zeta. split; [exact Hpriced|]. split; [reflexivity|].
  cbn. split; [reflexivity|]. rewrite Ho3, Hi3, Hu3. cbn. rewrite Hi2. auto.
Qed.

Lemma order_is_invoiced_witness :
  exists lines inv w',
    let order := {| o_id := orders_id_seq (w_db (world_of fresh_db []));
                    o_user_id := u_id alice;
                    o_total_price := sum_total lines; o_status := "pending";
                    o_updated_at := current_timestamp (w_db (world_of fresh_db [])) |} in
    Forall2 (priced (w_db (world_of fresh_db [])))
      [{| item_product_id := 1; item_quantity := 1 |}] lines /\
    post_api_orders (Some gateway_reply) 0 one_course (world_of fresh_db [])
    = (Ok (json 201 (OrderCreated order inv)), w') /\
    inv = {| i_id := i_id inv; i_order_id := orders_id_seq (w_db (world_of fresh_db []));
             i_plisio_invoice_id := txn_id gateway_reply;
             i_currency := pi_currency gateway_reply;
             i_amount := pi_amount gateway_reply; i_amount_usd := sum_total lines;
             i_status := "new"; i_invoice_url := pi_invoice_url gateway_reply;
             i_qr_code_url := pi_qr_code gateway_reply;
             i_wallet_hash := pi_wallet_hash gateway_reply;
             i_paid_at := None; i_expires_at := 0 + 24 * 60 * 60 * 1000 |} /\
    orders (w_db w')
    = <[orders_id_seq (w_db (world_of fresh_db [])) := order]>
        (orders (w_db (world_of fresh_db []))) /\
    invoices (w_db w')
    = <[txn_id gateway_reply := inv]> (invoices (w_db (world_of fresh_db []))) /\
    users (w_db w') = users (w_db (world_of fresh_db [])).
Proof.
  refine (order_is_invoiced gateway_reply 0 one_course 1001
            [{| item_product_id := 1; item_quantity := 1 |}] alice (world_of fresh_db [])
            _ _ _ _ _ _ _ _ _).
  - reflexivity.
  - lia.
  - reflexivity.
  - discriminate.
  - vm_compute. reflexivity.
  - repeat constructor; exists course; vm_compute; repeat split; discriminate.
  - vm_compute. reflexivity.
  - vm_compute. reflexivity.
  - apply accepted_nil. reflexivity.
Defined.

(** X10. An order whose invoicing fails stays on file. With a registered
    customer, items that all pass, a fresh order id and no statement
    refused, when the gateway call fails or answers with a [txn_id] that is
    already on file, the route answers 500 while the order and its item rows,
    committed before the gateway was called, persist as a pending order
    without an invoice; no invoice row is written or changed and no stock is
    reserved. *)
Theorem failed_invoicing_leaves_order (reply : option plisioInvoice) (now : Z)
    (body : orderRequest) (t : Z) (its : list requestItem) (u : user) (w : world) :
  telegram_id body = Some t -> t <> 0 ->
  items body = Some its -> its <> [] ->
  List.find (fun u => u_telegram_id u =? t) (users (w_db w)) = Some u ->
  Forall (item_passes (w_db w)) its ->
  orders (w_db w) !! orders_id_seq (w_db w) = None ->
  accepted (6 + 2 * length its) w ->
  match reply with
  | None => True
  | Some data => is_Some (invoices (w_db w) !! txn_id data)
  end ->
  exists lines rows w',
    Forall2 (priced (w_db w)) its lines /\
    post_api_orders reply now body w
    = (Ok (json 500 (Error "Failed to create order")), w') /\
    orders (w_db w')
    = <[orders_id_seq (w_db w) :=
          {| o_id := orders_id_seq (w_db w); o_user_id := u_id u;
             o_total_price := sum_total lines; o_status := "pending";
             o_updated_at := current_timestamp (w_db w) |}]>
        (orders (w_db w)) /\
    order_items (w_db w') = order_items (w_db w) ++ rows /\
    Forall2 (row_of (orders_id_seq (w_db w))) rows lines /\
    invoices (w_db w') = invoices (w_db w) /\
    products (w_db w') = products (w_db w) /\
    w_reserved w' = w_reserved w.
Proof.
  intros Ht Ht0 Hits Hne Hu Hpass Hfresh Hacc Hreply.
  destruct (post_api_orders_to_commit reply now body t its u w Ht Ht0 Hits Hne Hu Hpass
              Hfresh) as (lines & rows & w2 & Hpriced & Hframe & Hord & Hrows & HF & Hr2 & E).
  { intros i Hi. apply Hacc. lia. }
  cbn zeta in E. rewrite E. clear E.
  assert (Hacc2 : accepted 1 w2).
  { apply (accepted_drop (5 + 2 * length its) _ w); [|exact Hr2].
    intros i Hi. apply Hacc. lia. }
  destruct Hframe as (_ & Hp2 & Hi2 & _ & _ & Hl2).
  exists lines, rows. unfold try_catch.
  destruct reply as [data|]; cbn [createInvoice].
  - destruct Hreply as [old Hold].
    unfold bind at 1. cbn [ret]. unfold invoiceQueries_create.
    rewrite bind_sql_run by (eapply accepted_S; eauto).
    cbn [id_plisio_invoice_id]. rewrite Hi2, Hold. cbn [fst snd ret].
    eexists. split; [exact Hpriced|]. split; [reflexivity|].
    rewrite w_db_advance, w_reserved_advance. cbn. auto 10.
  - exists w2. unfold bind, throw, ret. cbn. auto 10.
Qed.

Lemma failed_invoicing_leaves_order_witness :
  exists lines rows w',
    Forall2 (priced (w_db (world_of fresh_db [])))
      [{| item_product_id := 1; item_quantity := 1 |}] lines /\
    post_api_orders None 0 one_course (world_of fresh_db [])
    = (Ok (json 500 (Error "Failed to create order")), w') /\
    orders (w_db w')
    = <[orders_id_seq (w_db (world_of fresh_db [])) :=
          {| o_id := orders_id_seq (w_db (world_of fresh_db [])); o_user_id := u_id alice;
             o_total_price := sum_total lines; o_status := "pending";
             o_updated_at := current_timestamp (w_db (world_of fresh_db [])) |}]>
        (orders (w_db (world_of fresh_db []))) /\
    order_items (w_db w') = order_items (w_db (world_of fresh_db [])) ++ rows /\
    Forall2 (row_of (orders_id_seq (w_db (world_of fresh_db [])))) rows lines /\
    invoices (w_db w') = invoices (w_db (world_of fresh_db [])) /\
    products (w_db w') = products (w_db (world_of fresh_db [])) /\
    w_reserved w' = w_reserved (world_of fresh_db []).
Proof.
  refine (failed_invoicing_leaves_order None 0 one_course 1001
            [{| item_product_id := 1; item_quantity := 1 |}] alice (world_of fresh_db [])
            _ _ _ _ _ _ _ _ _).
  - reflexivity.
  - lia.
  - reflexivity.
  - discriminate.
  - vm_compute. reflexivity.
  - repeat constructor; exists course; vm_compute; repeat split; discriminate.
  - vm_compute. reflexivity.
  - apply accepted_nil. reflexivity.
  - exact I.
Defined.



(** ** POST /api/webhook/plisio *)

(** X12. A verified webhook whose [txn_id] is missing, is sent to the
    database as NULL, or names no invoice on file is answered 404 after one
    lookup, with every table as it was: the webhook route never creates an
    invoice. *)
Theorem unknown_invoice_is_not_found `{Runtime} (this : Server) (now : Z)
    (req : webhookRequest) (w : world) :
  verifyWebhookSignature (plisio this) (wr_body req) (signature_of req) = true ->
  refused w = false ->
  (forall key, wr_body req !! "txn_id" ≫= pg_text = Some key ->
               invoices (w_db w) !! key = None) ->
  post_api_webhook_plisio this now req w
  = (Ok (json 404 (Error "Invoice not found")), advance (w_db w) w).
Proof.
  intros Hv R Hmiss.
  unfold post_api_webhook_plisio, try_catch. rewrite Hv. cbn [negb].
  cbv zeta. unfold invoiceQueries_getByPlisioId.
  rewrite bind_sql_run by exact R. cbn [fst snd].
  unfold processWebhook at 1. cbn [invoiceId].
  destruct (wr_body req !! "txn_id" ≫= pg_text) as [key|] eqn:Ek.
  - cbn. rewrite (Hmiss key eq_refl). reflexivity.
  - reflexivity.
Qed.

Lemma unknown_invoice_is_not_found_witness :
  @post_api_webhook_plisio stub_runtime shop 7 completed_webhook (world_of fresh_db [])
  = (Ok (json 404 (Error "Invoice not found")),
     advance (w_db (world_of fresh_db [])) (world_of fresh_db [])).
Proof.
  refine (@unknown_invoice_is_not_found stub_runtime shop 7 completed_webhook
            (world_of fresh_db []) _ _ _).
  - vm_compute. reflexivity.
  - reflexivity.
  - intros key _. apply lookup_empty.
Defined.

(** X13. Only a completed payload reaches an order. A webhook whose [status]
    is not the string "completed" (an expired, cancelled or pending one, or
    one without a status), whatever its signature and whatever is refused,
    leaves users, products, orders, order items and grants as they were and
    sends no message: at most the invoice row changes, so the order of an
    expired invoice stays pending. *)
Theorem only_completed_reaches_order `{Runtime} (this : Server) (now : Z)
    (req : webhookRequest) (w : world) (r : outcome response) (w' : world) :
  wr_body req !! "status" <> Some (JStr "completed") ->
  post_api_webhook_plisio this now req w = (r, w') ->
  users (w_db w') = users (w_db w) /\ products (w_db w') = products (w_db w) /\
  orders (w_db w') = orders (w_db w) /\ order_items (w_db w') = order_items (w_db w) /\
  purchased_products (w_db w') = purchased_products (w_db w) /\
  w_sent w' = w_sent w /\ w_reserved w' = w_reserved w.
Proof.
  intros Hs. revert w r w'.
  change (keeps only_invoices (post_api_webhook_plisio this now req)).
  assert (Hpaid : isPaid (processWebhook (wr_body req)) = false).
  { unfold processWebhook. cbn [isPaid].
    destruct (wr_body req !! "status") as [[| |s|]|]; try reflexivity.
    apply String.eqb_neq. congruence. }
  unfold post_api_webhook_plisio. cbv zeta. rewrite Hpaid.
  keeps_walk only_invoices_refl only_invoices_trans.
  all: unfold only_invoices; rows_done.
Qed.

Lemma only_completed_reaches_order_witness :
  let w' := snd (@post_api_webhook_plisio stub_runtime shop 9 expired_webhook ordered_world) in
  users (w_db w') = users (w_db ordered_world) /\
  products (w_db w') = products (w_db ordered_world) /\
  orders (w_db w') = orders (w_db ordered_world) /\
  order_items (w_db w') = order_items (w_db ordered_world) /\
  purchased_products (w_db w') = purchased_products (w_db ordered_world) /\
  w_sent w' = w_sent ordered_world /\ w_reserved w' = w_reserved ordered_world.
Proof.
  refine (@only_completed_reaches_order stub_runtime shop 9 expired_webhook ordered_world
            _ _ _ (surjective_pairing _)).
  vm_compute. discriminate.
Defined.

(** ** [services/plisio.js] *)

(** X14. A service that the constructor returned never skips the check. The
    constructor throws on a missing or empty PLISIO_SECRET_KEY, so for a
    constructed service [verifyWebhookSignature] answers true exactly when
    the received signature is a string equal to the digest of the signed
    string under that key: a missing signature, or one that is not a string,
    never verifies. *)
Theorem constructed_service_checks `{Runtime} (PLISIO_SECRET_KEY : option string)
    (this : PlisioService) (data : jsobj) (receivedSignature : option jsval) :
  PlisioService_new PLISIO_SECRET_KEY = Some this ->
  PLISIO_SECRET_KEY = Some (secretKey this) /\
  (verifyWebhookSignature this data receivedSignature = true <->
   receivedSignature = Some (JStr (hmac_sha1_hex (secretKey this) (sortedParams data)))).
Proof.
  unfold PlisioService_new. intros Hnew.
  destruct PLISIO_SECRET_KEY as [key|]; [|discriminate].
  destruct (String.eqb_spec key "") as [|Hne]; [discriminate|].
  inversion Hnew. subst this. cbn [secretKey]. split; [reflexivity|].
  unfold verifyWebhookSignature. cbn [secretKey].
  apply String.eqb_neq in Hne. rewrite Hne. unfold strict_eq_string. split.
  - destruct receivedSignature as [[| |s|]|]; try discriminate.
    intros E. apply String.eqb_eq in E. rewrite E. reflexivity.
  - intros ->. apply String.eqb_refl.
Qed.

Lemma constructed_service_checks_witness :
  Some "secret" = Some (secretKey (plisio shop)) /\
  (@verifyWebhookSignature stub_runtime (plisio shop) (wr_body completed_webhook) None = true <->
   None = Some (JStr (@hmac_sha1_hex stub_runtime (secretKey (plisio shop))
                        (sortedParams (wr_body completed_webhook))))).
Proof.
  refine (@constructed_service_checks stub_runtime (Some "secret") (plisio shop)
            (wr_body completed_webhook) None _).
  reflexivity.
Defined.

(** X15. A webhook in which one signed field was given a value that renders
    differently, the signature left as it was, is answered 401 with nothing
    touched, unless the two signed strings, which differ, have the same
    digest under the key. (The key is not empty and the original verifies.) *)
Theorem altered_field_rejected_or_collision `{Runtime} (this : Server) (now : Z)
    (original altered : webhookRequest) (field : string) (v v' : jsval) (w : world) :
  secretKey (plisio this) <> "" ->
  x_plisio_signature altered = x_plisio_signature original ->
  field <> "verify_hash" ->
  wr_body original !! field = Some v ->
  wr_body altered = <[field := v']> (wr_body original) ->
  js_to_string v' <> js_to_string v ->
  verifyWebhookSignature (plisio this) (wr_body original) (signature_of original) = true ->
  post_api_webhook_plisio this now altered w = (Ok (json 401 (Error "Invalid signature")), w) \/
  (sortedParams (wr_body altered) <> sortedParams (wr_body original) /\
   hmac_sha1_hex (secretKey (plisio this)) (sortedParams (wr_body altered))
   = hmac_sha1_hex (secretKey (plisio this)) (sortedParams (wr_body original))).
Proof.
  intros Hkey Hh Hf Hwas Hnow Hr Hv.
  destruct (verifyWebhookSignature (plisio this) (wr_body altered) (signature_of altered))
    eqn:Ha; [right | left; apply webhook_rejected, Ha].
  split.
  - rewrite Hnow. apply (sortedParams_other_rendering _ field v v' Hf Hwas Hr).
  - rewrite (signature_of_altered original altered field v' Hh Hf Hnow) in Ha.
    unfold verifyWebhookSignature in Ha, Hv.
    apply String.eqb_neq in Hkey. rewrite Hkey in Ha, Hv. unfold strict_eq_string in Ha, Hv.
    destruct (signature_of original) as [[| |s|]|]; try discriminate.
    apply String.eqb_eq in Ha, Hv. congruence.
Qed.

Lemma altered_field_rejected_or_collision_witness :
  @post_api_webhook_plisio stub_runtime shop 7 cheaper_webhook ordered_world
  = (Ok (json 401 (Error "Invalid signature")), ordered_world) \/
  (sortedParams (wr_body cheaper_webhook) <> sortedParams (wr_body completed_webhook) /\
   @hmac_sha1_hex stub_runtime (secretKey (plisio shop)) (sortedParams (wr_body cheaper_webhook))
   = @hmac_sha1_hex stub_runtime (secretKey (plisio shop))
       (sortedParams (wr_body completed_webhook))).
Proof.
  refine (@altered_field_rejected_or_collision stub_runtime shop 7 completed_webhook
            cheaper_webhook "amount" (JStr "99.99") (JStr "0.01") ordered_world _ _ _ _ _ _ _).
  - discriminate.
  - reflexivity.
  - discriminate.
  - vm_compute. reflexivity.
  - reflexivity.
  - discriminate.
  - vm_compute. reflexivity.
Defined.

(** X16. The signed string does not separate its fields: values are joined
    with [=] and [&] as they are. A payload with the one field [k1] whose
    value is [v1&k2=v2] and a payload with the two fields [k1 = v1] and
    [k2 = v2] ([k1] sorting before [k2]) sign to the same string, so that
    every signature verifies for both or for neither. *)
Theorem signed_string_does_not_separate_fields `{Runtime} (this : PlisioService)
    (k1 k2 v1 v2 : string) (receivedSignature : option jsval) :
  k1 <> k2 -> String.le k1 k2 -> k1 <> "verify_hash" -> k2 <> "verify_hash" ->
  sortedParams (<[k1 := JStr (v1 +:+ "&" +:+ k2 +:+ "=" +:+ v2)]> ∅)
  = sortedParams (<[k1 := JStr v1]> (<[k2 := JStr v2]> ∅)) /\
  verifyWebhookSignature this (<[k1 := JStr (v1 +:+ "&" +:+ k2 +:+ "=" +:+ v2)]> ∅)
    receivedSignature
  = verifyWebhookSignature this (<[k1 := JStr v1]> (<[k2 := JStr v2]> ∅)) receivedSignature.
Proof.
  intros Hne Hle H1 H2.
  assert (Hsame : sortedParams (<[k1 := JStr (v1 +:+ "&" +:+ k2 +:+ "=" +:+ v2)]> ∅)
                  = sortedParams (<[k1 := JStr v1]> (<[k2 := JStr v2]> ∅))).
  { apply String.eqb_neq in H1, H2.
    rewrite (sortedParams_sorted _ [k1]), (sortedParams_sorted _ [k1; k2]).
    - cbn [map String.concat]. unfold template_of.
      rewrite !lookup_insert_eq, lookup_insert_ne, lookup_insert_eq by congruence.
      cbn [from_option js_to_string]. rewrite !string_app_assoc. reflexivity.
    - repeat constructor. exact Hle.
    - eapply perm_trans;
        [apply filter_Permutation, Object_keys_insert_fresh;
         rewrite lookup_insert_ne, lookup_empty by congruence; reflexivity|].
      cbn [List.filter]. rewrite H1. cbn [negb]. constructor.
      eapply perm_trans; [apply filter_Permutation, Object_keys_insert_fresh, lookup_empty|].
      cbn [List.filter]. rewrite H2, Object_keys_empty. reflexivity.
    - repeat constructor.
    - eapply perm_trans; [apply filter_Permutation, Object_keys_insert_fresh, lookup_empty|].
      cbn [List.filter]. rewrite H1, Object_keys_empty. reflexivity. }
  split; [exact Hsame|]. unfold verifyWebhookSignature. rewrite Hsame. reflexivity.
Qed.

Lemma signed_string_does_not_separate_fields_witness :
  sortedParams (<["status" := JStr ("pending" +:+ "&" +:+ "txn_id" +:+ "=" +:+ "inv1")]> ∅)
  = sortedParams (<["status" := JStr "pending"]> (<["txn_id" := JStr "inv1"]> ∅)) /\
  @verifyWebhookSignature stub_runtime (plisio shop)
    (<["status" := JStr ("pending" +:+ "&" +:+ "txn_id" +:+ "=" +:+ "inv1")]> ∅) None
  = @verifyWebhookSignature stub_runtime (plisio shop)
      (<["status" := JStr "pending"]> (<["txn_id" := JStr "inv1"]> ∅)) None.
Proof.
  refine (@signed_string_does_not_separate_fields stub_runtime (plisio shop)
            "status" "txn_id" "pending" "inv1" None _ _ _ _).
  - discriminate.
  - vm_compute. exact I.
  - discriminate.
  - discriminate.
Defined.

(** X17. For a payload whose [status] is a string, the status that
    [processWebhook] maps it to is "paid" exactly when [isPaid] holds, which
    is exactly when the string is "completed": the route then stores "paid"
    together with a payment time, and any other mapped status together with
    none. *)
Theorem paid_status_iff_isPaid (data : jsobj) (s : string) :
  data !! "status" = Some (JStr s) ->
  (status (processWebhook data) = StatusText "paid" <->
   isPaid (processWebhook data) = true) /\
  (isPaid (processWebhook data) = true <-> s = "completed").
Proof.
  intros Hs. unfold processWebhook. cbn [status isPaid]. rewrite Hs.
  rewrite mapPlisioStatus_paid. split; [|apply String.eqb_eq].
  symmetry. apply String.eqb_eq.
Qed.

Lemma paid_status_iff_isPaid_witness :
  (status (processWebhook (wr_body expired_webhook)) = StatusText "paid" <->
   isPaid (processWebhook (wr_body expired_webhook)) = true) /\
  (isPaid (processWebhook (wr_body expired_webhook)) = true <-> "expired" = "completed").
Proof.
  refine (paid_status_iff_isPaid (wr_body expired_webhook) "expired" _).
  vm_compute. reflexivity.
Defined.

(** ** The administrator check on the raw request *)

(** X18. When every entry of ADMIN_TELEGRAM_IDS parses to a number, the check
    on the raw request is the check on numbers: the request goes through
    exactly when the header is present, not empty, parses to a number and
    that number is one of the parsed entries. When the variable is not set,
    every request is answered 403. *)
Theorem admin_check_on_numbers (parseInt : string -> option Z) (this : Server)
    (ids : string) (x_telegram_id : option string) (next : M response) :
  map parseInt (split_commas ids) = map Some (adminIds this) ->
  adminAuth_request parseInt (Some ids) x_telegram_id next
  = adminAuth this
      (x_telegram_id ≫= fun h => if String.eqb h "" then None else parseInt h) next /\
  adminAuth_request parseInt None x_telegram_id next
  = ret (json 403 (Error "Admin access required")).
Proof.
  intros Hids. split.
  - unfold adminAuth_request, adminAuth, adminIds_of. rewrite Hids.
    destruct x_telegram_id as [h|]; [|reflexivity]. cbn [mbind option_bind].
    destruct (String.eqb h ""); [reflexivity|]. cbn [orb].
    destruct (parseInt h) as [n|].
    + rewrite includes_parsed. destruct (existsb (Z.eqb n) (adminIds this)); reflexivity.
    + rewrite includes_nan_parsed. reflexivity.
  - unfold adminAuth_request, adminIds_of.
    destruct x_telegram_id as [h|]; [|reflexivity].
    destruct (String.eqb h ""); reflexivity.
Qed.

Lemma admin_check_on_numbers_witness :
  adminAuth_request stub_parseInt (Some "42") (Some "42abc") (ret (json 200 Success))
  = adminAuth shop
      (Some "42abc" ≫= fun h => if String.eqb h "" then None else stub_parseInt h)
      (ret (json 200 Success)) /\
  adminAuth_request stub_parseInt None (Some "42abc") (ret (json 200 Success))
  = ret (json 403 (Error "Admin access required")).
Proof.
  refine (admin_check_on_numbers stub_parseInt shop "42" (Some "42abc")
            (ret (json 200 Success)) _).
  reflexivity.
Defined.

(** X19. When an entry of ADMIN_TELEGRAM_IDS does not parse to a number
    (the empty entry that an empty value or a trailing comma leaves, for
    one), the parsed list holds NaN, and every request whose header is not
    empty and does not parse to a number either is let through: [includes]
    finds NaN in the list. *)
Theorem admin_check_lets_unparsable_through (parseInt : string -> option Z) (ids entry : string)
    (telegramId : string) (next : M response) :
  In entry (split_commas ids) -> parseInt entry = None ->
  telegramId <> "" -> parseInt telegramId = None ->
  adminAuth_request parseInt (Some ids) (Some telegramId) next = next.
Proof.
  intros Hin Hentry Hne Hnan. unfold adminAuth_request, adminIds_of.
  apply String.eqb_neq in Hne. rewrite Hne, Hnan. cbn [orb].
  assert (Hinc : includes (map parseInt (split_commas ids)) None = true).
  { apply includes_In. rewrite <- Hentry. apply in_map, Hin. }
  rewrite Hinc. reflexivity.
Qed.

Lemma admin_check_lets_unparsable_through_witness :
  adminAuth_request stub_parseInt (Some "42,") (Some "anyone") (ret (json 200 Success))
  = ret (json 200 Success).
Proof.
  refine (admin_check_lets_unparsable_through stub_parseInt "42," "" "anyone" _ _ _ _ _).
  - right. left. reflexivity.
  - reflexivity.
  - discriminate.
  - reflexivity.
Defined.

(** ** What no request undoes *)

(** X20. Across any sequence of requests, an order on file stays on file with
    its id, customer and total; its status is either what it was or "paid",
    and an order that was paid stays paid: no route cancels, refunds or
    removes an order. *)
Theorem order_kept_and_paid_is_final `{Runtime} (this : Server) (events : list event)
    (w : world) (id : Z) (o : order) :
  orders (w_db w) !! id = Some o ->
  exists o',
    orders (w_db (run this events w)) !! id = Some o' /\
    o_id o' = o_id o /\ o_user_id o' = o_user_id o /\ o_total_price o' = o_total_price o /\
    (o_status o' = o_status o \/ o_status o' = "paid") /\
    (o_status o = "paid" -> o_status o' = "paid").
Proof.
  intros Ho. destruct (run_kept this events w) as (_ & _ & Hord & _).
  destruct (Hord id o Ho) as (o' & Ho' & Hid & Huser & Htotal & Hst).
  exists o'. repeat split; auto. intros Hp. destruct Hst as [E|E]; congruence.
Qed.

Lemma order_kept_and_paid_is_final_witness :
  exists o',
    orders (w_db (@run stub_runtime shop
                    [PostWebhook 7 completed_webhook; PostWebhook 9 expired_webhook;
                     DeleteProducts (Some 42) 1]
                    ordered_world)) !! 1 = Some o' /\
    o_id o' = o_id order1 /\ o_user_id o' = o_user_id order1 /\
    o_total_price o' = o_total_price order1 /\
    (o_status o' = o_status order1 \/ o_status o' = "paid") /\
    (o_status order1 = "paid" -> o_status o' = "paid").
Proof.
  refine (@order_kept_and_paid_is_final stub_runtime shop _ ordered_world 1 order1 _).
  vm_compute. reflexivity.
Defined.

(** X21. Across any sequence of requests no user row and no order item row
    is removed or moved: the users on file stay where they are with their id
    and Telegram id (only [last_active] changes) and new users follow them,
    so a registered customer is found under the same id ever after; the
    order item rows are only appended to, so the captured prices and
    quantities of an order item never change; and an invoice on file stays on
    file with every column but [status] and [paid_at] as it was stored. *)
Theorem rows_are_append_only `{Runtime} (this : Server) (events : list event) (w : world) :
  (exists old more,
      users (w_db (run this events w)) = old ++ more /\
      Forall2 (fun u u' => u_id u' = u_id u /\ u_telegram_id u' = u_telegram_id u)
        (users (w_db w)) old) /\
  (exists more, order_items (w_db (run this events w)) = order_items (w_db w) ++ more) /\
  (forall t u,
      List.find (fun u => u_telegram_id u =? t) (users (w_db w)) = Some u ->
      exists u',
        List.find (fun u => u_telegram_id u =? t) (users (w_db (run this events w))) = Some u' /\
        u_id u' = u_id u /\ u_telegram_id u' = u_telegram_id u) /\
  (forall key inv,
      invoices (w_db w) !! key = Some inv ->
      exists inv',
        invoices (w_db (run this events w)) !! key = Some inv' /\
        i_id inv' = i_id inv /\ i_order_id inv' = i_order_id inv /\
        i_plisio_invoice_id inv' = i_plisio_invoice_id inv /\
        i_currency inv' = i_currency inv /\ i_amount inv' = i_amount inv /\
        i_amount_usd inv' = i_amount_usd inv /\ i_invoice_url inv' = i_invoice_url inv /\
        i_qr_code_url inv' = i_qr_code_url inv /\ i_wallet_hash inv' = i_wallet_hash inv /\
        i_expires_at inv' = i_expires_at inv).
Proof.
  destruct (run_kept this events w) as ((old & more & Hu & Hsame) & Hrows & _ & Hinv & _).
  split; [exists old, more; split; [exact Hu | exact Hsame]|].
  split; [exact Hrows|]. split.
  - intros t u Hf. rewrite Hu. eapply find_same_users; eassumption.
  - intros key inv Hk. destruct (Hinv key inv Hk) as (inv' & Hk' & E).
    exists inv'. split; [exact Hk'|]. rewrite <- E. cbn. auto 15.
Qed.

(** X22. A webhook, whatever its payload, and a bot update never change a
    product: in particular the stock that an order took is not given back
    when its invoice expires or is cancelled. *)
Theorem webhooks_never_restock `{Runtime} (this : Server) (events : list event) (w : world) :
  Forall moves_no_stock events ->
  products (w_db (run this events w)) = products (w_db w).
Proof. intros HF. apply (run_moves_no_stock this events w HF). Qed.

Lemma webhooks_never_restock_witness :
  products (w_db (@run stub_runtime shop
                    [PostWebhook 7 expired_webhook; BotUpdate (plain_message 1002)]
                    ordered_world))
  = products (w_db ordered_world).
Proof.
  refine (@webhooks_never_restock stub_runtime shop _ ordered_world _).
  repeat constructor.
Defined.

(** ** What every run keeps *)

(** X23. The next id of every sequence stays free. From a state in which
    every order id (also where order items refer to it), product id and user
    id is below the next value of its sequence, every sequence of requests
    leads to such a state again: the next order id is not taken and no order
    item points at it, the next product id is not taken, and no user has the
    next user id, so that an insert never meets a duplicate id. *)
Theorem next_ids_stay_free `{Runtime} (this : Server) (events : list event) (w : world) :
  ahead (w_db w) ->
  let d := w_db (run this events w) in
  ahead d /\
  orders d !! orders_id_seq d = None /\
  Forall (fun row => oi_order_id row <> orders_id_seq d) (order_items d) /\
  products d !! products_id_seq d = None /\
  existsb (fun u => u_id u =? users_id_seq d) (users d) = false.
Proof.
  intros Hw d. destruct (run_stays_ahead this events w) as (_ & Hrun).
  specialize (Hrun Hw). fold d in Hrun. split; [exact Hrun|].
  destruct Hrun as (Ao & Ap & Au & Ai). repeat split.
  - destruct (orders d !! orders_id_seq d) as [o|] eqn:E; [|reflexivity].
    specialize (Ao _ _ E). lia.
  - eapply Forall_impl; [exact Ai | cbn; intros; lia].
  - destruct (products d !! products_id_seq d) as [p|] eqn:E; [|reflexivity].
    specialize (Ap _ _ E). lia.
  - destruct (existsb (fun u => u_id u =? users_id_seq d) (users d)) eqn:E; [|reflexivity].
    apply existsb_exists in E. destruct E as (u & Hin & Hu).
    rewrite Forall_forall in Au. specialize (Au u (proj2 (list_elem_of_In _ _) Hin)). lia.
Qed.

Lemma next_ids_stay_free_witness :
  let d := w_db (@run stub_runtime shop
                   [PostOrders (Some gateway_reply) 0 one_course; BotUpdate (plain_message 1002);
                    PostProducts (Some 42) software_license]
                   (world_of fresh_db [])) in
  ahead d /\
  orders d !! orders_id_seq d = None /\
  Forall (fun row => oi_order_id row <> orders_id_seq d) (order_items d) /\
  products d !! products_id_seq d = None /\
  existsb (fun u => u_id u =? users_id_seq d) (users d) = false.
Proof.
  refine (@next_ids_stay_free stub_runtime shop _ (world_of fresh_db []) _).
  exact fresh_db_ahead.
Defined.

(** X24. Rows stay under their own keys. From a state in which every product
    and every order is stored under its id and every invoice under its
    [plisio_invoice_id], every sequence of requests leads to such a state
    again: no route rewrites the id of a row. *)
Theorem rows_stay_keyed `{Runtime} (this : Server) (events : list event) (w : world) :
  keyed_rows (w_db w) -> keyed_rows (w_db (run this events w)).
Proof. intros K. apply (run_stays_keyed this events w K). Qed.

Lemma rows_stay_keyed_witness :
  keyed_rows (w_db (@run stub_runtime shop
                      [PostOrders (Some gateway_reply) 0 one_course;
                       PutProducts (Some 42) 1 doubled_price]
                      (world_of fresh_db []))).
Proof.
  refine (@rows_stay_keyed stub_runtime shop _ (world_of fresh_db []) _).
  exact fresh_db_keyed.
Defined.
